(** * xhs_video_downloader: a shallow embedding of the resolution pipeline

    The development follows [src/video_downloader.py] (the current script:
    QR cascade, platform detection, file-name sanitising, the three
    downloaders, collision-free output paths, the two entry points) and
    [src/legacy/xhs_downloader.py] (the older Xiaohongshu-only entry point).

    Conventions of the embedding.
    - A Python [str] is a [string]; one [ascii] stands for one code point
      below 256, so the white-space and lower-casing tables below are the
      ones of Python restricted to that range.
    - A parsed JSON document or a yt-dlp info object is a [value].
    - A raised exception is an [error]; a function that can raise returns
      a [result].
    - The outside world (network, image libraries, extraction engine) is a
      record of deterministic oracles, [World]; a computation reports the
      calls it made to the outside world and the paths that exist when it
      ends. *)

From Stdlib Require Import ZArith Ascii String Floats.
From stdpp Require Import base tactics option list strings gmap pretty.

Local Open Scope string_scope.

(** ** Python strings *)

Module PyStr.

(** The double quote, written by its code so that no literal has to hold it. *)
Definition dquote : ascii := "034"%char.
Definition LF : ascii := "010"%char.
Definition CR : ascii := "013"%char.

Definition between (lo hi n : N) : bool := (lo <=? n)%N && (n <=? hi)%N.

(** [str.isspace], which is also what [str.strip()] removes and what the
    pattern [\s] matches: TAB LF VT FF CR, FS GS RS US, space, NEL, NBSP. *)
Definition is_space (c : ascii) : bool :=
  let n := N_of_ascii c in
  between 9 13 n || between 28 32 n || (n =? 133)%N || (n =? 160)%N.

(** The pattern [\d]. *)
Definition is_digit (c : ascii) : bool := between 48 57 (N_of_ascii c).

(** [str.lower] on one character: A-Z, and the upper-case letters of
    Latin-1 (U+00C0..U+00DE without the multiplication sign U+00D7). *)
Definition lower_char (c : ascii) : ascii :=
  let n := N_of_ascii c in
  if between 65 90 n || (between 192 222 n && negb (n =? 215)%N)
  then ascii_of_N (n + 32) else c.

Fixpoint lower (s : string) : string :=
  match s with
  | EmptyString => EmptyString
  | String c s' => String (lower_char c) (lower s')
  end.

(** [s.startswith(p)] *)
Fixpoint startswith (p s : string) : bool :=
  match p, s with
  | EmptyString, _ => true
  | String a p', String b s' => Ascii.eqb a b && startswith p' s'
  | String _ _, EmptyString => false
  end.

(** [p in s]: [p] occurs in [s] as a substring. *)
Fixpoint contains (p s : string) : bool :=
  startswith p s ||
  match s with
  | EmptyString => false
  | String _ s' => contains p s'
  end.

(** [s[:n]] *)
Fixpoint take (n : nat) (s : string) : string :=
  match n, s with
  | S n', String c s' => String c (take n' s')
  | _, _ => EmptyString
  end.

(** [s.endswith(p)] *)
Fixpoint endswith (p s : string) : bool :=
  String.eqb p s ||
  match s with
  | EmptyString => false
  | String _ s' => endswith p s'
  end.

(** [c in s] for a single character. *)
Fixpoint mem (c : ascii) (s : string) : bool :=
  match s with
  | EmptyString => false
  | String d s' => Ascii.eqb c d || mem c s'
  end.

(** [s[n:]] *)
Fixpoint drop (n : nat) (s : string) : string :=
  match n, s with
  | S n', String _ s' => drop n' s'
  | _, _ => s
  end.

(** [s[i:j]], [s[:j]] and [s[i:]] for indices that are not negative. *)
Definition slice (i j : Z) (s : string) : string :=
  take (Z.to_nat (j - i)) (drop (Z.to_nat i) s).
Definition slice_to (j : Z) (s : string) : string := take (Z.to_nat j) s.
Definition slice_from (i : Z) (s : string) : string := drop (Z.to_nat i) s.

(** [all(f(c) for c in s)] *)
Fixpoint all_chars (f : ascii -> bool) (s : string) : bool :=
  match s with
  | EmptyString => true
  | String c s' => f c && all_chars f s'
  end.

(** [s.rfind(c)] for a single character: the last index of [c], or -1. *)
Fixpoint rfind_from (c : ascii) (s : string) (i acc : Z) : Z :=
  match s with
  | EmptyString => acc
  | String d s' => rfind_from c s' (i + 1) (if Ascii.eqb d c then i else acc)
  end.
Definition rfind (c : ascii) (s : string) : Z := rfind_from c s 0 (-1).

Fixpoint lstrip_by (f : ascii -> bool) (s : string) : string :=
  match s with
  | String c s' => if f c then lstrip_by f s' else s
  | EmptyString => EmptyString
  end.

Fixpoint rstrip_by (f : ascii -> bool) (s : string) : string :=
  match s with
  | EmptyString => EmptyString
  | String c s' =>
      match rstrip_by f s' with
      | EmptyString => if f c then EmptyString else String c EmptyString
      | r => String c r
      end
  end.

(** [s.strip()] *)
Definition strip (s : string) : string := rstrip_by is_space (lstrip_by is_space s).

(** The longest prefix of characters satisfying [f], and what follows it:
    a greedy [[...]*] of a pattern. *)
Fixpoint span (f : ascii -> bool) (s : string) : string * string :=
  match s with
  | String c s' =>
      if f c then let '(a, b) := span f s' in (String c a, b) else (EmptyString, s)
  | EmptyString => (EmptyString, EmptyString)
  end.

(** What follows the literal [p] at the start of [s], if [s] starts with it. *)
Fixpoint after_prefix (p s : string) : option string :=
  match p, s with
  | EmptyString, _ => Some s
  | String a p', String b s' => if Ascii.eqb a b then after_prefix p' s' else None
  | String _ _, EmptyString => None
  end.

(** Truth value of a string: [bool(s)]. *)
Definition nonempty (s : string) : bool :=
  match s with EmptyString => false | String _ _ => true end.

(** First and last characters, for stating that a string has no
    surrounding white space. *)
Definition head (s : string) : option ascii :=
  match s with EmptyString => None | String c _ => Some c end.

Fixpoint last (s : string) : option ascii :=
  match s with
  | EmptyString => None
  | String c EmptyString => Some c
  | String _ s' => last s'
  end.

Definition is_space_opt (o : option ascii) : bool :=
  match o with Some c => is_space c | None => false end.

(** [s == s.strip()] read on the ends of [s]. *)
Definition no_surrounding_space (s : string) : bool :=
  negb (is_space_opt (head s)) && negb (is_space_opt (last s)).

End PyStr.

(** ** Regular expressions

    [re.sub(pattern, '', s)] for a pattern that never matches the empty
    string, given the matcher of the pattern at the start of a string: the
    length of its match there, if any.  Matches are taken leftmost and do
    not overlap: after a match of length [n] the next [n - 1] characters
    are dropped without being looked at. *)

Module Re.

Fixpoint sub_empty (m : string -> option nat) (skip : nat) (s : string) : string :=
  match s with
  | EmptyString => EmptyString
  | String c s' =>
      match skip with
      | S k => sub_empty m k s'
      | O =>
          match m s with
          | Some (S k) => sub_empty m k s'
          | _ => String c (sub_empty m 0 s')
          end
      end
  end.

(** [re.search]: the first position, left to right, where the matcher
    succeeds. *)
Fixpoint search {A} (m : string -> option A) (s : string) : option A :=
  match m s with
  | Some r => Some r
  | None =>
      match s with
      | EmptyString => None
      | String _ s' => search m s'
      end
  end.

(** Number of characters up to and including the first [>]. *)
Fixpoint upto_gt (s : string) : option nat :=
  match s with
  | EmptyString => None
  | String c s' => if Ascii.eqb c ">" then Some 1 else S <$> upto_gt s'
  end.

(** The pattern [<[^>]+>] at the start of [s].  [[^>]+] is greedy and is
    followed by [>], so the match ends at the first [>] after at least one
    other character. *)
Definition match_tag (s : string) : option nat :=
  match s with
  | String "<" (String c s') =>
      if Ascii.eqb c ">" then None else (fun n => 2 + n) <$> upto_gt s'
  | _ => None
  end.

(** The characters of the class of the second substitution: the nine
    punctuation marks (less-than, greater-than, colon, double quote, slash,
    backslash, bar, question mark, star), line feed and carriage return. *)
Definition invalid_char (c : ascii) : bool :=
  PyStr.mem c "<>:/\|?*" || Ascii.eqb c PyStr.dquote
  || Ascii.eqb c PyStr.LF || Ascii.eqb c PyStr.CR.

Definition match_invalid (s : string) : option nat :=
  match s with
  | String c _ => if invalid_char c then Some 1 else None
  | EmptyString => None
  end.

End Re.

(** ** [sanitize_filename] (video_downloader.py, lines 141-148) *)

Definition sanitize_filename (filename : string) : string :=
  let filename := Re.sub_empty Re.match_tag 0 filename in
  let filename := Re.sub_empty Re.match_invalid 0 filename in
  let filename := PyStr.take 50 (PyStr.strip filename) in
  if PyStr.nonempty filename then filename else "video".


(** ** Python values: what [json.loads] and the extraction engine return *)

#[warning="-register-all"]
Inductive value :=
| VNone
| VBool (b : bool)
| VInt (n : Z)
| VFloat (f : float)
| VStr (s : string)
| VTuple (l : list value)
| VList (l : list value)
| VDict (d : gmap string value).

Module PyVal.

(** A dict literal. *)
Definition dict (l : list (string * value)) : value := VDict (list_to_map l).

(** [bool(v)] *)
Definition truthy (v : value) : bool :=
  match v with
  | VNone => false
  | VBool b => b
  | VInt n => negb (n =? 0)%Z
  | VFloat f => negb (PrimFloat.eqb f 0%float)
  | VStr s => PyStr.nonempty s
  | VTuple l | VList l => match l with [] => false | _ => true end
  | VDict d => negb (bool_decide (d = ∅))
  end.

(** [a or b] *)
Definition or_else (a b : value) : value := if truthy a then a else b.

(** [v == s] for a string literal [s]. *)
Definition eq_str (v : value) (s : string) : bool :=
  match v with VStr t => String.eqb t s | _ => false end.

(** [v == 1]: the integer 1, [True], and the float 1.0 all compare equal
    to 1. *)
Definition eq_one (v : value) : bool :=
  match v with
  | VInt n => (n =? 1)%Z
  | VBool b => b
  | VFloat f => PrimFloat.eqb f 1%float
  | _ => false
  end.

(** [type(v).__name__] *)
Definition type_name (v : value) : string :=
  match v with
  | VNone => "NoneType"
  | VBool _ => "bool"
  | VInt _ => "int"
  | VFloat _ => "float"
  | VStr _ => "str"
  | VTuple _ => "tuple"
  | VList _ => "list"
  | VDict _ => "dict"
  end.

End PyVal.

(** ** Exceptions and results *)

Inductive exn_class :=
| ValueError
| FileNotFoundError
| AttributeError
| TypeError
| UnicodeDecodeError
| RuntimeError
| RequestException   (* requests.RequestException and its subclasses *)
| JSONDecodeError
| CvError            (* cv2.error *)
| ForeignError       (* any other exception raised by a collaborator *)
| OutOfFuel.         (* a loop of the model that reached its iteration bound *)

Record error := Exn { exn_class_of : exn_class; exn_msg : string }.

(** [str(e)] *)
Definition str_of_error (e : error) : string := exn_msg e.

Inductive result (A : Type) :=
| Ok (a : A)
| Err (e : error).
Arguments Ok {A} a.
Arguments Err {A} e.

Definition is_ok {A} (r : result A) : bool :=
  match r with Ok _ => true | Err _ => false end.

(** Sequencing of computations that may raise, in stdpp's notation
    [x ← r; k]. *)
#[global] Instance result_ret : MRet result := fun A a => Ok a.
#[global] Instance result_bind : MBind result := fun A B k r =>
  match r with Ok a => k a | Err e => Err e end.
#[global] Instance result_fmap : FMap result := fun A B f r =>
  match r with Ok a => Ok (f a) | Err e => Err e end.

(** The failures of the code, by the names the specification gives them. *)
Definition ImageNotFound (image_path : string) : error :=
  Exn FileNotFoundError ("Image not found: " ++ image_path).
Definition ImageUnreadable (image_path : string) : error :=
  Exn ValueError ("Could not read image: " ++ image_path).
Definition NoQrFound : error :=
  Exn ValueError "No QR code found in the image".
Definition UnknownPlatform (url : string) : error :=
  Exn ValueError ("Unknown platform for URL: " ++ url).
Definition NoStatusId (url : string) : error :=
  Exn ValueError ("Could not extract status ID from URL: " ++ url).
Definition ApiError (msg : string) : error :=
  Exn ValueError ("Failed to get Weibo status: " ++ msg).
Definition NotAVideo : error :=
  Exn ValueError "This Weibo post does not contain a video.".
Definition NoWeiboVideoUrl : error :=
  Exn ValueError "Could not find video URL in Weibo response.".
Definition NoXhsVideoUrl : error :=
  Exn ValueError "Could not find video URL. This might be an image post.".
Definition NoInstagramInfo : error :=
  Exn ValueError "Could not extract video information from Instagram.".
Definition NoInstagramVideoUrl : error :=
  Exn ValueError "Could not find video URL in Instagram response.".
Definition NoAttributeGet (v : value) : error :=
  Exn AttributeError ("'" ++ PyVal.type_name v ++ "' object has no attribute 'get'").
Definition NotIterable (v : value) : error :=
  Exn TypeError ("'" ++ PyVal.type_name v ++ "' object is not iterable").
Definition NotAString (v : value) : error :=
  Exn TypeError ("expected string or bytes-like object, got '" ++ PyVal.type_name v ++ "'").

(** ** The outside world *)

(** Images are kept symbolic: an image is the chain of library calls that
    produced it.  The readers are oracles on such images. *)
Inductive cv_image :=
| Imread (image_path : string)            (* cv2.imread(image_path) *)
| Slice (y0 y1 x0 x1 : Z) (i : cv_image)  (* i[y0:y1, x0:x1] *)
| Bottom (i : cv_image)                   (* i[int(h * 0.6):, :] *)
| Resize (scale : Z) (i : cv_image)       (* cv2.resize(i, None, fx=scale, fy=scale, INTER_CUBIC) *)
| BGR2RGB (i : cv_image)                  (* cv2.cvtColor(i, cv2.COLOR_BGR2RGB) *)
| BGR2GRAY (i : cv_image)                 (* cv2.cvtColor(i, cv2.COLOR_BGR2GRAY) *)
| CLAHE (i : cv_image)                    (* createCLAHE(clipLimit=2.0, tileGridSize=(8, 8)).apply(i) *)
| Otsu (i : cv_image).                    (* threshold(i, 0, 255, THRESH_BINARY + THRESH_OTSU)[1] *)

Inductive pil_image :=
| ImageOpen (image_path : string)         (* Image.open(image_path) *)
| FromArray (i : cv_image).               (* Image.fromarray(i) *)

(** The [data] of a decoded symbol: bytes that are UTF-8 text, or not. *)
Inductive qr_data :=
| Utf8 (text : string)
| NotUtf8.

(** A located QR code: its four corner points [(x, y)], after
    [astype(int)]. *)
Definition point : Type := Z * Z.
Definition quad : Type := point * point * point * point.

(** The requests sessions of the script, which differ in their headers. *)
Inductive session :=
| XhsSession
| WeiboSession
| InstagramSession
| LegacySession.

Record response := {
  resp_url : string;              (* response.url, after redirects *)
  resp_status : option error;     (* what raise_for_status() raises, if anything *)
  resp_text : string;             (* response.text *)
  resp_json : result value;       (* response.json() *)
}.

(** How a transfer to disk ends: before the output file is opened, after
    it was created, or with the whole body written. *)
Inductive transfer_outcome :=
| Refused (e : error)
| Broken (e : error)
| Completed.

Record World := {
  (* PIL and pyzbar *)
  pil_open : string -> option error;                  (* Image.open raises? *)
  pyzbar_decode : pil_image -> list qr_data;          (* decode(image) *)
  (* OpenCV *)
  cv_readable : string -> bool;                       (* cv2.imread(path) is not None *)
  cv_shape : string -> Z * Z;                         (* (h, w) = img.shape[:2] *)
  cv_detect : cv_image -> string * option (list quad);(* detectAndDecode: data, vertices *)
  cv_resize_error : string;                           (* str(e) of the cv2.error of cv2.resize *)
  (* requests *)
  http_get : session -> string -> Z -> result response; (* session.get(url, timeout=t) *)
  http_stream : session -> value -> option string -> string -> transfer_outcome;
  (* yt-dlp *)
  ydl_extract_info : string -> gmap string value -> result value;
  (* Python built-ins kept abstract *)
  os_abspath : string -> string;                      (* os.path.abspath *)
  os_getcwd : string;                                 (* os.getcwd() *)
  unicode_escape : string -> result string;           (* s.encode('utf-8').decode('unicode_escape') *)
  repr_other : value -> string;                       (* str(v) for floats and containers *)
  (* the page scraping of the legacy script, as a function of the HTML *)
  legacy_scrape : string -> result (value * string);
}.

(** Calls to the outside world, in the order they are made. *)
Inductive event :=
| Exists (p : string)                                   (* os.path.exists(p) *)
| Open (image_path : string)                            (* Image.open *)
| Decode (i : pil_image)                                (* pyzbar decode *)
| Read (image_path : string)                            (* cv2.imread *)
| Detect (i : cv_image)                                 (* QRCodeDetector().detectAndDecode *)
| Get (s : session) (url : string) (timeout : Z)        (* session.get *)
| Stream (s : session) (url : value) (referer : option string) (output_path : string)
| Extract (url : string) (opts : gmap string value).    (* YoutubeDL(opts).extract_info *)

(** ** The monad of the script

    A computation starts from the set of paths that exist and ends with the
    calls it made (oldest first), the paths that exist afterwards, and
    either a value or the exception raised. *)

Record outcome (A : Type) := Outcome {
  trace : list event;
  files : gset string;
  value_of : result A;
}.
Arguments Outcome {A} trace files value_of.
Arguments trace {A} o.
Arguments files {A} o.
Arguments value_of {A} o.

Definition M (A : Type) : Type := gset string -> outcome A.

Definition ret {A} (a : A) : M A := fun fs => Outcome [] fs (Ok a).

Definition raise {A} (e : error) : M A := fun fs => Outcome [] fs (Err e).

Definition lift {A} (r : result A) : M A := fun fs => Outcome [] fs r.

Definition bind {A B} (c : M A) (k : A -> M B) : M B :=
  fun fs =>
    let o := c fs in
    match value_of o with
    | Ok a =>
        let o' := k a (files o) in
        Outcome (trace o ++ trace o') (files o') (value_of o')
    | Err e => Outcome (trace o) (files o) (Err e)
    end.

(** [try: c except Exception as e: h e] *)
Definition try_except {A} (c : M A) (h : error -> M A) : M A :=
  fun fs =>
    let o := c fs in
    match value_of o with
    | Ok a => o
    | Err e =>
        let o' := h e (files o) in
        Outcome (trace o ++ trace o') (files o') (value_of o')
    end.

Definition emit (e : event) : M unit := fun fs => Outcome [e] fs (Ok tt).

Definition create_file (p : string) : M unit :=
  fun fs => Outcome [] ({[p]} ∪ fs) (Ok tt).

Declare Scope py_scope.
Delimit Scope py_scope with py.
Notation "'do' x <- c ; k" := (bind c (fun x => k))
  (at level 10, x name, c at level 100, k at level 200) : py_scope.
Notation "'do' ' pat <- c ; k" := (bind c (fun x => match x with pat => k end))
  (at level 10, pat pattern, c at level 100, k at level 200) : py_scope.
Notation "'run' c ; k" := (bind c (fun _ => k))
  (at level 10, c at level 100, k at level 200) : py_scope.
Local Open Scope py_scope.

(** [os.path.exists(p)] *)
Definition path_exists (p : string) : M bool :=
  fun fs => Outcome [Exists p] fs (Ok (bool_decide (p ∈ fs))).

(** ** [os.path] (POSIX) *)

Module OsPath.

(** [os.path.join(a, b)] *)
Definition join (a b : string) : string :=
  if PyStr.startswith "/" b then b
  else if negb (PyStr.nonempty a) || PyStr.endswith "/" a then a ++ b
  else a ++ "/" ++ b.

(** [os.path.splitext(p)]: the extension starts at the last dot of the last
    path component, unless only dots precede it there. *)
Definition splitext (p : string) : string * string :=
  let sepIndex := PyStr.rfind "/" p in
  let dotIndex := PyStr.rfind "." p in
  if (sepIndex <? dotIndex)%Z then
    if PyStr.all_chars (Ascii.eqb ".") (PyStr.slice (sepIndex + 1) dotIndex p)
    then (p, EmptyString)
    else (PyStr.slice_to dotIndex p, PyStr.slice_from dotIndex p)
  else (p, EmptyString).

(** [os.path.dirname(p)] *)
Definition dirname (p : string) : string :=
  let i := (PyStr.rfind "/" p + 1)%Z in
  let head := PyStr.slice_to i p in
  if PyStr.nonempty head && negb (PyStr.all_chars (Ascii.eqb "/") head)
  then PyStr.rstrip_by (Ascii.eqb "/") head
  else head.

End OsPath.

(** ** [read_qrcode] (video_downloader.py, lines 24-125) *)

(** [decoded_objects[0].data.decode('utf-8')] *)
Definition first_text (d : qr_data) : M string :=
  match d with
  | Utf8 text => ret text
  | NotUtf8 => raise (Exn UnicodeDecodeError "invalid utf-8")
  end.

(** One attempt with the barcode reader: return what it finds, or go on. *)
Definition try_decode (w : World) (i : pil_image) (otherwise : M string) : M string :=
  run emit (Decode i);
  match pyzbar_decode w i with
  | d :: _ => first_text d
  | [] => otherwise
  end.

(** [for scale in scales: ... if decoded_objects: return ...] *)
Fixpoint for_scales (w : World) (prepare : Z -> pil_image) (scales : list Z)
    (otherwise : M string) : M string :=
  match scales with
  | scale :: scales' => try_decode w (prepare scale) (for_scales w prepare scales' otherwise)
  | [] => otherwise
  end.

Definition min4 (a b c d : Z) : Z := Z.min (Z.min a b) (Z.min c d).
Definition max4 (a b c d : Z) : Z := Z.max (Z.max a b) (Z.max c d).

(** Lines 52-62: the bounding box of the four corners, padded and clamped
    to the image: [(y_min, y_max, x_min, x_max)]. *)
Definition qr_box (w : World) (image_path : string) (q : quad) : Z * Z * Z * Z :=
  let '((x1, y1), (x2, y2), (x3, y3), (x4, y4)) := q in
  let x_min := min4 x1 x2 x3 x4 in
  let y_min := min4 y1 y2 y3 y4 in
  let x_max := max4 x1 x2 x3 x4 in
  let y_max := max4 y1 y2 y3 y4 in
  let padding := 50%Z in
  let '(h, wd) := cv_shape w image_path in
  let x_min := Z.max 0 (x_min - padding) in
  let y_min := Z.max 0 (y_min - padding) in
  let x_max := Z.min wd (x_max + padding) in
  let y_max := Z.min h (y_max + padding) in
  (y_min, y_max, x_min, x_max).

(** The crop around a located code: [img[y_min:y_max, x_min:x_max]]. *)
Definition qr_region (w : World) (image_path : string) (q : quad) : cv_image :=
  let '(y_min, y_max, x_min, x_max) := qr_box w image_path q in
  Slice y_min y_max x_min x_max (Imread image_path).

(** Where the bound [i] of a slice falls in an axis of length [n]: a
    negative bound counts from the end, and every bound is clipped to the
    axis. *)
Definition slice_bound (n i : Z) : Z :=
  if (i <? 0)%Z then Z.max 0 (i + n) else Z.min i n.

(** How many indices [start:stop] selects from an axis of length [n]. *)
Definition slice_length (n start stop : Z) : Z :=
  Z.max 0 (slice_bound n stop - slice_bound n start).

(** The crop has no pixel: its slice selects no row or no column. *)
Definition qr_region_is_empty (w : World) (image_path : string) (q : quad) : bool :=
  let '(y_min, y_max, x_min, x_max) := qr_box w image_path q in
  let '(h, wd) := cv_shape w image_path in
  (slice_length h y_min y_max =? 0)%Z || (slice_length wd x_min x_max =? 0)%Z.

(** What [cv2.resize] raises when handed an image without pixels. *)
Definition ResizeOfEmpty (w : World) : error := Exn CvError (cv_resize_error w).

(** Lines 77-125: the scans that do not depend on the detector. *)
Definition scan_regions (w : World) (image_path : string) : M string :=
  let img := Imread image_path in
  (* Try scanning bottom portion of image (common QR code location) *)
  let bottom_region := Bottom img in
  (* Try multiple scale factors on bottom region *)
  for_scales w (fun scale => FromArray (BGR2RGB (Resize scale bottom_region))) [2; 3; 4]%Z (
  (* Try with grayscale and contrast enhancement *)
  let gray := BGR2GRAY img in
  let enhanced := CLAHE gray in
  for_scales w (fun scale => FromArray (Resize scale enhanced)) [2; 3]%Z (
  (* Try binary thresholding *)
  try_decode w (FromArray (Resize 2 (Otsu gray))) (
  (* Last resort: scale entire image with different factors *)
  for_scales w (fun scale => FromArray (BGR2RGB (Resize scale img))) [2; 3]%Z (
  raise NoQrFound)))).

(** Lines 42-75: the detector, and the crop around what it located. *)
Definition detect_and_decode (w : World) (image_path : string) : M string :=
  let img := Imread image_path in
  (* Use OpenCV QR detector to locate QR code position *)
  run emit (Detect img);
  let '(data, vertices) := cv_detect w img in
  (* If OpenCV decoded it directly, return *)
  if PyStr.nonempty data then ret data else
  match vertices with
  | Some (q :: _) =>
      (* If QR code located but not decoded, crop and scale that region *)
      let qr_region := qr_region w image_path q in
      if qr_region_is_empty w image_path q then raise (ResizeOfEmpty w) else
      try_decode w (FromArray (BGR2RGB (Resize 3 qr_region)))
        (scan_regions w image_path)
  | _ => scan_regions w image_path
  end.

Definition read_qrcode (w : World) (image_path : string) : M string :=
  do found <- path_exists image_path;
  if negb found then raise (ImageNotFound image_path) else
  (* Try pyzbar first with original image *)
  run emit (Open image_path);
  match pil_open w image_path with
  | Some e => raise e
  | None =>
      try_decode w (ImageOpen image_path) (
      (* If failed, try with OpenCV *)
      run emit (Read image_path);
      if negb (cv_readable w image_path) then raise (ImageUnreadable image_path) else
      detect_and_decode w image_path)
  end.

(** ** [detect_platform] (video_downloader.py, lines 128-138) *)

Inductive platform :=
| Weibo
| Xiaohongshu
| Instagram.

(** The string the code returns for each platform. *)
Definition platform_name (p : platform) : string :=
  match p with
  | Weibo => "weibo"
  | Xiaohongshu => "xiaohongshu"
  | Instagram => "instagram"
  end.

Definition detect_platform (url : string) : result platform :=
  let url_lower := PyStr.lower url in
  if PyStr.contains "weibo.com" url_lower || PyStr.contains "weibo.cn" url_lower then
    Ok Weibo
  else if PyStr.contains "xiaohongshu.com" url_lower || PyStr.contains "xhslink.com" url_lower then
    Ok Xiaohongshu
  else if PyStr.contains "instagram.com" url_lower then
    Ok Instagram
  else
    Err (UnknownPlatform url).

(** ** The patterns searched for in pages and URLs *)

Module Pattern.

Import PyStr.

Definition not_dquote (c : ascii) : bool := negb (Ascii.eqb c dquote).
Definition quoted (s : string) : string := String dquote (s ++ String dquote EmptyString).

(** The pattern [QKEYQ\s*:\s*OPENER Q(PREFIX[^Q]+)Q] at the start of [s],
    where Q stands for the double quote; the result is group 1.  Each
    greedy run is followed by a character outside of its class, so the
    longest run is the only one that can match. *)
Definition match_field (key opener prefix : string) (s : string) : option string :=
  s ← after_prefix (quoted key) s;
  s ← after_prefix ":" (span is_space s).2;
  s ← after_prefix (opener ++ String dquote EmptyString) (span is_space s).2;
  s ← after_prefix prefix s;
  let '(body, s) := span not_dquote s in
  if nonempty body then
    _ ← after_prefix (String dquote EmptyString) s; Some (prefix ++ body)
  else None.

(** The two places a Xiaohongshu page keeps the media URL, and its title. *)
Definition master_url : string -> option string := match_field "masterUrl" "" "http".
Definition backup_urls : string -> option string := match_field "backupUrls" "[" "http".
Definition title : string -> option string := match_field "title" "" "".

(** [weibo\.com/\d+/(\d+)] *)
Definition weibo_com (s : string) : option string :=
  s ← after_prefix "weibo.com/" s;
  let '(user, s) := span is_digit s in
  if nonempty user then
    s ← after_prefix "/" s;
    let '(status, _) := span is_digit s in
    if nonempty status then Some status else None
  else None.

(** [weibo\.cn/status/(\d+)] *)
Definition weibo_cn (s : string) : option string :=
  s ← after_prefix "weibo.cn/status/" s;
  let '(status, _) := span is_digit s in
  if nonempty status then Some status else None.

(** [/(\d{16,})] *)
Definition long_number (s : string) : option string :=
  s ← after_prefix "/" s;
  let '(status, _) := span is_digit s in
  if (16 <=? String.length status)%nat then Some status else None.

End Pattern.

(** ** Helpers shared by the downloaders *)

(** [v.get(key, default)] *)
Definition get (v : value) (key : string) (otherwise : value) : result value :=
  match v with
  | VDict d => Ok (default otherwise (d !! key))
  | _ => Err (NoAttributeGet v)
  end.

(** [str(v)], as an f-string formats a value. *)
Definition format_value (w : World) (v : value) : string :=
  match v with
  | VStr s => s
  | VNone => "None"
  | VBool true => "True"
  | VBool false => "False"
  | VInt n => pretty n
  | _ => repr_other w v
  end.

(** [re.sub(r'<[^>]+>', '', text)] on a value: a [TypeError] unless it is
    a string. *)
Definition strip_tags (v : value) : result string :=
  match v with
  | VStr s => Ok (Re.sub_empty Re.match_tag 0 s)
  | _ => Err (NotAString v)
  end.

(** [sanitize_filename(v)] on a value. *)
Definition sanitize_value (v : value) : result string :=
  match v with
  | VStr s => Ok (sanitize_filename s)
  | _ => Err (NotAString v)
  end.

(** [session.get(url, timeout=t)] *)
Definition session_get (w : World) (s : session) (url : string) (timeout : Z) : M response :=
  run emit (Get s url timeout);
  lift (http_get w s url timeout).

(** [response.raise_for_status()] *)
Definition raise_for_status (r : response) : M unit :=
  match resp_status r with
  | Some e => raise e
  | None => ret tt
  end.

(** [BaseDownloader.download_video] (lines 162-194): the transfer itself
    is the collaborator's; what is kept is the request made and whether the
    output file comes to exist. *)
Definition download_video (w : World) (s : session) (video_url : value)
    (output_path : string) (referer : option string) : M string :=
  run emit (Stream s video_url referer output_path);
  match http_stream w s video_url referer output_path with
  | Refused e => raise e
  | Broken e => run create_file output_path; raise e
  | Completed => run create_file output_path; ret output_path
  end.

(** ** [get_unique_path] (video_downloader.py, lines 431-441) *)

(** [f"{base}_{counter}{ext}"] *)
Definition numbered (base ext : string) (counter : N) : string :=
  base ++ "_" ++ pretty counter ++ ext.

(** The [while] loop, bounded by [fuel] iterations. *)
Fixpoint unique_loop (fuel : nat) (base ext : string) (output_path : string)
    (counter : N) : M string :=
  match fuel with
  | O => raise (Exn OutOfFuel "get_unique_path")
  | S fuel' =>
      do taken <- path_exists output_path;
      if taken then unique_loop fuel' base ext (numbered base ext counter) (counter + 1)
      else ret output_path
  end.

(** The loop ends because finitely many paths exist.  The bound of the
    model is one test for the path itself and one for each of the first
    [size fs + 1] numbered paths; [free_exists] and [unique_loop_finds]
    show that it is never reached. *)
Definition get_unique_path (output_path : string) : M string :=
  do taken <- path_exists output_path;
  if negb taken then ret output_path else
  let counter := 1%N in
  let '(base, ext) := OsPath.splitext output_path in
  fun fs => unique_loop (2 + size fs) base ext output_path counter fs.

(** ** [XiaohongshuDownloader] (video_downloader.py, lines 197-257) *)

Module XiaohongshuDownloader.

Definition resolve_short_url (w : World) (url : string) : M string :=
  do response <- session_get w XhsSession url 10;
  ret (resp_url response).

(** The body of the [for pattern in video_patterns] loop once a pattern
    has matched. *)
Definition matched (w : World) (html group1 : string) : M (value * string) :=
  do video_url <- lift (unicode_escape w group1);
  let title :=
    match Re.search Pattern.title html with
    | Some t => sanitize_filename t
    | None => "xhs_video"
    end in
  ret (VStr video_url, title).

Definition get_video_info (w : World) (url : string) : M (value * string) :=
  do url <- (if PyStr.contains "xhslink.com" url then resolve_short_url w url else ret url);
  do response <- session_get w XhsSession url 15;
  run raise_for_status response;
  let html := resp_text response in
  match Re.search Pattern.master_url html with
  | Some g => matched w html g
  | None =>
      match Re.search Pattern.backup_urls html with
      | Some g => matched w html g
      | None => raise NoXhsVideoUrl
      end
  end.

Definition download (w : World) (url output_dir : string) : M string :=
  do '(video_url, title) <- get_video_info w url;
  let output_path := OsPath.join output_dir (title ++ ".mp4") in
  do output_path <- get_unique_path output_path;
  download_video w XhsSession video_url output_path (Some "https://www.xiaohongshu.com/").

End XiaohongshuDownloader.

(** ** [WeiboDownloader] (video_downloader.py, lines 260-338) *)

Module WeiboDownloader.

Definition extract_status_id (url : string) : result string :=
  match Re.search Pattern.weibo_com url with
  | Some status_id => Ok status_id
  | None =>
      match Re.search Pattern.weibo_cn url with
      | Some status_id => Ok status_id
      | None =>
          match Re.search Pattern.long_number url with
          | Some status_id => Ok status_id
          | None => Err (NoStatusId url)
          end
      end
  end.

(** Lines 306-316: the media URL of a post whose page info says video. *)
Definition select_video_url (page_info : value) : result value :=
  (* Get video URLs (prefer highest quality) *)
  urls ← get page_info "urls" (PyVal.dict []);
  u720 ← get urls "mp4_720p_mp4" VNone;
  uhd ← get urls "mp4_hd_mp4" VNone;
  uld ← get urls "mp4_ld_mp4" VNone;
  let video_url := PyVal.or_else u720 (PyVal.or_else uhd uld) in
  video_url ←
    (if negb (PyVal.truthy video_url) then
       (* Try media_info as fallback *)
       media_info ← get page_info "media_info" (PyVal.dict []);
       hd ← get media_info "stream_url_hd" VNone;
       sd ← get media_info "stream_url" VNone;
       Ok (PyVal.or_else hd sd)
     else Ok video_url);
  if negb (PyVal.truthy video_url) then Err NoWeiboVideoUrl else Ok video_url.

(** Lines 318-323: the title, from the text or the user name. *)
Definition derive_title (w : World) (status : value) : result string :=
  text ← get status "text" (VStr "");
  text ← strip_tags text;
  user ← get status "user" (PyVal.dict []);
  user_name ← get user "screen_name" (VStr "weibo");
  Ok (if PyStr.nonempty text then sanitize_filename text
      else "weibo_" ++ format_value w user_name).

(** Lines 296-325: what is done with the parsed API response. *)
Definition parse_status (w : World) (data : value) : result (value * string) :=
  ok ← get data "ok" VNone;
  if negb (PyVal.eq_one ok) then
    msg ← get data "msg" (VStr "Unknown error");
    Err (ApiError (format_value w msg))
  else
  status ← get data "data" (PyVal.dict []);
  page_info ← get status "page_info" (PyVal.dict []);
  type ← get page_info "type" VNone;
  if negb (PyVal.eq_str type "video") then Err NotAVideo else
  video_url ← select_video_url page_info;
  title ← derive_title w status;
  Ok (video_url, title).

Definition api_url (status_id : string) : string :=
  "https://m.weibo.cn/statuses/show?id=" ++ status_id.

Definition get_video_info (w : World) (url : string) : M (value * string) :=
  do status_id <- lift (extract_status_id url);
  do response <- session_get w WeiboSession (api_url status_id) 15;
  run raise_for_status response;
  do data <- lift (resp_json response);
  lift (parse_status w data).

Definition download (w : World) (url output_dir : string) : M string :=
  do '(video_url, title) <- get_video_info w url;
  let output_path := OsPath.join output_dir (title ++ ".mp4") in
  do output_path <- get_unique_path output_path;
  download_video w WeiboSession video_url output_path (Some "https://m.weibo.cn/").

End WeiboDownloader.

(** ** [InstagramDownloader] (video_downloader.py, lines 341-428) *)

Module InstagramDownloader.

(** The two constructor arguments, each a string or [None]. *)
Record t := {
  cookies_from_browser : option string;
  cookies_file : option string;
}.

(** A string or [None], as a value. *)
Definition opt_value (x : option string) : value :=
  match x with
  | Some s => VStr s
  | None => VNone
  end.

Definition base_opts : gmap string value :=
  {[ "quiet" := VBool true; "no_warnings" := VBool true; "extract_flat" := VBool false ]}.

Definition _build_ydl_opts (self : t) (use_cookies : bool) : gmap string value :=
  let opts := base_opts in
  if use_cookies then
    if PyVal.truthy (opt_value (cookies_file self)) then
      <["cookiefile" := opt_value (cookies_file self)]> opts
    else if PyVal.truthy (opt_value (cookies_from_browser self)) then
      <["cookiesfrombrowser" := VTuple [opt_value (cookies_from_browser self)]]> opts
    else
      (* Default to chrome when retrying with cookies *)
      <["cookiesfrombrowser" := VTuple [VStr "chrome"]]> opts
  else opts.

Definition _extract_info (w : World) (url : string) (ydl_opts : gmap string value) : M value :=
  run emit (Extract url ydl_opts);
  lift (ydl_extract_info w url ydl_opts).

(** [for fmt in formats]: what iterating over a value yields. *)
Definition iterate (v : value) : result (list value) :=
  match v with
  | VList l | VTuple l => Ok l
  | VStr s => Ok ((fun c => VStr (String c EmptyString)) <$> list_ascii_of_string s)
  | VDict d => Ok ((fun kv => VStr kv.1) <$> map_to_list d)
  | _ => Err (NotIterable v)
  end.

(** The loop over the formats: the URL of the first progressive MP4, or
    [None] when the loop ends without a [break]. *)
Fixpoint first_progressive (formats : list value) : result value :=
  match formats with
  | [] => Ok VNone
  | fmt :: formats' =>
      ext ← get fmt "ext" VNone;
      if PyVal.eq_str ext "mp4" then
        acodec ← get fmt "acodec" VNone;
        if negb (PyVal.eq_str acodec "none") then
          vcodec ← get fmt "vcodec" VNone;
          if negb (PyVal.eq_str vcodec "none") then get fmt "url" VNone
          else first_progressive formats'
        else first_progressive formats'
      else first_progressive formats'
  end.

Definition _parse_video_info (w : World) (info : value) : result (value * string) :=
  if negb (PyVal.truthy info) then Err NoInstagramInfo else
  (* Get the best format with video (prefer progressive mp4) *)
  formats ← get info "formats" (VList []);
  formats ← iterate formats;
  video_url ← first_progressive formats;
  (* Fallback to the default URL *)
  video_url ← (if negb (PyVal.truthy video_url) then get info "url" VNone else Ok video_url);
  if negb (PyVal.truthy video_url) then Err NoInstagramVideoUrl else
  (* Get title from description or channel *)
  title ← get info "description" (VStr "");
  title ← (if PyVal.truthy title then VStr <$> sanitize_value title else Ok title);
  title ←
    (if negb (PyVal.truthy title) then
       id ← get info "id" (VStr "video");
       channel ← get info "channel" id;
       Ok (VStr ("instagram_" ++ format_value w channel))
     else Ok title);
  Ok (video_url, format_value w title).

(** The condition under which a failure of the first attempt is retried. *)
Definition wants_cookies (e : error) : bool :=
  let error_msg := PyStr.lower (str_of_error e) in
  PyStr.contains "rate-limit" error_msg
  || PyStr.contains "login required" error_msg
  || PyStr.contains "requested content is not available" error_msg.

Definition get_video_info (w : World) (self : t) (url : string) : M (value * string) :=
  (* First attempt: without cookies *)
  try_except
    (do info <- _extract_info w url (_build_ydl_opts self false);
     lift (_parse_video_info w info))
    (fun e =>
       if wants_cookies e then
         do info <- _extract_info w url (_build_ydl_opts self true);
         lift (_parse_video_info w info)
       else raise e).

Definition download (w : World) (self : t) (url output_dir : string) : M string :=
  do '(video_url, title) <- get_video_info w self url;
  let output_path := OsPath.join output_dir (title ++ ".mp4") in
  do output_path <- get_unique_path output_path;
  download_video w InstagramSession video_url output_path (Some "https://www.instagram.com/").

End InstagramDownloader.

(** ** The entry points (video_downloader.py, lines 444-490) *)

(** The downloader chosen for a platform, applied. *)
Definition dispatch (w : World) (p : platform)
    (cookies_from_browser cookies_file : option string) (url output_dir : string) : M string :=
  match p with
  | Weibo => WeiboDownloader.download w url output_dir
  | Instagram =>
      InstagramDownloader.download w
        {| InstagramDownloader.cookies_from_browser := cookies_from_browser;
           InstagramDownloader.cookies_file := cookies_file |} url output_dir
  | Xiaohongshu => XiaohongshuDownloader.download w url output_dir
  end.

Definition download_from_screenshot (w : World) (screenshot_path : string)
    (output_dir cookies_from_browser cookies_file : option string) : M (string * platform) :=
  do qr_url <- read_qrcode w screenshot_path;
  (* Detect platform *)
  do platform <- lift (detect_platform qr_url);
  (* Set output directory to same folder as screenshot if not specified *)
  let output_dir :=
    match output_dir with
    | None => OsPath.dirname (os_abspath w screenshot_path)
    | Some d => d
    end in
  do output_path <- dispatch w platform cookies_from_browser cookies_file qr_url output_dir;
  ret (output_path, platform).

Definition download_from_url (w : World) (url : string)
    (output_dir cookies_from_browser cookies_file : option string) : M string :=
  do platform <- lift (detect_platform url);
  let output_dir :=
    match output_dir with
    | None => os_getcwd w
    | Some d => d
    end in
  dispatch w platform cookies_from_browser cookies_file url output_dir.

(** ** The command line (video_downloader.py, lines 493-580)

    [main] after [parse_args]: the parsed arguments are a record.  A run
    of the script ends with an exit status; what it printed is not kept.
    Between two items of a batch the script may pause; a pause is kept as
    a step of the run, without its length, which is drawn at random. *)

Module Cli.

Record args := {
  input : list string;
  output : option string;
  url : bool;
  batch : bool;
  cookies_from_browser : option string;
  cookies : option string;
}.

Inductive step :=
| Call (e : event)
| Sleep.                                   (* time.sleep(random.uniform(3, 6)) *)

(** How a run of the script ends. *)
Record ending := Ending {
  steps : list step;
  files_after : gset string;
  exit_status : Z;
}.

(** The state of the batch loop after some items. *)
Record tally := Tally {
  done_steps : list step;
  done_files : gset string;
  success : nat;
  failed : nat;
}.

(** [for i, filepath in enumerate(args.input, 1)], from item [i] on. *)
Fixpoint batch_loop (w : World) (a : args) (i : nat) (inputs : list string)
    (t : tally) : tally :=
  match inputs with
  | [] => t
  | filepath :: inputs' =>
      let o := download_from_screenshot w filepath (output a)
                 (cookies_from_browser a) (cookies a) (done_files t) in
      let made := (done_steps t ++ (Call <$> trace o))%list in
      match value_of o with
      | Ok (_, platform) =>
          (* Delay between Instagram downloads to avoid rate limiting *)
          let pause :=
            match platform with
            | Instagram => if (i <? length (input a))%nat then [Sleep] else []
            | _ => []
            end in
          batch_loop w a (S i) inputs'
            (Tally (made ++ pause) (files o) (S (success t)) (failed t))
      | Err _ =>
          batch_loop w a (S i) inputs' (Tally made (files o) (success t) (S (failed t)))
      end
  end.

(** [parser.error] ends the script with status 2. *)
Definition usage_error (fs : gset string) : ending := Ending [] fs 2.

Definition main (w : World) (a : args) (fs : gset string) : ending :=
  match input a with
  | [] => usage_error fs
  | first :: others =>
      if (1 <? length (input a))%nat && negb (batch a) then usage_error fs
      else if batch a then
        (* Batch mode *)
        let t := batch_loop w a 1 (input a) (Tally [] fs 0 0) in
        Ending (done_steps t) (done_files t) (if (failed t =? 0)%nat then 0 else 1)
      else
        (* Single file mode *)
        let o :=
          if url a then
            (run download_from_url w first (output a) (cookies_from_browser a) (cookies a);
             ret tt) fs
          else
            (run download_from_screenshot w first (output a)
                   (cookies_from_browser a) (cookies a);
             ret tt) fs in
        Ending (Call <$> trace o) (files o) (if is_ok (value_of o) then 0 else 1)
  end.

End Cli.

(** ** The legacy script (legacy/xhs_downloader.py) *)

Module Legacy.

(** [try: c except cls as e: h e] *)
Definition try_except_class {A} (cls : exn_class) (c : M A) (h : error -> M A) : M A :=
  try_except c (fun e =>
    match exn_class_of e, cls with
    | RequestException, RequestException => h e
    | JSONDecodeError, JSONDecodeError => h e
    | _, _ => raise e
    end).

(** Lines 28-42. *)
Definition read_qrcode (w : World) (image_path : string) : M string :=
  do found <- path_exists image_path;
  if negb found then raise (ImageNotFound image_path) else
  run emit (Open image_path);
  match pil_open w image_path with
  | Some e => raise e
  | None =>
      run emit (Decode (ImageOpen image_path));
      match pyzbar_decode w (ImageOpen image_path) with
      | [] => raise NoQrFound
      | d :: _ => first_text d
      end
  end.

(** Lines 44-52. *)
Definition resolve_short_url (w : World) (url : string) : M string :=
  try_except_class RequestException
    (do response <- session_get w LegacySession url 10;
     ret (resp_url response))
    (fun e => raise (Exn RuntimeError ("Failed to resolve URL: " ++ str_of_error e))).

(** Lines 71-139; the search through the page is [legacy_scrape]. *)
Definition get_video_url (w : World) (page_url : string) : M (value * string) :=
  try_except_class RequestException
    (do response <- session_get w LegacySession page_url 15;
     run raise_for_status response;
     lift (legacy_scrape w (resp_text response)))
    (fun e => raise (Exn RuntimeError ("Failed to fetch page: " ++ str_of_error e))).

(** Lines 148-180. *)
Definition download_video (w : World) (video_url : value) (output_path : string) : M string :=
  try_except_class RequestException
    (download_video w LegacySession video_url output_path (Some "https://www.xiaohongshu.com/"))
    (fun e => raise (Exn RuntimeError ("Failed to download video: " ++ str_of_error e))).

(** Lines 206-212: avoid overwriting. *)
Definition avoid_overwriting (output_path : string) : M string :=
  let counter := 1%N in
  let base_path := output_path in
  let '(name, ext) := OsPath.splitext base_path in
  fun fs => unique_loop (2 + size fs) name ext output_path counter fs.

(** Lines 182-214. *)
Definition download_from_screenshot (w : World) (screenshot_path : string)
    (output_dir : option string) : M string :=
  (* Step 1: Read QR code *)
  do qr_url <- read_qrcode w screenshot_path;
  (* Step 2: Resolve short URL if needed *)
  do page_url <-
    (if PyStr.contains "xhslink.com" qr_url || (String.length qr_url <? 50)%nat
     then resolve_short_url w qr_url
     else ret qr_url);
  (* Step 3: Get video URL *)
  do '(video_url, title) <- get_video_url w page_url;
  (* Step 4: Download video *)
  let output_dir :=
    match output_dir with
    | None => OsPath.dirname (os_abspath w screenshot_path)
    | Some d => d
    end in
  let output_path := OsPath.join output_dir (title ++ ".mp4") in
  do output_path <- avoid_overwriting output_path;
  download_video w video_url output_path.

(** Lines 54-69.  The patterns are a marker followed by a run of letters
    and digits, [[a-zA-Z0-9]+], which is the group. *)
Definition is_alnum (c : ascii) : bool :=
  let n := N_of_ascii c in
  PyStr.between 48 57 n || PyStr.between 65 90 n || PyStr.between 97 122 n.

Definition after_marker (marker : string) (s : string) : option string :=
  s ← PyStr.after_prefix marker s;
  let '(note_id, _) := PyStr.span is_alnum s in
  if PyStr.nonempty note_id then Some note_id else None.

Definition note_markers : list string :=
  ["/explore/"; "/discovery/item/"; "/item/"; "xhslink.com/"].

Fixpoint first_marker (markers : list string) (url : string) : option string :=
  match markers with
  | [] => None
  | marker :: markers' =>
      match Re.search (after_marker marker) url with
      | Some note_id => Some note_id
      | None => first_marker markers' url
      end
  end.

Definition extract_note_id (url : string) : result string :=
  match first_marker note_markers url with
  | Some note_id => Ok note_id
  | None => Err (Exn ValueError ("Could not extract note ID from URL: " ++ url))
  end.

(** Lines 141-146. *)
Definition _sanitize_filename (filename : string) : string :=
  let filename := Re.sub_empty Re.match_invalid 0 filename in
  let filename := PyStr.take 50 (PyStr.strip filename) in
  if PyStr.nonempty filename then filename else "xhs_video".

(** Lines 217-261: [main] after [parse_args].  The exit status is 1 when
    an exception reached [main], and 0 otherwise. *)
Record args := {
  screenshot : string;
  output : option string;
  url : bool;
}.

Definition main (w : World) (a : args) : M unit :=
  if url a then
    (* Direct URL mode *)
    do page_url <-
      (if PyStr.contains "xhslink.com" (screenshot a)
       then resolve_short_url w (screenshot a)
       else ret (screenshot a));
    do '(video_url, title) <- get_video_url w page_url;
    let output_dir :=
      match output a with
      | Some (String c d) => String c d
      | _ => os_getcwd w
      end in
    let output_path := OsPath.join output_dir (title ++ ".mp4") in
    run download_video w video_url output_path;
    ret tt
  else
    (* Screenshot mode *)
    run download_from_screenshot w (screenshot a) (output a);
    ret tt.

Definition exit_status (o : outcome unit) : Z := if is_ok (value_of o) then 0 else 1.

End Legacy.

(** ** Sample worlds, used to run the model on concrete inputs *)

Module Sample.

Import PyVal.

Definition offline : error := Exn RequestException "connection refused".

(** A world in which nothing is found and every request fails. *)
Definition silent : World := {|
  pil_open := fun _ => None;
  pyzbar_decode := fun _ => [];
  cv_readable := fun _ => true;
  cv_shape := fun _ => (800, 600)%Z;
  cv_detect := fun _ => (EmptyString, None);
  cv_resize_error := "(-215:Assertion failed) !ssize.empty() in function 'resize'";
  http_get := fun _ _ _ => Err offline;
  http_stream := fun _ _ _ _ => Completed;
  ydl_extract_info := fun _ _ => Err (Exn ForeignError "Unsupported URL");
  os_abspath := fun p => "/home/user/" ++ p;
  os_getcwd := "/home/user";
  unicode_escape := fun s => Ok s;
  repr_other := fun _ => "<object>";
  legacy_scrape := fun _ => Err NoXhsVideoUrl;
|}.

(** [silent] with a barcode reader, a detector and a web. *)
Definition world (reader : pil_image -> list qr_data)
    (detector : cv_image -> string * option (list quad))
    (web : session -> string -> Z -> result response)
    (engine : string -> gmap string value -> result value) : World := {|
  pil_open := fun _ => None;
  pyzbar_decode := reader;
  cv_readable := fun _ => true;
  cv_shape := fun _ => (800, 600)%Z;
  cv_detect := detector;
  cv_resize_error := "(-215:Assertion failed) !ssize.empty() in function 'resize'";
  http_get := web;
  http_stream := fun _ _ _ _ => Completed;
  ydl_extract_info := engine;
  os_abspath := fun p => "/home/user/" ++ p;
  os_getcwd := "/home/user";
  unicode_escape := fun s => Ok s;
  repr_other := fun _ => "<object>";
  legacy_scrape := fun _ => Ok (VStr "https://cdn.example/v.mp4", "My Trip");
|}.

Definition no_detector : cv_image -> string * option (list quad) :=
  fun _ => (EmptyString, None).
Definition no_web : session -> string -> Z -> result response :=
  fun _ _ _ => Err offline.
Definition no_engine : string -> gmap string value -> result value :=
  fun _ _ => Err (Exn ForeignError "Unsupported URL").

(** A reader that finds [payload] in the screenshot as it is. *)
Definition reads (payload : string) : pil_image -> list qr_data :=
  fun i => match i with ImageOpen _ => [Utf8 payload] | FromArray _ => [] end.

(** A web that answers every request with the same page or document. *)
Definition page (html : string) : response := {|
  resp_url := "https://www.xiaohongshu.com/explore/66aa00bb11cc22dd33ee44ff";
  resp_status := None;
  resp_text := html;
  resp_json := Err (Exn JSONDecodeError "Expecting value");
|}.
Definition document (data : value) : response := {|
  resp_url := "https://m.weibo.cn/statuses/show";
  resp_status := None;
  resp_text := EmptyString;
  resp_json := Ok data;
|}.
Definition serves (r : response) : session -> string -> Z -> result response :=
  fun _ _ _ => Ok r.

(** The page of the end-to-end scenario: a [masterUrl] and a [title]. *)
Definition trip_html : string :=
  "{" ++ Pattern.quoted "masterUrl" ++ ":" ++ Pattern.quoted "https://cdn.example/v.mp4"
  ++ "," ++ Pattern.quoted "title" ++ ":" ++ Pattern.quoted "My Trip" ++ "}".

(** A short payload without a short-link domain (41 characters). *)
Definition short_payload : string := "https://www.xiaohongshu.com/explore/66aa0".

Definition short_world : World :=
  world (reads short_payload) no_detector (serves (page trip_html)) no_engine.

(** A world in which the code shows only in the bottom of the screenshot,
    three times larger. *)
Definition faint_reader : pil_image -> list qr_data :=
  fun i =>
    match i with
    | FromArray (BGR2RGB (Resize 3 (Bottom _))) => [Utf8 short_payload]
    | _ => []
    end.
Definition faint_world : World :=
  world faint_reader no_detector (serves (page trip_html)) no_engine.

(** [silent], with images that PIL opens and OpenCV cannot read. *)
Definition pil_only : World := {|
  pil_open := pil_open silent;
  pyzbar_decode := pyzbar_decode silent;
  cv_readable := fun _ => false;
  cv_shape := cv_shape silent;
  cv_detect := cv_detect silent;
  cv_resize_error := cv_resize_error silent;
  http_get := http_get silent;
  http_stream := http_stream silent;
  ydl_extract_info := ydl_extract_info silent;
  os_abspath := os_abspath silent;
  os_getcwd := os_getcwd silent;
  unicode_escape := unicode_escape silent;
  repr_other := repr_other silent;
  legacy_scrape := legacy_scrape silent;
|}.



(** Weibo API documents. *)
Definition weibo_url : string := "https://weibo.com/123456/4567890123456789".



(** A video post whose [urls] is [null] and whose legacy field holds a
    stream URL. *)
Definition null_urls_status : value :=
  dict [("ok", VInt 1);
        ("data", dict [("text", VStr "sunset");
                       ("page_info",
                        dict [("type", VStr "video"); ("urls", VNone);
                              ("media_info",
                               dict [("stream_url", VStr "https://f.video.weibocdn.com/s.mp4")])])])].

Definition article_status : value :=
  dict [("ok", VInt 1);
        ("data", dict [("text", VStr "a long read");
                       ("page_info", dict [("type", VStr "article")])])].

(** A refused request: the success flag is 0 and the page info, were it
    looked at, is not that of a video. *)
Definition refused_status : value :=
  dict [("ok", VInt 0); ("msg", VStr "login first");
        ("data", dict [("page_info", dict [("type", VStr "article")])])].

Definition weibo_world (data : value) : World :=
  world (reads weibo_url) no_detector (serves (document data)) no_engine.

(** An extraction engine that asks for cookies first. *)
Definition info : value :=
  dict [("id", VStr "Cxyz"); ("channel", VStr "someone"); ("description", VStr "");
        ("formats", VList [dict [("ext", VStr "mp4"); ("acodec", VStr "none");
                                 ("vcodec", VStr "avc1"); ("url", VStr "https://cdn.ig/video-only.mp4")];
                           dict [("ext", VStr "mp4"); ("acodec", VStr "mp4a");
                                 ("vcodec", VStr "avc1"); ("url", VStr "https://cdn.ig/muxed.mp4")]])].

Definition wary_engine : string -> gmap string value -> result value :=
  fun _ opts =>
    match opts !! "cookiefile", opts !! "cookiesfrombrowser" with
    | None, None => Err (Exn ForeignError "ERROR: [Instagram] Cxyz: Rate-limit reached, login required")
    | _, _ => Ok info
    end.

Definition instagram_url : string := "https://www.instagram.com/reel/Cxyz/".

Definition instagram_world : World :=
  world (reads instagram_url) no_detector no_web wary_engine.

Definition nobody : InstagramDownloader.t :=
  {| InstagramDownloader.cookies_from_browser := None;
     InstagramDownloader.cookies_file := None |}.

(** A file name whose first 50 characters end in a space. *)
Definition spaced : string :=
  "aaaaaaaaaaaaaaaaaaaaaaaaaaaaaaaaaaaaaaaaaaaaaaaaa b".

(** Two screenshots handed to the batch mode. *)
Definition two_shots : Cli.args :=
  {| Cli.input := ["shot.png"; "missing.png"]; Cli.output := Some "/out"; Cli.url := false;
     Cli.batch := true; Cli.cookies_from_browser := None; Cli.cookies := None |}.

(** The legacy script in URL mode, asked for a video whose file is there
    already. *)
Definition again : Legacy.args :=
  {| Legacy.screenshot := short_payload; Legacy.output := Some "/out"; Legacy.url := true |}.

End Sample.

(** ** The words of the specification

    Definitions that follow the specification rather than the code; the
    properties below compare the code with them. *)

Module Spec.

(** The characters a file name must not hold: the punctuation marks
    less-than, greater-than, colon, double quote, slash, backslash, bar,
    question mark and star, and the two newline characters. *)
Definition forbidden : list ascii :=
  ["<"; ">"; ":"; PyStr.dquote; "/"; "\"; "|"; "?"; "*"; PyStr.LF; PyStr.CR]%char.

Definition valid_char (c : ascii) : bool := negb (existsb (Ascii.eqb c) forbidden).

(** An already-clean short string: no forbidden character, at most 50
    characters, no surrounding white space. *)
Definition clean_short (s : string) : bool :=
  PyStr.all_chars valid_char s
  && (String.length s <=? 50)%nat
  && PyStr.no_surrounding_space s.

(** What is left of a title once tags, forbidden characters and
    surrounding white space are removed. *)
Definition cleaned (s : string) : string :=
  PyStr.strip (Re.sub_empty Re.match_invalid 0 (Re.sub_empty Re.match_tag 0 s)).

(** The table of the classifier: domain fragment and tag, in the order of
    the tests. *)
Definition platform_table : list (string * platform) :=
  [("weibo.com", Weibo); ("weibo.cn", Weibo);
   ("xiaohongshu.com", Xiaohongshu); ("xhslink.com", Xiaohongshu);
   ("instagram.com", Instagram)].

(** [fragment] occurs in [url] in some mix of upper and lower case. *)
Definition occurs_ignoring_case (fragment url : string) : Prop :=
  ∃ v, PyStr.lower v = fragment ∧ PyStr.contains v url = true.

(** First match wins; no match is [UnknownPlatform]. *)
Definition classify (url : string) : result platform :=
  match find (fun entry => PyStr.contains entry.1 (PyStr.lower url)) platform_table with
  | Some (_, tag) => Ok tag
  | None => Err (UnknownPlatform url)
  end.

(** The tag of a classification, without the message of a failure. *)
Definition tag_of (r : result platform) : option platform :=
  match r with Ok tag => Some tag | Err _ => None end.

(** A credential that was supplied: a string that is not empty. *)
Definition supplied (x : option string) : option string :=
  match x with
  | Some (String c s) => Some (String c s)
  | _ => None
  end.

(** The credential material of the options handed to the extraction
    engine: the cookie file and the browser profile. *)
Definition credentials (opts : gmap string value) : option value * option value :=
  (opts !! "cookiefile", opts !! "cookiesfrombrowser").

(** The paths tried after the requested one: [n] of them, numbered from
    [counter] upwards. *)
Fixpoint numbered_from (base ext : string) (counter : N) (n : nat) : list string :=
  match n with
  | O => []
  | S n' => numbered base ext counter :: numbered_from base ext (counter + 1) n'
  end.

(** The field [key] of an object; [None] when the object has no such
    field, and when [container] is not an object at all. *)
Definition field (container : value) (key : string) : value :=
  match container with
  | VDict d => default VNone (d !! key)
  | _ => VNone
  end.

(** The field [key] of [container] is an object, or [container] is an
    object without that field. *)
Definition object_or_absent (container : value) (key : string) : bool :=
  match container with
  | VDict d =>
      match d !! key with
      | None | Some (VDict _) => true
      | Some _ => false
      end
  | _ => false
  end.

(** The parts of a Weibo API document. *)
Definition status_of (data : value) : value := field data "data".
Definition page_info_of (data : value) : value := field (status_of data) "page_info".

(** The document is an object, and so are its fields [data] and
    [data.page_info] where they are present. *)
Definition objects_to_page_info (data : value) : bool :=
  match data with
  | VDict d =>
      match d !! "data" with
      | None => true
      | Some status => object_or_absent status "page_info"
      end
  | _ => false
  end.

(** The API flags the request as successful. *)
Definition flagged_ok (data : value) : bool := PyVal.eq_one (field data "ok").

(** The post is a video post. *)
Definition is_video (data : value) : bool :=
  PyVal.eq_str (field (page_info_of data) "type") "video".

(** The parsed document the status API answers with for a post URL, when
    the URL holds a status id, the request succeeds and the body is JSON. *)
Definition weibo_answer (w : World) (url : string) : option value :=
  match WeiboDownloader.extract_status_id url with
  | Ok status_id =>
      match http_get w WeiboSession (WeiboDownloader.api_url status_id) 15 with
      | Ok response =>
          match resp_status response, resp_json response with
          | None, Ok data => Some data
          | _, _ => None
          end
      | Err _ => None
      end
  | Err _ => None
  end.

(** The encoded variants of a video, most preferred first: 720p MP4, HD
    MP4, standard-definition MP4. *)
Definition weibo_variants (page_info : value) : list value :=
  let urls := field page_info "urls" in
  [field urls "mp4_720p_mp4"; field urls "mp4_hd_mp4"; field urls "mp4_ld_mp4"].

(** The legacy streaming URLs, HD before standard. *)
Definition weibo_streams (page_info : value) : list value :=
  let media_info := field page_info "media_info" in
  [field media_info "stream_url_hd"; field media_info "stream_url"].

(** The candidates for the media URL, most preferred first: the variants,
    then the legacy streams. *)
Definition weibo_candidates (page_info : value) : list value :=
  (weibo_variants page_info ++ weibo_streams page_info)%list.

(** The first candidate that yields a URL. *)
Definition preferred (page_info : value) : option value :=
  find PyVal.truthy (weibo_candidates page_info).

(** The bounding box of a located code, padded by 50 pixels and clamped
    to the image. *)
Definition padded_crop (w : World) (image_path : string) (q : quad) : cv_image :=
  let '((x1, y1), (x2, y2), (x3, y3), (x4, y4)) := q in
  let '(height, width) := cv_shape w image_path in
  let left := Z.max 0 (Z.min (Z.min x1 x2) (Z.min x3 x4) - 50) in
  let top := Z.max 0 (Z.min (Z.min y1 y2) (Z.min y3 y4) - 50) in
  let right := Z.min width (Z.max (Z.max x1 x2) (Z.max x3 x4) + 50) in
  let bottom := Z.min height (Z.max (Z.max y1 y2) (Z.max y3 y4) + 50) in
  Slice top bottom left right (Imread image_path).


(** The seven stages of the QR decoder, each as the attempts it consists
    of. *)
Section stages.

Context (w : World) (image_path : string).

Let img : cv_image := Imread image_path.

(** 1: the image as it is, with the barcode reader. *)
Definition stage1 : list event := [Decode (ImageOpen image_path)].

(** 2: the dedicated detector. *)
Definition stage2 : list event := [Detect img].

(** 3: if the detector located a code: the region, padded by 50 pixels and
    clamped to the image, three times larger. *)
Definition stage3 : list event :=
  match (cv_detect w img).2 with
  | Some (q :: _) => [Decode (FromArray (BGR2RGB (Resize 3 (padded_crop w image_path q))))]
  | _ => []
  end.

(** 4: the bottom 40 percent, two, three and four times larger. *)
Definition stage4 : list event :=
  (fun scale => Decode (FromArray (BGR2RGB (Resize scale (Bottom img))))) <$> [2; 3; 4]%Z.

(** 5: grayscale with adaptive contrast, two and three times larger. *)
Definition stage5 : list event :=
  (fun scale => Decode (FromArray (Resize scale (CLAHE (BGR2GRAY img))))) <$> [2; 3]%Z.

(** 6: automatic binary threshold, two times larger, once. *)
Definition stage6 : list event := [Decode (FromArray (Resize 2 (Otsu (BGR2GRAY img))))].

(** 7: the whole image, two and three times larger. *)
Definition stage7 : list event :=
  (fun scale => Decode (FromArray (BGR2RGB (Resize scale img)))) <$> [2; 3]%Z.

(** The stages in order. *)
Definition qr_plan : list event :=
  (stage1 ++ stage2 ++ stage3 ++ stage4 ++ stage5 ++ stage6 ++ stage7)%list.

End stages.

(** The calls that are decoding attempts. *)
Definition is_attempt (e : event) : bool :=
  match e with
  | Decode _ | Detect _ => true
  | _ => false
  end.

Definition attempts (l : list event) : list event := filter (fun e => is_attempt e = true) l.

(** What an attempt produces: the first symbol the reader finds, the text
    the detector decodes; nothing when the reader finds no symbol and when
    the detector's text is empty. *)
Definition produces (w : World) (e : event) : option qr_data :=
  match e with
  | Decode i => head (pyzbar_decode w i)
  | Detect i =>
      if PyStr.nonempty (cv_detect w i).1 then Some (Utf8 (cv_detect w i).1) else None
  | _ => None
  end.

(** The attempts of a plan up to and including the first that produces
    something. *)
Fixpoint cascade (w : World) (plan : list event) : list event :=
  match plan with
  | [] => []
  | a :: plan' =>
      match produces w a with
      | Some _ => [a]
      | None => a :: cascade w plan'
      end
  end.

(** What the decoder answers after a cascade: the text of the symbol the
    last attempt produced, or [NoQrFound] when it produced nothing. *)
Definition verdict (found : option qr_data) : result string :=
  match found with
  | Some (Utf8 text) => Ok text
  | Some NotUtf8 => Err (Exn UnicodeDecodeError "invalid utf-8")
  | None => Err NoQrFound
  end.

(** A computation follows a plan when it makes the attempts of the plan up
    to the first that produces something, and answers with that. *)
Definition follows (w : World) (c : M string) (plan : list event) : Prop :=
  ∀ fs, c fs = Outcome (cascade w plan) fs (verdict (last (cascade w plan) ≫= produces w)).

(** A request made to resolve a redirect: both scripts make these from
    [resolve_short_url] only, with a time limit of 10 seconds. *)
Definition resolution_request (e : event) : option string :=
  match e with
  | Get _ url 10%Z => Some url
  | _ => None
  end.

(** The URLs a run asked to have resolved. *)
Definition resolution_requests (l : list event) : list string := omap resolution_request l.

(** An outcome reached without asking for any redirect resolution. *)
Definition quiet {A} (o : outcome A) : Prop := resolution_requests (trace o) = [].


(** A call to the outside world that fails, that is, raises. *)
Definition failed_call (w : World) (e : event) : bool :=
  match e with
  | Open p => match pil_open w p with Some _ => true | None => false end
  | Read p => negb (cv_readable w p)
  | Get s url timeout => negb (is_ok (http_get w s url timeout))
  | Stream s url referer p =>
      match http_stream w s url referer p with Completed => false | _ => true end
  | Extract url opts => negb (is_ok (ydl_extract_info w url opts))
  | Exists _ | Decode _ | Detect _ => false
  end.




(** No call of [l] fails without being excused. *)
Definition calm (w : World) (excused : event -> bool) (l : list event) : bool :=
  forallb (fun e => negb (failed_call w e) || excused e) l.

(** An outcome after which nothing may be attempted again: no call
    failed, or the last one did and the outcome is that failure. *)
Definition tidy {A} (w : World) (excused : event -> bool) (o : outcome A) : Prop :=
  calm w excused (trace o) = true
  ∨ ∃ l e err, trace o = (l ++ [e])%list ∧ calm w excused l = true ∧ value_of o = Err err.

(** The next character of [s] is one of the class [f]: what a greedy run
    of [f] would go on with. *)
Definition goes_on_with (f : ascii -> bool) (s : string) : bool :=
  match PyStr.head s with
  | Some c => f c
  | None => false
  end.

(** A title fit for a file name: not empty, at most 50 characters, none
    of them forbidden. *)
Definition safe_title (t : string) : bool :=
  PyStr.nonempty t && PyStr.all_chars valid_char t && (String.length t <=? 50)%nat.

Definition is_object (v : value) : bool :=
  match v with VDict _ => true | _ => false end.

(** A format that has both picture and sound in an MP4 container. *)
Definition progressive (fmt : value) : bool :=
  PyVal.eq_str (field fmt "ext") "mp4"
  && negb (PyVal.eq_str (field fmt "acodec") "none")
  && negb (PyVal.eq_str (field fmt "vcodec") "none").

(** The media URL of an Instagram post: the URL of the first progressive
    format, or else the URL of the post itself. *)
Definition instagram_choice (info : value) (formats : list value) : value :=
  PyVal.or_else
    (from_option (fun fmt => field fmt "url") VNone (find progressive formats))
    (field info "url").

(** The paths a run transferred something to. *)
Definition transfer_target (e : event) : option string :=
  match e with
  | Stream _ _ _ output_path => Some output_path
  | _ => None
  end.

Definition transfers (l : list event) : list string := omap transfer_target l.

(** A computation that leaves the files as they are and transfers
    nothing, and whose result, when there is one, satisfies [post]. *)
Definition reads_only {A} (c : M A) (post : A -> Prop) : Prop :=
  ∀ fs, files (c fs) = fs
        ∧ transfers (trace (c fs)) = []
        ∧ ∀ a, value_of (c fs) = Ok a → post a.

(** What a download may do: transfer nothing and fail with the files as
    they were; or make one transfer, to a path that did not exist, after
    which that path is the only one that may have come to exist, and it
    is the path returned when the download succeeds. *)
Definition careful {A} (path_of : A -> string) (fs : gset string) (o : outcome A) : Prop :=
  (transfers (trace o) = [] ∧ files o = fs ∧ is_ok (value_of o) = false)
  ∨ ∃ p, (p ∉ fs) ∧ transfers (trace o) = [p]
      ∧ (match value_of o with
         | Ok a => path_of a = p ∧ files o = {[p]} ∪ fs
         | Err _ => files o = fs ∨ files o = {[p]} ∪ fs
         end).

(** The arguments [a] with the flag [-u] set to [flag]. *)
Definition with_url (a : Cli.args) (flag : bool) : Cli.args :=
  {| Cli.input := Cli.input a; Cli.output := Cli.output a; Cli.url := flag;
     Cli.batch := Cli.batch a; Cli.cookies_from_browser := Cli.cookies_from_browser a;
     Cli.cookies := Cli.cookies a |}.

Definition is_pause (s : Cli.step) : bool :=
  match s with Cli.Sleep => true | Cli.Call _ => false end.

(** A run whose last step is a pause. *)
Definition ends_on_pause (l : list Cli.step) : bool :=
  match last l with
  | Some s => is_pause s
  | None => false
  end.

(** The pauses of a run. *)
Definition pauses (l : list Cli.step) : nat :=
  length (filter (fun s => is_pause s = true) l).

(** The exception a handler [except cls as e: raise f(e)] lets out when
    [e] was raised. *)
Definition reraised (cls : exn_class) (f : error -> error) (e : error) : error :=
  match exn_class_of e, cls with
  | RequestException, RequestException => f e
  | JSONDecodeError, JSONDecodeError => f e
  | _, _ => e
  end.

(** The paths a run tested for existence. *)
Definition existence_test (e : event) : option string :=
  match e with
  | Exists p => Some p
  | _ => None
  end.

Definition existence_tests (l : list event) : list string := omap existence_test l.

(** The front of a joined path: empty, or ending in a slash. *)
Definition is_front (front : string) : Prop :=
  front = EmptyString ∨ ∃ x, front = x ++ "/".

(** The messages after which the Instagram locator tries again. *)
Definition retry_keywords : list string :=
  ["rate-limit"; "login required"; "requested content is not available"].









(** A title that, joined to a directory, stays under it: not empty, and
    not starting with a slash. *)
Definition proper_title (t : string) : bool :=
  PyStr.nonempty t && negb (PyStr.startswith "/" t).

End Spec.

(** ** Proof automation *)


(** * Properties *)

Example sample_status_id_com :
  WeiboDownloader.extract_status_id "https://weibo.com/123456/4567890123456789"
  = Ok "4567890123456789".
Proof. reflexivity. Qed.

Example sample_status_id_cn :
  WeiboDownloader.extract_status_id "https://m.weibo.cn/status/4567890123456789"
  = Ok "4567890123456789".
Proof. reflexivity. Qed.

Example sample_xhs_end_to_end :
  let o := download_from_url Sample.short_world Sample.short_payload (Some "/out") None None ∅ in
  value_of o = Ok "/out/My Trip.mp4"
  ∧ trace o = [Get XhsSession Sample.short_payload 15;
               Exists "/out/My Trip.mp4";
               Stream XhsSession (VStr "https://cdn.example/v.mp4")
                 (Some "https://www.xiaohongshu.com/") "/out/My Trip.mp4"].
Proof. vm_compute. split; reflexivity. Qed.

(** ** Strings *)

Section string_lemmas.

Import PyStr.

Lemma all_chars_take f n s : all_chars f s = true → all_chars f (take n s) = true.
Proof.
  revert s; induction n as [|n IH]; intros [|c s]; simpl; auto.
  intros [Hc Hs]%andb_prop. by rewrite Hc, IH.
Qed.

Lemma all_chars_lstrip f g s : all_chars f s = true → all_chars f (lstrip_by g s) = true.
Proof.
  induction s as [|c s IH]; simpl; auto.
  intros H. destruct (g c); [|done].
  apply andb_prop in H as [_ H]. auto.
Qed.

Lemma all_chars_rstrip f g s : all_chars f s = true → all_chars f (rstrip_by g s) = true.
Proof.
  induction s as [|c s IH]; simpl; auto.
  intros [Hc Hs]%andb_prop. specialize (IH Hs).
  destruct (rstrip_by g s) as [|d r].
  - destruct (g c); simpl; [done|]. by rewrite Hc.
  - simpl in *. by rewrite Hc, IH.
Qed.

Lemma length_take n s : (String.length (take n s) ≤ n)%nat.
Proof.
  revert s; induction n as [|n IH]; intros [|c s]; simpl; try lia.
  specialize (IH s). lia.
Qed.

Lemma take_all n s : (String.length s ≤ n)%nat → take n s = s.
Proof.
  revert s; induction n as [|n IH]; intros [|c s]; simpl; try done; try lia.
  intros H. f_equal. apply IH. lia.
Qed.

Lemma lstrip_id f s : (match head s with Some c => f c | None => false end) = false →
  lstrip_by f s = s.
Proof. destruct s as [|c s]; simpl; [done|]. by intros ->. Qed.

Lemma rstrip_id f s : (match last s with Some c => f c | None => false end) = false →
  rstrip_by f s = s.
Proof.
  induction s as [|c s IH]; simpl; [done|].
  destruct s as [|d s].
  - simpl. by intros ->.
  - intros H. rewrite (IH H). done.
Qed.

Lemma head_take n s : head (take (S n) s) = head s.
Proof. by destruct s. Qed.

Lemma head_rstrip f s : rstrip_by f s = EmptyString ∨ head (rstrip_by f s) = head s.
Proof.
  destruct s as [|c s]; simpl; [by left|].
  destruct (rstrip_by f s); [destruct (f c)|]; auto.
Qed.

Lemma head_lstrip f s : (match head (lstrip_by f s) with Some c => f c | None => false end) = false.
Proof.
  induction s as [|c s IH]; simpl; [done|].
  destruct (f c) eqn:E; [done|]. simpl. done.
Qed.

Lemma head_strip s : is_space_opt (head (strip s)) = false.
Proof.
  unfold strip. destruct (head_rstrip is_space (lstrip_by is_space s)) as [->| ->]; [done|].
  apply head_lstrip.
Qed.

Lemma strip_id s : no_surrounding_space s = true → strip s = s.
Proof.
  unfold no_surrounding_space, strip. intros [H1 H2]%andb_prop.
  apply negb_true_iff in H1, H2.
  rewrite lstrip_id by exact H1. apply rstrip_id. exact H2.
Qed.

Lemma str_app_cons c s t : String c s ++ t = String c (s ++ t).
Proof. reflexivity. Qed.

Lemma str_app_nil_l s : EmptyString ++ s = s.
Proof. reflexivity. Qed.

Lemma str_length_app s t : String.length (s ++ t) = (String.length s + String.length t)%nat.
Proof. induction s as [|c s IH]; [done|]. rewrite str_app_cons. simpl. by rewrite IH. Qed.

Lemma str_app_nil_r s : s ++ EmptyString = s.
Proof. induction s as [|c s IH]; [done|]. by rewrite str_app_cons, IH. Qed.

Lemma str_app_assoc s t u : (s ++ t) ++ u = s ++ t ++ u.
Proof. induction s as [|c s IH]; [done|]. by rewrite !str_app_cons, IH. Qed.

(** Cancellation on the right. *)
Lemma str_app_inv_tail s t u : s ++ u = t ++ u → s = t.
Proof.
  revert t; induction s as [|c s IH]; intros [|d t]; rewrite ?str_app_cons; intros H; try done.
  - apply (f_equal String.length) in H. simpl in H. rewrite !str_length_app in H. simpl in H. lia.
  - apply (f_equal String.length) in H. simpl in H. rewrite !str_length_app in H. simpl in H. lia.
  - injection H as -> H. f_equal. by apply IH.
Qed.

Lemma nonempty_true s : nonempty s = true ↔ s ≠ EmptyString.
Proof. destruct s; simpl; split; congruence. Qed.

End string_lemmas.

(** ** Substitution *)

Section sub_lemmas.

Import PyStr.

Lemma valid_char_invalid c : Spec.valid_char c = negb (Re.invalid_char c).
Proof. by destruct c as [[] [] [] [] [] [] [] []]. Qed.

Lemma valid_char_forbidden c : Spec.valid_char c = true ↔ c ∉ Spec.forbidden.
Proof.
  unfold Spec.valid_char. rewrite negb_true_iff, <- not_true_iff_false, existsb_exists.
  split.
  - intros H Hin. apply H. exists c. split; [by apply list_elem_of_In|apply Ascii.eqb_refl].
  - intros H (d & Hin & Heq). apply Ascii.eqb_eq in Heq as <-. by apply H, list_elem_of_In.
Qed.

Lemma all_chars_mem f s c : all_chars f s = true → mem c s = true → f c = true.
Proof.
  induction s as [|d s IH]; simpl; [done|].
  intros [Hd Hs]%andb_prop [Heq|Hm]%orb_prop; [|auto].
  by apply Ascii.eqb_eq in Heq as ->.
Qed.

Lemma sub_invalid_valid k s :
  all_chars Spec.valid_char (Re.sub_empty Re.match_invalid k s) = true.
Proof.
  revert k; induction s as [|c s IH]; intros k; simpl; [done|].
  destruct k as [|k]; [|apply IH].
  destruct (Re.invalid_char c) eqn:E; simpl.
  - apply IH.
  - rewrite valid_char_invalid, E. simpl. apply IH.
Qed.

Lemma valid_not_lt c : Spec.valid_char c = true → Ascii.eqb c "<" = false.
Proof.
  rewrite valid_char_invalid. unfold Re.invalid_char. simpl.
  destruct (Ascii.eqb c "<"); simpl; [discriminate|done].
Qed.

Lemma match_tag_valid s : all_chars Spec.valid_char s = true → Re.match_tag s = None.
Proof.
  destruct s as [|c s]; [done|]. simpl. intros [Hc _]%andb_prop.
  apply valid_not_lt in Hc. apply Ascii.eqb_neq in Hc.
  unfold Re.match_tag. destruct c as [[] [] [] [] [] [] [] []]; try done.
Qed.

Lemma sub_tag_id s : all_chars Spec.valid_char s = true → Re.sub_empty Re.match_tag 0 s = s.
Proof.
  induction s as [|c s IH]; [done|].
  intros H. change (Re.sub_empty Re.match_tag 0 (String c s))
    with (match Re.match_tag (String c s) with
          | Some (S k) => Re.sub_empty Re.match_tag k s
          | _ => String c (Re.sub_empty Re.match_tag 0 s)
          end).
  rewrite (match_tag_valid _ H). simpl in H. apply andb_prop in H as [_ H].
  by rewrite IH.
Qed.

Lemma sub_invalid_id s :
  all_chars Spec.valid_char s = true → Re.sub_empty Re.match_invalid 0 s = s.
Proof.
  induction s as [|c s IH]; [done|]. simpl. intros [Hc Hs]%andb_prop.
  rewrite valid_char_invalid in Hc. apply negb_true_iff in Hc. rewrite Hc.
  by rewrite IH.
Qed.

End sub_lemmas.

(** ** [sanitize_filename] *)

Section sanitize.

Import PyStr.

Lemma sanitize_unfold s :
  sanitize_filename s =
  if nonempty (take 50 (Spec.cleaned s)) then take 50 (Spec.cleaned s) else "video".
Proof. reflexivity. Qed.

Lemma sanitize_valid s : all_chars Spec.valid_char (sanitize_filename s) = true.
Proof.
  rewrite sanitize_unfold. destruct (nonempty _); [|done].
  apply all_chars_take. unfold Spec.cleaned, strip.
  apply all_chars_rstrip, all_chars_lstrip, sub_invalid_valid.
Qed.

Lemma sanitize_length s : (String.length (sanitize_filename s) ≤ 50)%nat.
Proof.
  rewrite sanitize_unfold. destruct (nonempty _); [apply length_take|simpl; lia].
Qed.

Lemma sanitize_nonempty s : nonempty (sanitize_filename s) = true.
Proof.
  rewrite sanitize_unfold.
  by destruct (nonempty (take 50 (Spec.cleaned s))) eqn:E.
Qed.

Lemma sanitize_head s : is_space_opt (head (sanitize_filename s)) = false.
Proof.
  rewrite sanitize_unfold. destruct (nonempty _); [|done].
  change 50 with (S 49). rewrite head_take. apply head_strip.
Qed.

Lemma sanitize_clean s :
  Spec.clean_short s = true → s ≠ EmptyString → sanitize_filename s = s.
Proof.
  unfold Spec.clean_short. intros [[Hv Hl]%andb_prop Hs]%andb_prop Hne.
  rewrite sanitize_unfold. unfold Spec.cleaned.
  rewrite (sub_tag_id _ Hv), (sub_invalid_id _ Hv), (strip_id _ Hs).
  rewrite take_all by (by apply Nat.leb_le).
  by destruct s.
Qed.

End sanitize.

(** C5, as the code has it: for every input string the output of
    [sanitize_filename] holds none of the forbidden characters (the nine
    punctuation marks and the two newline characters) and has at most 50
    characters; every already-clean short string that is not empty is
    returned unchanged; and sanitising twice gives the same as sanitising
    once whenever the first output does not end in white space. *)
Theorem sanitize_filename_clean_and_bounded (s : string) :
  (∀ c, PyStr.mem c (sanitize_filename s) = true → c ∉ Spec.forbidden)
  ∧ (String.length (sanitize_filename s) ≤ 50)%nat
  ∧ (Spec.clean_short s = true → s ≠ EmptyString → sanitize_filename s = s)
  ∧ (PyStr.is_space_opt (PyStr.last (sanitize_filename s)) = false →
     sanitize_filename (sanitize_filename s) = sanitize_filename s).
Proof.
  split_and!.
  - intros c Hc. apply valid_char_forbidden.
    exact (all_chars_mem _ _ _ (sanitize_valid s) Hc).
  - apply sanitize_length.
  - apply sanitize_clean.
  - intros Hlast. apply sanitize_clean.
    + unfold Spec.clean_short, PyStr.no_surrounding_space.
      rewrite sanitize_valid, sanitize_head, Hlast. simpl.
      rewrite andb_true_r. apply Nat.leb_le, sanitize_length.
    + apply nonempty_true, sanitize_nonempty.
Qed.

Lemma sanitize_filename_clean_and_bounded_witness :
  sanitize_filename "My Trip" = "My Trip"
  ∧ sanitize_filename (sanitize_filename "<b>a:b</b> ") = sanitize_filename "<b>a:b</b> ".
Proof.
  split.
  - refine (proj1 (proj2 (proj2 (sanitize_filename_clean_and_bounded "My Trip"))) _ _);
      [reflexivity|discriminate].
  - refine (proj2 (proj2 (proj2 (sanitize_filename_clean_and_bounded "<b>a:b</b> "))) _).
    reflexivity.
Defined.

(** C5, as stated, fails twice.  The empty string is clean and short, and
    it is turned into the fallback name; and a name whose first 50
    characters end in a space is cut there, so that a second pass strips
    that space. *)
Lemma sanitize_filename_changes_clean_input :
  (Spec.clean_short EmptyString = true ∧ sanitize_filename EmptyString = "video")
  ∧ (sanitize_filename Sample.spaced
       = "aaaaaaaaaaaaaaaaaaaaaaaaaaaaaaaaaaaaaaaaaaaaaaaaa "
     ∧ sanitize_filename (sanitize_filename Sample.spaced)
       = "aaaaaaaaaaaaaaaaaaaaaaaaaaaaaaaaaaaaaaaaaaaaaaaaa").
Proof. repeat split. Qed.

(** C10: [sanitize_filename] never returns the empty string.  Its result is
    the first 50 characters of what is left after removing tags, forbidden
    characters and surrounding white space, and the fallback name [video]
    when nothing is left; so the file name built from it is never the
    bare extension. *)
Theorem sanitize_filename_never_empty (s : string) :
  PyStr.nonempty (sanitize_filename s) = true
  ∧ sanitize_filename s
    = (if PyStr.nonempty (Spec.cleaned s) then PyStr.take 50 (Spec.cleaned s) else "video")
  ∧ sanitize_filename s ++ ".mp4" ≠ ".mp4".
Proof.
  split_and!.
  - apply sanitize_nonempty.
  - rewrite sanitize_unfold. by destruct (Spec.cleaned s).
  - pose proof (sanitize_nonempty s) as H. intros Heq.
    apply (str_app_inv_tail _ EmptyString) in Heq. by rewrite Heq in H.
Qed.

(** ** [detect_platform] *)

Section classify.

Import PyStr.

Lemma startswith_lower p s : startswith p s = true → startswith (lower p) (lower s) = true.
Proof.
  revert s; induction p as [|a p IH]; intros [|b s]; simpl; try done.
  intros [Hab Hps]%andb_prop. apply Ascii.eqb_eq in Hab as ->.
  by rewrite Ascii.eqb_refl, IH.
Qed.

Lemma contains_lower p s : contains p s = true → contains (lower p) (lower s) = true.
Proof.
  induction s as [|b s IH]; simpl.
  - rewrite orb_false_r. intros H.
    pose proof (startswith_lower _ _ H) as H'. simpl in H'. by rewrite H'.
  - intros [H|H]%orb_prop.
    + pose proof (startswith_lower _ _ H) as H'. simpl in H'. by rewrite H'.
    + rewrite (IH H). apply orb_true_r.
Qed.

(** A match in the lower-cased string lies over a case variant of the
    fragment in the string itself. *)
Lemma startswith_lower_inv p s :
  startswith p (lower s) = true → ∃ v, lower v = p ∧ startswith v s = true.
Proof.
  revert s; induction p as [|a p IH]; intros s; simpl.
  - intros _. by exists EmptyString.
  - destruct s as [|b s]; simpl; [done|].
    intros [Hab Hps]%andb_prop. apply Ascii.eqb_eq in Hab as ->.
    destruct (IH _ Hps) as (v & <- & Hv).
    exists (String b v). simpl. by rewrite Ascii.eqb_refl, Hv.
Qed.

Lemma contains_lower_inv p s :
  contains p (lower s) = true → ∃ v, lower v = p ∧ contains v s = true.
Proof.
  induction s as [|b s IH]; simpl.
  - rewrite orb_false_r. intros H.
    destruct (startswith_lower_inv p EmptyString H) as (v & Hv & Hs).
    exists v. split; [done|]. simpl. by rewrite Hs.
  - intros [H|H]%orb_prop.
    + destruct (startswith_lower_inv p (String b s) H) as (v & Hv & Hs).
      exists v. split; [done|]. simpl. by rewrite Hs.
    + destruct (IH H) as (v & Hv & Hs). exists v. split; [done|].
      simpl. rewrite Hs. apply orb_true_r.
Qed.

Lemma contains_lower_iff p s :
  contains p (lower s) = true ↔ Spec.occurs_ignoring_case p s.
Proof.
  split; [apply contains_lower_inv|].
  intros (v & <- & Hv). by apply contains_lower.
Qed.

Lemma detect_platform_classify url : detect_platform url = Spec.classify url.
Proof.
  unfold detect_platform, Spec.classify, Spec.platform_table. simpl.
  destruct (contains "weibo.com" (lower url)); [done|].
  destruct (contains "weibo.cn" (lower url)); [done|].
  destruct (contains "xiaohongshu.com" (lower url)); [done|].
  destruct (contains "xhslink.com" (lower url)); [done|].
  by destruct (contains "instagram.com" (lower url)).
Qed.

End classify.

(** C4: [detect_platform] is the ordered table look-up of the
    specification: the fragments are tested on the lower-cased URL in the
    order weibo.com, weibo.cn, xiaohongshu.com, xhslink.com, instagram.com
    and the first that occurs gives the tag.  The test is a substring test
    that ignores case: a fragment occurs in the lower-cased URL exactly
    when one of its case variants occurs in the URL, so two URLs that
    differ in case only get the same tag.  A URL in which no fragment
    occurs fails with [UnknownPlatform]. *)
Theorem detect_platform_first_match (url : string) :
  detect_platform url = Spec.classify url
  ∧ (∀ fragment,
       PyStr.contains fragment (PyStr.lower url) = true
       ↔ Spec.occurs_ignoring_case fragment url)
  ∧ (∀ url', PyStr.lower url' = PyStr.lower url →
       Spec.tag_of (detect_platform url') = Spec.tag_of (detect_platform url))
  ∧ ((∀ entry, entry ∈ Spec.platform_table → ¬ Spec.occurs_ignoring_case entry.1 url) →
     detect_platform url = Err (UnknownPlatform url)).
Proof.
  split_and!.
  - apply detect_platform_classify.
  - intros fragment. apply contains_lower_iff.
  - intros url' Heq. rewrite !detect_platform_classify. unfold Spec.classify.
    rewrite Heq. by destruct (find _ _) as [[? ?]|].
  - intros Hnone. rewrite detect_platform_classify. unfold Spec.classify.
    destruct (find _ _) as [[fragment tag]|] eqn:Hfind; [|done].
    apply find_some in Hfind as [Hin Hc]. simpl in Hc.
    exfalso. apply (Hnone (fragment, tag)); [by apply list_elem_of_In|].
    by apply contains_lower_iff.
Qed.

Lemma detect_platform_first_match_witness :
  Spec.tag_of (detect_platform "HTTPS://WEIBO.COM/123456/4567890123456789") = Some Weibo
  ∧ detect_platform "https://example.org/weibo" = Err (UnknownPlatform "https://example.org/weibo").
Proof.
  split.
  - refine (proj1 (proj2 (proj2 (detect_platform_first_match
      "https://weibo.com/123456/4567890123456789"))) _ _). reflexivity.
  - refine (proj2 (proj2 (proj2 (detect_platform_first_match "https://example.org/weibo"))) _).
    intros entry Hin Hocc. apply contains_lower_iff in Hocc.
    unfold Spec.platform_table in Hin.
    repeat (apply elem_of_cons in Hin as [->|Hin]; [discriminate Hocc|]).
    by apply elem_of_nil in Hin.
Defined.

(** ** [InstagramDownloader._build_ydl_opts] *)


Lemma build_ydl_opts_cookies self :
  Spec.credentials (InstagramDownloader._build_ydl_opts self true) =
  match Spec.supplied (InstagramDownloader.cookies_file self),
        Spec.supplied (InstagramDownloader.cookies_from_browser self) with
  | Some file, _ => (Some (VStr file), None)
  | None, Some browser => (None, Some (VTuple [VStr browser]))
  | None, None => (None, Some (VTuple [VStr "chrome"]))
  end.
Proof.
  destruct self as [[[|c b]|] [[|d f]|]]; reflexivity.
Qed.

(** C9: in the options of the credentialed retry the cookie file wins:
    when a cookie file is supplied the options carry it and no browser
    profile, whether or not a profile was supplied too; the supplied
    browser profile is carried only when there is no cookie file; and the
    default profile [chrome] only when neither is supplied.  Supplied means
    a string that is not empty, as the truth tests of the code read it.
    The other options are the same in all cases. *)
Theorem build_ydl_opts_cookie_file_first (self : InstagramDownloader.t) :
  let opts := InstagramDownloader._build_ydl_opts self true in
  Spec.credentials opts =
    match Spec.supplied (InstagramDownloader.cookies_file self),
          Spec.supplied (InstagramDownloader.cookies_from_browser self) with
    | Some file, _ => (Some (VStr file), None)
    | None, Some browser => (None, Some (VTuple [VStr browser]))
    | None, None => (None, Some (VTuple [VStr "chrome"]))
    end
  ∧ ∀ key, key ≠ "cookiefile" → key ≠ "cookiesfrombrowser" →
      opts !! key = InstagramDownloader.base_opts !! key.
Proof.
  split; [apply build_ydl_opts_cookies|].
  intros key H1 H2. unfold InstagramDownloader._build_ydl_opts.
  repeat case_match; by rewrite lookup_insert_ne.
Qed.

Lemma build_ydl_opts_cookie_file_first_witness :
  InstagramDownloader._build_ydl_opts
    {| InstagramDownloader.cookies_from_browser := Some "firefox";
       InstagramDownloader.cookies_file := Some "cookies.txt" |} true !! "quiet"
  = Some (VBool true).
Proof.
  refine (eq_trans (proj2 (build_ydl_opts_cookie_file_first _) "quiet" _ _) _);
    [discriminate|discriminate|reflexivity].
Defined.

(** ** [get_unique_path] *)

Section unique.

Import PyStr.

Lemma take_drop n s : take n s ++ drop n s = s.
Proof.
  revert s; induction n as [|n IH]; intros [|c s]; try done.
  simpl. by rewrite str_app_cons, IH.
Qed.

(** The two parts [os.path.splitext] returns make up the path. *)
Lemma splitext_app p : (OsPath.splitext p).1 ++ (OsPath.splitext p).2 = p.
Proof.
  unfold OsPath.splitext. repeat case_match; simpl; try apply str_app_nil_r.
  apply take_drop.
Qed.

Lemma numbered_inj base ext : Inj (=) (=) (numbered base ext).
Proof.
  intros j k H. unfold numbered in H.
  apply String.app_inj in H. rewrite !(str_app_cons "_" EmptyString) in H.
  injection H as H. rewrite !str_app_nil_l in H.
  apply str_app_inv_tail in H. by apply pretty_N_inj in H.
Qed.

Lemma elem_of_numbered_from base ext counter n p :
  p ∈ Spec.numbered_from base ext counter n
  ↔ ∃ i, (i < n)%nat ∧ p = numbered base ext (counter + N.of_nat i).
Proof.
  revert counter; induction n as [|n IH]; intros counter; simpl.
  - rewrite elem_of_nil. split; [done|]. intros (i & Hi & _). lia.
  - rewrite elem_of_cons, IH. split.
    + intros [->|(i & Hi & ->)].
      * exists 0%nat. split; [lia|]. f_equal. lia.
      * exists (S i). split; [lia|]. f_equal. lia.
    + intros ([|i] & Hi & ->).
      * left. f_equal. lia.
      * right. exists i. split; [lia|]. f_equal. lia.
Qed.

Lemma NoDup_numbered_from base ext counter n :
  NoDup (Spec.numbered_from base ext counter n).
Proof.
  revert counter; induction n as [|n IH]; intros counter; simpl; constructor; [|apply IH].
  rewrite elem_of_numbered_from. intros (i & _ & H).
  apply numbered_inj in H. lia.
Qed.

Lemma length_numbered_from base ext counter n :
  length (Spec.numbered_from base ext counter n) = n.
Proof. revert counter; induction n as [|n IH]; intros counter; simpl; [done|]. by rewrite IH. Qed.

Lemma numbered_from_snoc base ext counter n :
  Spec.numbered_from base ext counter (S n)
  = (Spec.numbered_from base ext counter n ++ [numbered base ext (counter + N.of_nat n)])%list.
Proof.
  revert counter; induction n as [|n IH]; intros counter.
  - simpl. by rewrite N.add_0_r.
  - change (Spec.numbered_from base ext counter (S (S n)))
      with (numbered base ext counter :: Spec.numbered_from base ext (counter + 1) (S n)).
    rewrite IH. simpl.
    by replace (counter + 1 + N.of_nat n)%N with (counter + N.pos (Pos.of_succ_nat n))%N by lia.
Qed.

(** Among the first [m] numbered paths, either all exist or there is a
    first one that does not. *)
Lemma first_free (fs : gset string) base ext counter m :
  (∀ p, p ∈ Spec.numbered_from base ext counter m → p ∈ fs)
  ∨ ∃ n, (n < m)%nat
      ∧ (∀ p, p ∈ Spec.numbered_from base ext counter n → p ∈ fs)
      ∧ numbered base ext (counter + N.of_nat n) ∉ fs.
Proof.
  induction m as [|m [IH|(n & Hn & Hall & Hfree)]].
  - left. simpl. intros p Hp. by apply elem_of_nil in Hp.
  - destruct (decide (numbered base ext (counter + N.of_nat m) ∈ fs)) as [Hin|Hout].
    + left. rewrite numbered_from_snoc. intros p [Hp|Hp]%elem_of_app; [auto|].
      by apply list_elem_of_singleton in Hp as ->.
    + right. exists m. split; [lia|done].
  - right. exists n. split; [lia|done].
Qed.

(** Finitely many paths exist, so a free numbered path is found among the
    first [size fs + 1]. *)
Lemma free_exists (fs : gset string) base ext counter :
  ∃ n, (n ≤ size fs)%nat
    ∧ (∀ p, p ∈ Spec.numbered_from base ext counter n → p ∈ fs)
    ∧ numbered base ext (counter + N.of_nat n) ∉ fs.
Proof.
  destruct (first_free fs base ext counter (S (size fs))) as [Hall|(n & Hn & H)].
  - exfalso.
    assert (list_to_set (Spec.numbered_from base ext counter (S (size fs))) ⊆ fs) as Hsub.
    { intros p Hp. apply elem_of_list_to_set in Hp. auto. }
    apply subseteq_size in Hsub.
    rewrite size_list_to_set in Hsub by apply NoDup_numbered_from.
    rewrite length_numbered_from in Hsub. lia.
  - exists n. split; [lia|done].
Qed.

Lemma unique_loop_step fuel base ext path counter fs :
  unique_loop (S fuel) base ext path counter fs =
  if bool_decide (path ∈ fs) then
    let o := unique_loop fuel base ext (numbered base ext counter) (counter + 1) fs in
    Outcome (Exists path :: trace o) (files o) (value_of o)
  else Outcome [Exists path] fs (Ok path).
Proof. simpl. unfold bind, path_exists. simpl. by destruct (bool_decide _). Qed.

(** With enough fuel the loop stops at the first free numbered path. *)
Lemma unique_loop_finds (fs : gset string) base ext n :
  ∀ counter path fuel,
  path ∈ fs →
  (∀ p, p ∈ Spec.numbered_from base ext counter n → p ∈ fs) →
  numbered base ext (counter + N.of_nat n) ∉ fs →
  (n + 2 ≤ fuel)%nat →
  unique_loop fuel base ext path counter fs =
  Outcome (Exists path :: (Exists <$> Spec.numbered_from base ext counter (S n)))
    fs (Ok (numbered base ext (counter + N.of_nat n))).
Proof.
  induction n as [|n IH]; intros counter path fuel Hpath Hall Hfree Hfuel.
  - destruct fuel as [|[|fuel]]; [lia|lia|].
    rewrite unique_loop_step, bool_decide_eq_true_2 by done.
    rewrite unique_loop_step. replace (counter + N.of_nat 0)%N with counter in * by lia.
    by rewrite bool_decide_eq_false_2 by done.
  - destruct fuel as [|fuel]; [lia|].
    rewrite unique_loop_step, bool_decide_eq_true_2 by done.
    rewrite (IH (counter + 1)%N (numbered base ext counter) fuel).
    + simpl. do 3 f_equal. lia.
    + apply Hall. simpl. left.
    + intros p Hp. apply Hall. simpl. by right.
    + replace (counter + 1 + N.of_nat n)%N with (counter + N.of_nat (S n))%N by lia. done.
    + lia.
Qed.

Lemma get_unique_path_unfold P fs :
  get_unique_path P fs =
  if bool_decide (P ∈ fs) then
    let o := unique_loop (2 + size fs) (OsPath.splitext P).1 (OsPath.splitext P).2 P 1 fs in
    Outcome (Exists P :: trace o) (files o) (value_of o)
  else Outcome [Exists P] fs (Ok P).
Proof.
  unfold get_unique_path, bind, path_exists. cbn [trace files value_of negb].
  destruct (bool_decide (P ∈ fs)); [|done].
  cbn [negb]. by destruct (OsPath.splitext P).
Qed.

Lemma avoid_overwriting_unfold P fs :
  Legacy.avoid_overwriting P fs =
  unique_loop (2 + size fs) (OsPath.splitext P).1 (OsPath.splitext P).2 P 1 fs.
Proof. unfold Legacy.avoid_overwriting. by destruct (OsPath.splitext P). Qed.

End unique.

(** C6: collision avoidance.  [get_unique_path] always returns (the loop
    ends), leaves the files as they are, and returns a path that does not
    exist.  When nothing exists at [P] it returns [P].  Otherwise, with
    [(base, ext)] the split of [P] at its extension, it tries
    [base_1ext], [base_2ext], ... in this order and returns the first that
    does not exist; in particular [base_1ext] when only [P] exists and
    [base_2ext] when [P] and [base_1ext] exist.  The loop of the legacy
    script does the same, with one test of [P] less when [P] exists. *)
Theorem get_unique_path_first_free (fs : gset string) (P : string) :
  let base := (OsPath.splitext P).1 in
  let ext := (OsPath.splitext P).2 in
  let o := get_unique_path P fs in
  base ++ ext = P
  ∧ files o = fs
  ∧ (∃ p, value_of o = Ok p ∧ p ∉ fs)
  ∧ (P ∉ fs → value_of o = Ok P ∧ trace o = [Exists P])
  ∧ (P ∈ fs →
     ∃ n, value_of o = Ok (numbered base ext (1 + N.of_nat n))
        ∧ (∀ p, p ∈ Spec.numbered_from base ext 1 n → p ∈ fs)
        ∧ trace o = Exists P :: Exists P :: (Exists <$> Spec.numbered_from base ext 1 (S n)))
  ∧ (P ∈ fs → numbered base ext 1 ∉ fs → value_of o = Ok (numbered base ext 1))
  ∧ (P ∈ fs → numbered base ext 1 ∈ fs → numbered base ext 2 ∉ fs →
     value_of o = Ok (numbered base ext 2))
  ∧ (P ∉ fs → Legacy.avoid_overwriting P fs = o)
  ∧ (P ∈ fs → Legacy.avoid_overwriting P fs
              = Outcome (tail (trace o)) (files o) (value_of o)).
Proof.
  intros base ext o.
  assert (P ∉ fs → o = Outcome [Exists P] fs (Ok P)) as Hfree.
  { intros H. unfold o. rewrite get_unique_path_unfold.
    by rewrite bool_decide_eq_false_2 by done. }
  assert (∀ n, P ∈ fs →
    (∀ p, p ∈ Spec.numbered_from base ext 1 n → p ∈ fs) →
    numbered base ext (1 + N.of_nat n) ∉ fs → (n ≤ size fs)%nat →
    o = Outcome (Exists P :: Exists P :: (Exists <$> Spec.numbered_from base ext 1 (S n)))
          fs (Ok (numbered base ext (1 + N.of_nat n)))
    ∧ Legacy.avoid_overwriting P fs
      = Outcome (Exists P :: (Exists <$> Spec.numbered_from base ext 1 (S n)))
          fs (Ok (numbered base ext (1 + N.of_nat n)))) as Htaken.
  { intros n HP Hall Hn Hsize.
    pose proof (unique_loop_finds fs base ext n 1%N P (2 + size fs) HP Hall Hn) as Hloop.
    unfold o. rewrite get_unique_path_unfold, avoid_overwriting_unfold.
    rewrite bool_decide_eq_true_2 by done. fold base ext.
    rewrite Hloop by lia. done. }
  split_and!.
  - apply splitext_app.
  - destruct (decide (P ∈ fs)) as [HP|HP]; [|by rewrite Hfree].
    destruct (free_exists fs base ext 1) as (n & Hn & Hall & Hout).
    by rewrite (proj1 (Htaken n HP Hall Hout Hn)).
  - destruct (decide (P ∈ fs)) as [HP|HP]; [|rewrite Hfree by done; eauto].
    destruct (free_exists fs base ext 1) as (n & Hn & Hall & Hout).
    rewrite (proj1 (Htaken n HP Hall Hout Hn)). eauto.
  - intros HP. by rewrite Hfree.
  - intros HP. destruct (free_exists fs base ext 1) as (n & Hn & Hall & Hout).
    exists n. by rewrite (proj1 (Htaken n HP Hall Hout Hn)).
  - intros HP H1.
    destruct (Htaken 0%nat HP) as [-> _]; [|exact H1|lia|done].
    intros p Hp. by apply elem_of_nil in Hp.
  - intros HP H1 H2.
    destruct (Htaken 1%nat HP) as [-> _]; [|exact H2| |done].
    + intros p Hp. by apply list_elem_of_singleton in Hp as ->.
    + assert ({[P]} ⊆ fs) as Hsub by (by apply singleton_subseteq_l).
      apply subseteq_size in Hsub. by rewrite size_singleton in Hsub.
  - intros HP. rewrite Hfree, avoid_overwriting_unfold by done.
    cbn [Nat.add unique_loop]. unfold bind, path_exists. cbn [trace files value_of].
    by rewrite bool_decide_eq_false_2 by done.
  - intros HP. destruct (free_exists fs base ext 1) as (n & Hn & Hall & Hout).
    destruct (Htaken n HP Hall Hout Hn) as [-> ->]. done.
Qed.

Lemma get_unique_path_first_free_witness :
  value_of (get_unique_path "/out/My Trip.mp4" {["/out/My Trip.mp4"]}) = Ok "/out/My Trip_1.mp4"
  ∧ value_of (get_unique_path "/out/My Trip.mp4" {["/out/My Trip.mp4"; "/out/My Trip_1.mp4"]})
    = Ok "/out/My Trip_2.mp4"
  ∧ value_of (get_unique_path "/out/My Trip.mp4" ∅) = Ok "/out/My Trip.mp4".
Proof.
  split_and!.
  - refine (proj1 (proj2 (proj2 (proj2 (proj2 (proj2
      (get_unique_path_first_free {["/out/My Trip.mp4"]} "/out/My Trip.mp4")))))) _ _).
    + by apply elem_of_singleton.
    + apply not_elem_of_singleton. vm_compute. discriminate.
  - refine (proj1 (proj2 (proj2 (proj2 (proj2 (proj2 (proj2
      (get_unique_path_first_free {["/out/My Trip.mp4"; "/out/My Trip_1.mp4"]}
         "/out/My Trip.mp4"))))))) _ _ _).
    + apply elem_of_union_l. by apply elem_of_singleton.
    + apply elem_of_union_r. by apply elem_of_singleton.
    + intros [H|H]%elem_of_union; apply elem_of_singleton in H; vm_compute in H; discriminate.
  - refine (proj1 (proj1 (proj2 (proj2 (proj2
      (get_unique_path_first_free ∅ "/out/My Trip.mp4")))) _)).
    apply not_elem_of_empty.
Defined.

(** ** Running computations *)

Section running.

Context {A B : Type}.

Lemma bind_err (c : M A) (k : A → M B) fs e :
  value_of (c fs) = Err e →
  bind c k fs = Outcome (trace (c fs)) (files (c fs)) (Err e).
Proof. unfold bind. by intros ->. Qed.

Lemma bind_lift (r : result A) (k : A → M B) fs :
  bind (lift r) k fs =
  match r with
  | Ok a => k a fs
  | Err e => Outcome [] fs (Err e)
  end.
Proof. unfold bind, lift. simpl. destruct r; [by destruct (k a fs)|done]. Qed.

End running.

(** ** [WeiboDownloader] *)

Section weibo.

Import PyVal.






(** A refused request fails with the message of the API, whatever else
    the document holds. *)
Lemma parse_status_refused w data d :
  data = VDict d → Spec.flagged_ok data = false →
  WeiboDownloader.parse_status w data =
  Err (ApiError (format_value w (default (VStr "Unknown error") (d !! "msg")))).
Proof.
  intros -> H. unfold Spec.flagged_ok in H. unfold WeiboDownloader.parse_status.
  simpl in *. by rewrite H.
Qed.

(** A successful answer about a post that is not a video fails with
    [NotAVideo], whatever else the document holds. *)
Lemma parse_status_not_video w data :
  Spec.flagged_ok data = true → Spec.objects_to_page_info data = true →
  Spec.is_video data = false →
  WeiboDownloader.parse_status w data = Err NotAVideo.
Proof.
  unfold Spec.flagged_ok, Spec.is_video, Spec.page_info_of, Spec.status_of,
    Spec.objects_to_page_info, WeiboDownloader.parse_status.
  destruct data as [| | | | | | |d]; simpl; try done.
  intros -> Hobj. simpl.
  destruct (d !! "data") as [[| | | | | | |st]|]; simpl in *; try done.
  destruct (st !! "page_info") as [[| | | | | | |pi]|]; simpl in *; try done.
  by intros ->.
Qed.

Lemma get_video_info_unfold w url fs :
  WeiboDownloader.get_video_info w url fs =
  match WeiboDownloader.extract_status_id url with
  | Err e => Outcome [] fs (Err e)
  | Ok status_id =>
      let request := Get WeiboSession (WeiboDownloader.api_url status_id) 15 in
      match http_get w WeiboSession (WeiboDownloader.api_url status_id) 15 with
      | Err e => Outcome [request] fs (Err e)
      | Ok response =>
          match resp_status response with
          | Some e => Outcome [request] fs (Err e)
          | None =>
              match resp_json response with
              | Err e => Outcome [request] fs (Err e)
              | Ok data => Outcome [request] fs (WeiboDownloader.parse_status w data)
              end
          end
      end
  end.
Proof.
  unfold WeiboDownloader.get_video_info. rewrite bind_lift.
  destruct (WeiboDownloader.extract_status_id url) as [status_id|e]; [|done].
  unfold bind, session_get, emit, lift, raise_for_status, raise, ret. simpl.
  destruct (http_get _ _ _ _) as [response|e]; simpl; [|done].
  destruct (resp_status response); simpl; [done|].
  destruct (resp_json response); simpl; [|done].
  by destruct (WeiboDownloader.parse_status _ _).
Qed.

Lemma get_video_info_answer w url fs data :
  Spec.weibo_answer w url = Some data →
  ∃ status_id,
    WeiboDownloader.extract_status_id url = Ok status_id
    ∧ WeiboDownloader.get_video_info w url fs =
      Outcome [Get WeiboSession (WeiboDownloader.api_url status_id) 15] fs
        (WeiboDownloader.parse_status w data).
Proof.
  unfold Spec.weibo_answer. rewrite get_video_info_unfold.
  destruct (WeiboDownloader.extract_status_id url) as [status_id|]; [|done].
  destruct (http_get _ _ _ _) as [response|]; [|done].
  destruct (resp_status response); [done|].
  destruct (resp_json response); [|done].
  intros [= ->]. by exists status_id.
Qed.


End weibo.



(** C7, as stated, fails on a video document whose [urls] is [null]: no
    variant is present and the legacy field holds a stream URL, and yet
    the locator does not use that URL: it raises [AttributeError] where it
    looks for the first variant. *)
Lemma weibo_null_urls_raises :
  Spec.flagged_ok Sample.null_urls_status = true
  ∧ Spec.is_video Sample.null_urls_status = true
  ∧ find PyVal.truthy (Spec.weibo_variants (Spec.page_info_of Sample.null_urls_status)) = None
  ∧ Spec.preferred (Spec.page_info_of Sample.null_urls_status)
    = Some (VStr "https://f.video.weibocdn.com/s.mp4")
  ∧ WeiboDownloader.get_video_info (Sample.weibo_world Sample.null_urls_status)
      Sample.weibo_url ∅
    = Outcome [Get WeiboSession "https://m.weibo.cn/statuses/show?id=4567890123456789" 15] ∅
        (Err (NoAttributeGet VNone)).
Proof. split_and!; reflexivity. Qed.

(** C8, as the code has it: when the API answers with a document flagged
    as successful, in which the fields down to the page info are objects,
    and whose page info does not say video, [get_video_info] fails with
    [NotAVideo], whatever the document holds where the media URL and the
    title would be looked for; and [download] ends there: the only call
    made is the API request, no path is tested for existence, nothing is
    transferred, and the files are as before. *)
Theorem weibo_not_a_video_stops (w : World) (url output_dir : string)
    (fs : gset string) (data : value) :
  Spec.weibo_answer w url = Some data →
  Spec.flagged_ok data = true →
  Spec.objects_to_page_info data = true →
  Spec.is_video data = false →
  ∃ status_id,
    WeiboDownloader.extract_status_id url = Ok status_id
    ∧ WeiboDownloader.get_video_info w url fs =
      Outcome [Get WeiboSession (WeiboDownloader.api_url status_id) 15] fs (Err NotAVideo)
    ∧ WeiboDownloader.download w url output_dir fs =
      Outcome [Get WeiboSession (WeiboDownloader.api_url status_id) 15] fs (Err NotAVideo).
Proof.
  intros Hanswer Hok Hobj Hvideo.
  destruct (get_video_info_answer w url fs data Hanswer) as (status_id & Hid & Hrun).
  rewrite (parse_status_not_video w data Hok Hobj Hvideo) in Hrun.
  exists status_id. split_and!; [done..|].
  unfold WeiboDownloader.download. rewrite (bind_err _ _ _ NotAVideo); by rewrite Hrun.
Qed.

Lemma weibo_not_a_video_stops_witness :
  WeiboDownloader.download (Sample.weibo_world Sample.article_status) Sample.weibo_url "/out" ∅
  = Outcome [Get WeiboSession "https://m.weibo.cn/statuses/show?id=4567890123456789" 15] ∅
      (Err NotAVideo).
Proof.
  destruct (weibo_not_a_video_stops (Sample.weibo_world Sample.article_status)
    Sample.weibo_url "/out" ∅ Sample.article_status) as (status_id & Hid & _ & ->);
    [reflexivity..|].
  by injection Hid as <-.
Defined.

(** C8, as stated, fails on a refused request: the page info of the
    document does not say video, and the failure is the API's, not
    [NotAVideo]. *)
Lemma weibo_refused_is_not_not_a_video :
  Spec.is_video Sample.refused_status = false
  ∧ value_of (WeiboDownloader.get_video_info (Sample.weibo_world Sample.refused_status)
                Sample.weibo_url ∅)
    = Err (ApiError "login first")
  ∧ ApiError "login first" ≠ NotAVideo.
Proof. split_and!; [reflexivity..|discriminate]. Qed.

(** ** [InstagramDownloader.get_video_info] *)

Section instagram.



End instagram.

(** ** Failing fast *)

Section fail_fast.

Context (w : World) (excused : event → bool).











Lemma tidy_create_file p fs : Spec.tidy w excused (create_file p fs).
Proof. by left. Qed.
















End fail_fast.

Section fail_fast_instagram.

Context (w : World).






End fail_fast_instagram.

(** ** The services a run calls on *)

Section services.

Context (w : World).





























End services.



Example sample_instagram_retry :
  let o := InstagramDownloader.get_video_info Sample.instagram_world Sample.nobody
             Sample.instagram_url ∅ in
  trace o = [Extract Sample.instagram_url (InstagramDownloader._build_ydl_opts Sample.nobody false);
             Extract Sample.instagram_url (InstagramDownloader._build_ydl_opts Sample.nobody true)]
  ∧ value_of o = Ok (VStr "https://cdn.ig/muxed.mp4", "instagram_someone").
Proof. split; reflexivity. Qed.

(** ** [read_qrcode] *)

Section qr.

Context (w : World).


Lemma last_cons_nothing a l :
  Spec.produces w a = None →
  last (a :: l) ≫= Spec.produces w = last l ≫= Spec.produces w.
Proof. destruct l as [|b l]; simpl; [|done]. by intros ->. Qed.

Lemma first_text_verdict d fs : first_text d fs = Outcome [] fs (Spec.verdict (Some d)).
Proof. by destruct d. Qed.

Lemma follows_nothing : Spec.follows w (raise NoQrFound) [].
Proof. by intros fs. Qed.

Lemma follows_try_decode i otherwise plan :
  Spec.follows w otherwise plan → Spec.follows w (try_decode w i otherwise) (Decode i :: plan).
Proof.
  intros H fs. unfold try_decode, bind, emit. cbn [trace files value_of Spec.cascade].
  destruct (pyzbar_decode w i) as [|d ds] eqn:Hread.
  - assert (Spec.produces w (Decode i) = None) as Hnone by (simpl; by rewrite Hread).
    rewrite H, Hnone. cbn [trace files value_of]. by rewrite last_cons_nothing.
  - assert (Spec.produces w (Decode i) = Some d) as Hsome by (simpl; by rewrite Hread).
    rewrite first_text_verdict, Hsome. simpl. by rewrite Hread.
Qed.

Lemma follows_for_scales prepare scales otherwise plan :
  Spec.follows w otherwise plan →
  Spec.follows w (for_scales w prepare scales otherwise)
    (((fun scale => Decode (prepare scale)) <$> scales) ++ plan)%list.
Proof.
  intros H. induction scales as [|scale scales IH]; simpl; [done|].
  by apply follows_try_decode.
Qed.


Lemma follows_scan_regions image_path :
  Spec.follows w (scan_regions w image_path)
    (Spec.stage4 image_path ++ Spec.stage5 image_path ++ Spec.stage6 image_path
     ++ Spec.stage7 image_path)%list.
Proof.
  unfold scan_regions. apply follows_for_scales, follows_for_scales.
  apply (follows_try_decode _ _ (Spec.stage7 image_path)).
  rewrite <- (List.app_nil_r (Spec.stage7 image_path)).
  apply follows_for_scales, follows_nothing.
Qed.



Lemma scan_regions_files image_path fs : files (scan_regions w image_path fs) = fs.
Proof. by rewrite follows_scan_regions. Qed.

Lemma detect_and_decode_files image_path fs : files (detect_and_decode w image_path fs) = fs.
Proof.
  unfold detect_and_decode, bind, emit. cbn [trace files value_of].
  destruct (cv_detect w (Imread image_path)) as [data vertices].
  destruct (PyStr.nonempty data); [done|].
  destruct vertices as [[|q qs]|]; cbn [trace files value_of];
    try by rewrite scan_regions_files.
  cbv zeta. destruct (qr_region_is_empty w image_path q); [done|].
  by rewrite (follows_try_decode _ _ _ (follows_scan_regions image_path)).
Qed.

(** What [read_qrcode] does with an image that exists and opens. *)
Lemma read_qrcode_run image_path fs :
  image_path ∈ fs → pil_open w image_path = None →
  read_qrcode w image_path fs =
  match pyzbar_decode w (ImageOpen image_path) with
  | d :: _ =>
      Outcome [Exists image_path; Open image_path; Decode (ImageOpen image_path)] fs
        (Spec.verdict (Some d))
  | [] =>
      if cv_readable w image_path then
        let o := detect_and_decode w image_path fs in
        Outcome (Exists image_path :: Open image_path :: Decode (ImageOpen image_path)
                 :: Read image_path :: trace o) (files o) (value_of o)
      else
        Outcome [Exists image_path; Open image_path; Decode (ImageOpen image_path);
                 Read image_path] fs (Err (ImageUnreadable image_path))
  end.
Proof.
  intros Hin Hopen.
  unfold read_qrcode, try_decode, bind, path_exists, emit.
  cbn [trace files value_of]. rewrite bool_decide_eq_true_2 by done. rewrite Hopen.
  cbn [negb trace files value_of].
  destruct (pyzbar_decode w (ImageOpen image_path)) as [|d ds].
  - destruct (cv_readable w image_path); cbn [negb]; [|done].
    cbn [trace files value_of app]. by destruct (value_of (detect_and_decode w image_path fs)).
  - by rewrite first_text_verdict.
Qed.










Lemma read_qrcode_files image_path fs : files (read_qrcode w image_path fs) = fs.
Proof.
  destruct (decide (image_path ∈ fs)) as [Hin|Hout].
  - destruct (pil_open w image_path) as [e|] eqn:Hopen.
    + unfold read_qrcode, bind, path_exists, emit. cbn [trace files value_of].
      rewrite bool_decide_eq_true_2 by done. cbn [negb]. by rewrite Hopen.
    + rewrite read_qrcode_run by done.
      repeat case_match; cbn [files]; try done. apply detect_and_decode_files.
  - unfold read_qrcode, bind, path_exists. cbn [trace files value_of].
    by rewrite bool_decide_eq_false_2 by done.
Qed.

(** Where nothing is found and the detector locates nothing, the ten
    attempts of the plan are all made, and the failure is [NoQrFound]. *)
Example sample_no_qr :
  let o := read_qrcode Sample.silent "shot.png" {["shot.png"]} in
  value_of o = Err NoQrFound
  ∧ Spec.attempts (trace o) = Spec.qr_plan Sample.silent "shot.png"
  ∧ length (Spec.attempts (trace o)) = 10%nat.
Proof. by vm_compute. Qed.

End qr.



(** C2, as stated, fails on an image that PIL opens and OpenCV cannot
    read: no attempt of the seven stages produces anything, and yet the
    failure is not [NoQrFound] but [ImageUnreadable], after the one
    attempt of the first stage. *)
Lemma read_qrcode_gives_up_unreadable :
  Forall (fun a => Spec.produces Sample.pil_only a = None)
    (Spec.qr_plan Sample.pil_only "shot.png")
  ∧ value_of (read_qrcode Sample.pil_only "shot.png" {["shot.png"]})
    = Err (ImageUnreadable "shot.png")
  ∧ ImageUnreadable "shot.png" ≠ NoQrFound
  ∧ Spec.attempts (trace (read_qrcode Sample.pil_only "shot.png" {["shot.png"]}))
    = [Decode (ImageOpen "shot.png")]
  ∧ length (Spec.qr_plan Sample.pil_only "shot.png") = 10%nat.
Proof.
  split_and!; [by repeat constructor|reflexivity|discriminate|reflexivity..].
Qed.

(** ** Redirect resolution *)

Section resolution.

Context (w : World).

Lemma trace_bind {A B} (c : M A) (k : A → M B) fs :
  trace (bind c k fs) =
  (trace (c fs) ++ match value_of (c fs) with
                   | Ok a => trace (k a (files (c fs)))
                   | Err _ => []
                   end)%list.
Proof. unfold bind. destruct (value_of (c fs)); simpl; [done|]. by rewrite List.app_nil_r. Qed.

Lemma requests_app l1 l2 :
  Spec.resolution_requests (l1 ++ l2)%list
  = (Spec.resolution_requests l1 ++ Spec.resolution_requests l2)%list.
Proof. apply omap_app. Qed.

Lemma quiet_ret {A} (a : A) fs : Spec.quiet (ret a fs).
Proof. done. Qed.

Lemma quiet_raise {A} e fs : Spec.quiet (@raise A e fs).
Proof. done. Qed.























End resolution.

Section orchestrators.

Context (w : World).












End orchestrators.




(** * Further properties: the functions around the ones above *)

(** ** Patterns in URLs and pages *)

Section patterns.

Import PyStr.

Lemma after_prefix_app p s r : after_prefix p s = Some r → s = p ++ r.
Proof.
  revert s; induction p as [|a p IH]; intros [|b s]; simpl; try done.
  - intros [= <-]. by rewrite str_app_nil_l.
  - intros [= <-]. by rewrite str_app_nil_l.
  - destruct (Ascii.eqb_spec a b) as [->|]; [|done].
    intros H. by rewrite (IH _ H).
Qed.

Lemma after_prefix_here p r : after_prefix p (p ++ r) = Some r.
Proof.
  induction p as [|a p IH]; simpl; [by destruct r|].
  by rewrite Ascii.eqb_refl.
Qed.

Lemma span_app f s : (span f s).1 ++ (span f s).2 = s.
Proof.
  induction s as [|c s IH]; simpl; [done|].
  destruct (f c); [|done]. destruct (span f s) as [a b]. simpl in *. by rewrite str_app_cons, IH.
Qed.

Lemma span_all f s : all_chars f (span f s).1 = true.
Proof.
  induction s as [|c s IH]; simpl; [done|].
  destruct (f c) eqn:E; [|done]. destruct (span f s) as [a b]. simpl in *. by rewrite E.
Qed.

Lemma span_here f a b :
  all_chars f a = true → (match head b with Some c => f c | None => false end) = false →
  span f (a ++ b) = (a, b).
Proof.
  intros Ha Hb. induction a as [|c a IH]; simpl in *.
  - destruct b as [|c b]; simpl in *; [done|]. by rewrite Hb.
  - apply andb_prop in Ha as [-> Ha]. by rewrite IH.
Qed.

Lemma search_found {A} (m : string → option A) s r :
  Re.search m s = Some r → ∃ pre t, s = pre ++ t ∧ m t = Some r.
Proof.
  induction s as [|c s IH]; simpl.
  - destruct (m EmptyString) eqn:E; [|done]. intros [= ->]. by exists EmptyString, EmptyString.
  - destruct (m (String c s)) eqn:E.
    + intros [= ->]. by exists EmptyString, (String c s).
    + intros (pre & t & -> & H)%IH. by exists (String c pre), t.
Qed.

Lemma search_skip {A} (m : string → option A) (f : ascii → bool) pre s :
  (∀ c t, f c = false → m (String c t) = None) →
  all_chars (fun c => negb (f c)) pre = true → nonempty s = true →
  Re.search m (pre ++ s) = Re.search m s.
Proof.
  intros Hm Hpre Hs. induction pre as [|c pre IH]; [done|].
  simpl in Hpre. apply andb_prop in Hpre as [Hc Hpre].
  rewrite str_app_cons. cbn [Re.search].
  rewrite Hm by (by destruct (f c)). by apply IH.
Qed.

Lemma search_none {A} (m : string → option A) (f : ascii → bool) s :
  (∀ c t, f c = false → m (String c t) = None) → m EmptyString = None →
  all_chars (fun c => negb (f c)) s = true →
  Re.search m s = None.
Proof.
  intros Hm Hnil Hs. induction s as [|c s IH]; simpl; [by rewrite Hnil|].
  simpl in Hs. apply andb_prop in Hs as [Hc Hs].
  rewrite Hm by (by destruct (f c)). by apply IH.
Qed.

Lemma contains_here p a b : contains p (a ++ p ++ b) = true.
Proof.
  assert (∀ q r, startswith q (q ++ r) = true) as Hstart.
  { induction q as [|c q IH]; intros r; [by simpl|].
    rewrite str_app_cons. simpl. rewrite Ascii.eqb_refl. apply IH. }
  induction a as [|c a IH].
  - rewrite str_app_nil_l. destruct p as [|c p]; [by destruct b|].
    rewrite str_app_cons. cbn [contains]. by rewrite <- str_app_cons, Hstart.
  - rewrite str_app_cons. cbn [contains]. rewrite IH. apply orb_true_r.
Qed.

End patterns.

(** ** The status id of a Weibo URL *)

Section status_id.

Import PyStr.

Lemma weibo_com_sound t id :
  Pattern.weibo_com t = Some id →
  nonempty id = true ∧ all_chars is_digit id = true ∧ ∃ a b, t = a ++ ("/" ++ id) ++ b.
Proof.
  unfold Pattern.weibo_com. intros H.
  destruct (after_prefix "weibo.com/" t) as [s|] eqn:E1; cbn -[after_prefix span Nat.leb String.length] in H; [|done].
  pose proof (span_app is_digit s) as Hs. pose proof (span_all is_digit s) as Hd.
  destruct (span is_digit s) as [user s1]. simpl in Hs, Hd.
  destruct (nonempty user); [|done].
  destruct (after_prefix "/" s1) as [s2|] eqn:E2; cbn -[after_prefix span Nat.leb String.length] in H; [|done].
  pose proof (span_app is_digit s2) as Hs2. pose proof (span_all is_digit s2) as Hd2.
  destruct (span is_digit s2) as [status rest]. simpl in Hs2, Hd2.
  destruct (nonempty status) eqn:Hne; [|done]. injection H as <-.
  split_and!; [done..|].
  apply after_prefix_app in E1, E2. subst.
  exists ("weibo.com/" ++ user), rest. by rewrite !str_app_assoc.
Qed.

Lemma weibo_cn_sound t id :
  Pattern.weibo_cn t = Some id →
  nonempty id = true ∧ all_chars is_digit id = true ∧ ∃ a b, t = a ++ ("/" ++ id) ++ b.
Proof.
  unfold Pattern.weibo_cn. intros H.
  destruct (after_prefix "weibo.cn/status/" t) as [s|] eqn:E1; cbn -[after_prefix span Nat.leb String.length] in H; [|done].
  pose proof (span_app is_digit s) as Hs. pose proof (span_all is_digit s) as Hd.
  destruct (span is_digit s) as [status rest]. simpl in Hs, Hd.
  destruct (nonempty status) eqn:Hne; [|done]. injection H as <-.
  split_and!; [done..|].
  apply after_prefix_app in E1. subst.
  exists "weibo.cn/status", rest. by rewrite !str_app_assoc.
Qed.

Lemma long_number_sound t id :
  Pattern.long_number t = Some id →
  (16 ≤ String.length id)%nat ∧ all_chars is_digit id = true ∧ ∃ a b, t = a ++ ("/" ++ id) ++ b.
Proof.
  unfold Pattern.long_number. intros H.
  destruct (after_prefix "/" t) as [s|] eqn:E1; cbn -[after_prefix span Nat.leb String.length] in H; [|done].
  pose proof (span_app is_digit s) as Hs. pose proof (span_all is_digit s) as Hd.
  destruct (span is_digit s) as [status rest]. simpl in Hs, Hd.
  destruct (16 <=? String.length status)%nat eqn:Hlen; [|done]. injection H as <-.
  apply Nat.leb_le in Hlen. split_and!; [done..|].
  apply after_prefix_app in E1. subst.
  exists EmptyString, rest. by rewrite !str_app_assoc.
Qed.

End status_id.

(** X1: the status id of a Weibo URL.  Whenever [extract_status_id]
    returns, the id is a run of decimal digits that is not empty and that
    follows a slash in the URL; and its only failure is [NoStatusId], which
    carries the URL. *)
Theorem extract_status_id_sound (url : string) :
  (∀ id, WeiboDownloader.extract_status_id url = Ok id →
     PyStr.nonempty id = true
     ∧ PyStr.all_chars PyStr.is_digit id = true
     ∧ PyStr.contains ("/" ++ id) url = true)
  ∧ (∀ e, WeiboDownloader.extract_status_id url = Err e → e = NoStatusId url).
Proof.
  unfold WeiboDownloader.extract_status_id. split.
  - intros id H.
    assert (∃ t pre, url = pre ++ t ∧ PyStr.nonempty id = true
              ∧ PyStr.all_chars PyStr.is_digit id = true
              ∧ ∃ a b, t = a ++ ("/" ++ id) ++ b) as (t & pre & -> & Hne & Hd & a & b & ->).
    { destruct (Re.search Pattern.weibo_com url) as [r|] eqn:E1.
      { injection H as ->. apply search_found in E1 as (pre & t & -> & Hm).
        exists t, pre. split; [done|]. by apply weibo_com_sound. }
      destruct (Re.search Pattern.weibo_cn url) as [r|] eqn:E2.
      { injection H as ->. apply search_found in E2 as (pre & t & -> & Hm).
        exists t, pre. split; [done|]. by apply weibo_cn_sound. }
      destruct (Re.search Pattern.long_number url) as [r|] eqn:E3; [|done].
      injection H as ->. apply search_found in E3 as (pre & t & -> & Hm).
      exists t, pre. split; [done|].
      apply long_number_sound in Hm as (Hlen & Hd & Hab). split_and!; [|done..].
      destruct id; [simpl in Hlen; lia|done]. }
    split_and!; [done..|].
    rewrite <- str_app_assoc. apply contains_here.
  - intros e H. repeat case_match; congruence.
Qed.

Lemma extract_status_id_sound_witness :
  PyStr.nonempty "4567890123456789" = true
  ∧ PyStr.all_chars PyStr.is_digit "4567890123456789" = true
  ∧ PyStr.contains "/4567890123456789" "https://weibo.com/123456/4567890123456789" = true.
Proof.
  apply (proj1 (extract_status_id_sound "https://weibo.com/123456/4567890123456789")).
  reflexivity.
Defined.
Section status_id_shapes.

Import PyStr.

Lemma all_chars_app f a b : all_chars f (a ++ b) = all_chars f a && all_chars f b.
Proof.
  induction a as [|c a IH]; [by rewrite str_app_nil_l|].
  rewrite str_app_cons. simpl. by rewrite IH, andb_assoc.
Qed.

Lemma all_chars_impl (f g : ascii → bool) s :
  (∀ c, f c = true → g c = true) → all_chars f s = true → all_chars g s = true.
Proof.
  intros Hfg. induction s as [|c s IH]; simpl; [done|].
  intros [Hc Hs]%andb_prop. by rewrite (Hfg _ Hc), IH.
Qed.

Lemma mem_all_chars c s : mem c s = false → all_chars (fun d => negb (Ascii.eqb d c)) s = true.
Proof.
  induction s as [|d s IH]; simpl; [done|].
  intros [Hd Hs]%orb_false_elim. rewrite Ascii.eqb_sym, Hd. by apply IH.
Qed.

(** Each of the first two patterns starts with the letter w. *)
Lemma weibo_com_first c t : Ascii.eqb c "w" = false → Pattern.weibo_com (String c t) = None.
Proof.
  intros H. unfold Pattern.weibo_com. cbn [after_prefix].
  by rewrite Ascii.eqb_sym, H.
Qed.

Lemma weibo_cn_first c t : Ascii.eqb c "w" = false → Pattern.weibo_cn (String c t) = None.
Proof.
  intros H. unfold Pattern.weibo_cn. cbn [after_prefix].
  by rewrite Ascii.eqb_sym, H.
Qed.

Lemma weibo_com_here uid sid rest :
  nonempty uid = true → all_chars is_digit uid = true →
  nonempty sid = true → all_chars is_digit sid = true →
  (match head rest with Some c => is_digit c | None => false end) = false →
  Pattern.weibo_com ("weibo.com/" ++ uid ++ "/" ++ sid ++ rest) = Some sid.
Proof.
  intros Hu Hud Hs Hsd Hrest. unfold Pattern.weibo_com.
  rewrite after_prefix_here. cbn -[after_prefix span].
  rewrite (span_here is_digit uid) by done. rewrite Hu.
  rewrite after_prefix_here. cbn -[after_prefix span].
  rewrite (span_here is_digit sid) by done. by rewrite Hs.
Qed.

Lemma weibo_cn_here sid rest :
  nonempty sid = true → all_chars is_digit sid = true →
  (match head rest with Some c => is_digit c | None => false end) = false →
  Pattern.weibo_cn ("weibo.cn/status/" ++ sid ++ rest) = Some sid.
Proof.
  intros Hs Hsd Hrest. unfold Pattern.weibo_cn.
  rewrite after_prefix_here. cbn -[after_prefix span].
  rewrite (span_here is_digit sid) by done. by rewrite Hs.
Qed.

Lemma search_here {A} (m : string → option A) s r : m s = Some r → Re.search m s = Some r.
Proof. intros H. destruct s; simpl; by rewrite H. Qed.

End status_id_shapes.

(** X2: the two URL shapes of a Weibo post.  For every numeric user id and
    status id, a URL that holds [weibo.com/<user id>/<status id>] yields
    the status id, and so does one that holds
    [weibo.cn/status/<status id>], whatever precedes (a scheme, a host
    prefix) and follows (a query), as long as the letter w does not occur
    there and what follows does not start with a digit. *)
Theorem extract_status_id_shapes (pre uid sid rest : string) :
  PyStr.mem "w" pre = false →
  PyStr.nonempty sid = true → PyStr.all_chars PyStr.is_digit sid = true →
  Spec.goes_on_with PyStr.is_digit rest = false →
  (PyStr.nonempty uid = true → PyStr.all_chars PyStr.is_digit uid = true →
   WeiboDownloader.extract_status_id (pre ++ "weibo.com/" ++ uid ++ "/" ++ sid ++ rest) = Ok sid)
  ∧ (PyStr.mem "w" rest = false →
     WeiboDownloader.extract_status_id (pre ++ "weibo.cn/status/" ++ sid ++ rest) = Ok sid).
Proof.
  intros Hpre%mem_all_chars Hs Hsd Hrest. unfold WeiboDownloader.extract_status_id. split.
  - intros Hu Hud.
    rewrite (search_skip _ (fun c => Ascii.eqb c "w") pre); [|apply weibo_com_first|done..].
    by rewrite (search_here _ _ sid) by (by apply weibo_com_here).
  - intros Hw%mem_all_chars.
    assert (Re.search Pattern.weibo_com (pre ++ "weibo.cn/status/" ++ sid ++ rest) = None) as ->.
    { rewrite (search_skip _ (fun c => Ascii.eqb c "w") pre); [|apply weibo_com_first|done..].
      rewrite str_app_cons. cbn [Re.search].
      assert (Pattern.weibo_com (String "w" ("eibo.cn/status/" ++ sid ++ rest)) = None) as ->.
      { unfold Pattern.weibo_com. by rewrite !str_app_cons. }
      apply (search_none _ (fun c => Ascii.eqb c "w")); [apply weibo_com_first|done|].
      rewrite !all_chars_app, Hw, andb_true_r. apply andb_true_intro. split; [done|].
      revert Hsd. apply all_chars_impl. intros c Hc.
      destruct (Ascii.eqb_spec c "w") as [->|]; done. }
    rewrite (search_skip _ (fun c => Ascii.eqb c "w") pre); [|apply weibo_cn_first|done..].
    by rewrite (search_here _ _ sid) by (by apply weibo_cn_here).
Qed.

Lemma extract_status_id_shapes_witness :
  WeiboDownloader.extract_status_id "https://m.weibo.cn/status/4567890123456789?from=page"
  = Ok "4567890123456789"
  ∧ WeiboDownloader.extract_status_id "https://weibo.com/123456/4567890123456789"
    = Ok "4567890123456789".
Proof.
  split.
  - refine (proj2 (extract_status_id_shapes "https://m." EmptyString "4567890123456789"
      "?from=page" _ _ _ _) _); reflexivity.
  - refine (proj1 (extract_status_id_shapes "https://" "123456" "4567890123456789"
      EmptyString _ _ _ _) _ _); reflexivity.
Defined.

(** ** The fields of a Xiaohongshu page *)

Section page_patterns.

Import PyStr.

Lemma head_app a b : nonempty a = true → head (a ++ b) = head a.
Proof. by destruct a. Qed.

(** The pattern of a field at the place where the field stands. *)
Lemma match_field_here key opener prefix ws1 ws2 body rest :
  all_chars is_space ws1 = true → all_chars is_space ws2 = true →
  Spec.goes_on_with is_space (opener ++ String dquote EmptyString) = false →
  nonempty body = true → all_chars Pattern.not_dquote body = true →
  Pattern.match_field key opener prefix
    (Pattern.quoted key ++ ws1 ++ ":" ++ ws2 ++ opener ++ Pattern.quoted (prefix ++ body) ++ rest)
  = Some (prefix ++ body).
Proof.
  intros H1 H2 Hopener Hne Hbody. unfold Pattern.match_field.
  rewrite after_prefix_here. cbn -[after_prefix span String.append].
  rewrite (span_here is_space ws1) by done. cbn -[after_prefix span String.append].
  rewrite after_prefix_here. cbn -[after_prefix span String.append].
  assert (opener ++ Pattern.quoted (prefix ++ body) ++ rest
          = (opener ++ String dquote EmptyString) ++ prefix ++ body ++ String dquote rest) as ->.
  { unfold Pattern.quoted. by rewrite !str_app_assoc, !str_app_cons, !str_app_assoc. }
  rewrite (span_here is_space ws2).
  2: done.
  2: { unfold Spec.goes_on_with in Hopener. rewrite head_app; [done|]. by destruct opener. }
  cbn -[after_prefix span String.append].
  rewrite after_prefix_here. cbn -[after_prefix span String.append].
  rewrite after_prefix_here. cbn -[after_prefix span String.append].
  rewrite (span_here Pattern.not_dquote body) by done.
  rewrite Hne. by cbn.
Qed.

(** A field pattern matches nowhere but at a double quote. *)
Lemma match_field_first key opener prefix c t :
  Ascii.eqb c dquote = false → Pattern.match_field key opener prefix (String c t) = None.
Proof.
  intros H. unfold Pattern.match_field, Pattern.quoted. cbn [after_prefix].
  by rewrite Ascii.eqb_sym, H.
Qed.

Lemma search_field key opener prefix pre ws1 ws2 body rest :
  mem dquote pre = false →
  all_chars is_space ws1 = true → all_chars is_space ws2 = true →
  Spec.goes_on_with is_space (opener ++ String dquote EmptyString) = false →
  nonempty body = true → all_chars Pattern.not_dquote body = true →
  Re.search (Pattern.match_field key opener prefix)
    (pre ++ Pattern.quoted key ++ ws1 ++ ":" ++ ws2 ++ opener
         ++ Pattern.quoted (prefix ++ body) ++ rest)
  = Some (prefix ++ body).
Proof.
  intros Hpre%mem_all_chars H1 H2 Hopener Hne Hbody.
  rewrite (search_skip _ (fun c => Ascii.eqb c dquote) pre);
    [|apply match_field_first|done..].
  apply search_here. by apply match_field_here.
Qed.

End page_patterns.

(** X3: what the Xiaohongshu scraper finds in a page.  If the first double
    quote of the page opens a field [masterUrl] whose value is a string
    that starts with [http] and goes on, then that string is what the
    search for the media URL finds, whatever white space surrounds the
    colon; the same holds for the first string of a list [backupUrls], and
    for a field [title] with a value that is not empty.  A [title] whose
    value is the empty string is not a match at that place. *)
Theorem xhs_page_fields (pre ws1 ws2 body rest : string) :
  PyStr.mem PyStr.dquote pre = false →
  PyStr.all_chars PyStr.is_space ws1 = true → PyStr.all_chars PyStr.is_space ws2 = true →
  PyStr.nonempty body = true → PyStr.mem PyStr.dquote body = false →
  Re.search Pattern.master_url
    (pre ++ Pattern.quoted "masterUrl" ++ ws1 ++ ":" ++ ws2
         ++ Pattern.quoted ("http" ++ body) ++ rest) = Some ("http" ++ body)
  ∧ Re.search Pattern.backup_urls
      (pre ++ Pattern.quoted "backupUrls" ++ ws1 ++ ":" ++ ws2 ++ "["
           ++ Pattern.quoted ("http" ++ body) ++ rest) = Some ("http" ++ body)
  ∧ Re.search Pattern.title
      (pre ++ Pattern.quoted "title" ++ ws1 ++ ":" ++ ws2 ++ Pattern.quoted body ++ rest)
    = Some body
  ∧ Pattern.title (Pattern.quoted "title" ++ ws1 ++ ":" ++ ws2 ++ Pattern.quoted "" ++ rest)
    = None.
Proof.
  intros Hpre H1 H2 Hne Hbody%mem_all_chars.
  assert (PyStr.all_chars Pattern.not_dquote body = true) as Hb by done.
  split_and!.
  - by apply (search_field "masterUrl" "" "http").
  - by apply (search_field "backupUrls" "[" "http").
  - by apply (search_field "title" "" "" pre ws1 ws2 body rest).
  - unfold Pattern.title, Pattern.match_field.
    rewrite after_prefix_here. cbn -[PyStr.after_prefix PyStr.span String.append].
    rewrite (span_here PyStr.is_space ws1) by done.
    cbn -[PyStr.after_prefix PyStr.span String.append].
    rewrite after_prefix_here. cbn -[PyStr.after_prefix PyStr.span String.append].
    rewrite (span_here PyStr.is_space ws2) by done.
    by cbn.
Qed.

Lemma xhs_page_fields_witness :
  Re.search Pattern.master_url Sample.trip_html = Some "https://cdn.example/v.mp4".
Proof.
  refine (proj1 (xhs_page_fields "{" EmptyString EmptyString "s://cdn.example/v.mp4"
    ("," ++ Pattern.quoted "title" ++ ":" ++ Pattern.quoted "My Trip" ++ "}") _ _ _ _ _));
    reflexivity.
Defined.
(** ** Computations that only read *)

Section read_only.

Context (w : World).

Lemma transfers_app l1 l2 :
  Spec.transfers (l1 ++ l2) = (Spec.transfers l1 ++ Spec.transfers l2)%list.
Proof. apply omap_app. Qed.

Lemma reads_only_ret {A} (a : A) (post : A → Prop) : post a → Spec.reads_only (ret a) post.
Proof. intros H fs. split_and!; [done..|]. by intros ? [= <-]. Qed.

Lemma reads_only_raise {A} e (post : A → Prop) : Spec.reads_only (raise e) post.
Proof. intros fs. by split_and!. Qed.

Lemma reads_only_lift {A} (r : result A) (post : A → Prop) :
  (∀ a, r = Ok a → post a) → Spec.reads_only (lift r) post.
Proof. intros H fs. by split_and!. Qed.

Lemma reads_only_bind {A B} (c : M A) (k : A → M B) (mid : A → Prop) (post : B → Prop) :
  Spec.reads_only c mid → (∀ a, mid a → Spec.reads_only (k a) post) →
  Spec.reads_only (bind c k) post.
Proof.
  intros Hc Hk fs. destruct (Hc fs) as (Hf & Ht & Hv). unfold bind.
  destruct (value_of (c fs)) as [a|e]; simpl; [|done].
  rewrite Hf, transfers_app, Ht. apply Hk. by apply Hv.
Qed.

Lemma reads_only_weaken {A} (c : M A) (post post' : A → Prop) :
  Spec.reads_only c post → (∀ a, post a → post' a) → Spec.reads_only c post'.
Proof.
  intros Hc H fs. destruct (Hc fs) as (Hf & Ht & Hv).
  split_and!; [done..|]. intros a Ha. by apply H, Hv.
Qed.

Lemma reads_only_try_except {A} (c : M A) (h : error → M A) (post : A → Prop) :
  Spec.reads_only c post → (∀ e, Spec.reads_only (h e) post) →
  Spec.reads_only (try_except c h) post.
Proof.
  intros Hc Hh fs. destruct (Hc fs) as (Hf & Ht & Hv). unfold try_except.
  destruct (value_of (c fs)) as [a|e] eqn:E; simpl.
  - split_and!; [done..|]. by rewrite E.
  - rewrite Hf, transfers_app, Ht. apply Hh.
Qed.

Lemma reads_only_emit e :
  Spec.transfer_target e = None → Spec.reads_only (emit e) (fun _ => True).
Proof. intros H fs. simpl. unfold Spec.transfers. simpl. by rewrite H. Qed.

Lemma reads_only_path_exists p : Spec.reads_only (path_exists p) (fun _ => True).
Proof. intros fs. by split_and!. Qed.

Lemma reads_only_session_get s url timeout :
  Spec.reads_only (session_get w s url timeout) (fun _ => True).
Proof.
  unfold session_get. eapply reads_only_bind; [by apply reads_only_emit|].
  intros _ _. by apply reads_only_lift.
Qed.

Lemma reads_only_raise_for_status r : Spec.reads_only (raise_for_status r) (fun _ => True).
Proof.
  unfold raise_for_status. destruct (resp_status r); [apply reads_only_raise|by apply reads_only_ret].
Qed.

End read_only.

(** ** What the locators return *)

Section titles.

Import PyStr PyVal.

Lemma sanitize_safe s : Spec.safe_title (sanitize_filename s) = true.
Proof.
  unfold Spec.safe_title.
  rewrite sanitize_nonempty, sanitize_valid. simpl.
  apply Nat.leb_le, sanitize_length.
Qed.

Lemma startswith_app p r : startswith p (p ++ r) = true.
Proof.
  induction p as [|c p IH]; [by simpl|].
  rewrite str_app_cons. simpl. by rewrite Ascii.eqb_refl.
Qed.

Lemma xhs_matched_shape w html g :
  Spec.reads_only (XiaohongshuDownloader.matched w html g)
    (fun r => (∃ s, r.1 = VStr s) ∧ Spec.safe_title r.2 = true).
Proof.
  unfold XiaohongshuDownloader.matched.
  eapply reads_only_bind; [by apply (reads_only_lift _ (fun _ => True))|].
  intros s _. apply reads_only_ret. simpl. split; [by eexists|].
  destruct (Re.search Pattern.title html); [apply sanitize_safe|done].
Qed.

End titles.

(** X4: what the Xiaohongshu locator returns.  Looking a video up leaves
    the files as they are, and whenever it succeeds the media URL is a
    string and the title is fit for a file name: it is not empty, it has at
    most 50 characters, and none of them is forbidden. *)
Theorem xhs_video_info_shape (w : World) (url : string) (fs : gset string) :
  let o := XiaohongshuDownloader.get_video_info w url fs in
  files o = fs
  ∧ ∀ u t, value_of o = Ok (u, t) → (∃ s, u = VStr s) ∧ Spec.safe_title t = true.
Proof.
  cbv zeta.
  enough (Spec.reads_only (XiaohongshuDownloader.get_video_info w url)
            (fun r => (∃ s, r.1 = VStr s) ∧ Spec.safe_title r.2 = true)) as H.
  { destruct (H fs) as (Hf & _ & Hv). split; [done|]. intros u t Hr. apply (Hv _ Hr). }
  unfold XiaohongshuDownloader.get_video_info.
  eapply (reads_only_bind _ _ (fun _ => True)).
  { destruct (PyStr.contains "xhslink.com" url); [|by apply reads_only_ret].
    eapply reads_only_bind; [apply reads_only_session_get|].
    intros r _. by apply reads_only_ret. }
  intros page _. eapply reads_only_bind; [apply reads_only_session_get|].
  intros r _. eapply reads_only_bind; [apply reads_only_raise_for_status|].
  intros _ _.
  destruct (Re.search Pattern.master_url (resp_text r)) as [g|]; [apply xhs_matched_shape|].
  destruct (Re.search Pattern.backup_urls (resp_text r)) as [g|]; [apply xhs_matched_shape|].
  apply reads_only_raise.
Qed.

Lemma xhs_video_info_shape_witness : Spec.safe_title "My Trip" = true.
Proof.
  refine (proj2 (proj2 (xhs_video_info_shape Sample.short_world Sample.short_payload ∅)
    (VStr "https://cdn.example/v.mp4") "My Trip" _)).
  reflexivity.
Defined.
Section locators.

Import PyStr PyVal.

Lemma derive_title_dict w status :
  WeiboDownloader.derive_title w (VDict status) =
  (text ← strip_tags (default (VStr "") (status !! "text"));
   user_name ← get (default (dict []) (status !! "user")) "screen_name" (VStr "weibo");
   Ok (if nonempty text then sanitize_filename text
       else "weibo_" ++ format_value w user_name)).
Proof.
  unfold WeiboDownloader.derive_title. simpl.
  destruct (strip_tags _); [|done]. simpl. by destruct (get _ _ _).
Qed.

(** The loop over the formats stops at the first progressive one. *)
Lemma first_progressive_find formats :
  forallb Spec.is_object formats = true →
  InstagramDownloader.first_progressive formats =
  Ok (from_option (fun fmt => Spec.field fmt "url") VNone (find Spec.progressive formats)).
Proof.
  induction formats as [|fmt formats IH]; [done|].
  intros [Hfmt Hrest]%andb_prop. destruct fmt as [| | | | | | |d]; try done.
  cbn [InstagramDownloader.first_progressive find]. unfold Spec.progressive. simpl.
  destruct (eq_str (default VNone (d !! "ext")) "mp4"); simpl; [|by apply IH].
  destruct (eq_str (default VNone (d !! "acodec")) "none"); simpl; [by apply IH|].
  destruct (eq_str (default VNone (d !! "vcodec")) "none"); simpl; [by apply IH|].
  done.
Qed.

End locators.

(** X5: the title of a Weibo post.  A title that is derived is never
    empty: it is fit for a file name, or it starts with [weibo_].  It is
    fit for a file name whenever the text of the post, once its tags are
    removed, is not empty.  A post without text and without user is called
    [weibo_weibo]. *)
Theorem weibo_title (w : World) (status : gmap string value) :
  (∀ t, WeiboDownloader.derive_title w (VDict status) = Ok t →
     PyStr.nonempty t = true
     ∧ (Spec.safe_title t = true ∨ PyStr.startswith "weibo_" t = true))
  ∧ (∀ t text, status !! "text" = Some (VStr text) →
       PyStr.nonempty (Re.sub_empty Re.match_tag 0 text) = true →
       WeiboDownloader.derive_title w (VDict status) = Ok t →
       Spec.safe_title t = true)
  ∧ (status !! "text" = None → status !! "user" = None →
     WeiboDownloader.derive_title w (VDict status) = Ok "weibo_weibo").
Proof.
  rewrite derive_title_dict. split_and!.
  - intros t Ht. destruct (strip_tags _) as [text|]; [|done]. simpl in Ht.
    destruct (get _ _ _) as [name|]; [|done]. simpl in Ht. injection Ht as <-.
    destruct (PyStr.nonempty text).
    + split; [apply sanitize_nonempty|left; apply sanitize_safe].
    + split; [done|right]. apply startswith_app.
  - intros t text -> Hne. simpl. rewrite Hne.
    destruct (get _ _ _) as [name|]; [|done]. simpl. intros [= <-]. apply sanitize_safe.
  - by intros -> ->.
Qed.

Lemma weibo_title_witness :
  Spec.safe_title "@x sunset" = true
  ∧ WeiboDownloader.derive_title Sample.silent (VDict ∅) = Ok "weibo_weibo".
Proof.
  split.
  - refine (proj1 (proj2 (weibo_title Sample.silent
      {[ "text" := VStr "<a href='/n/x'>@x</a> sunset" ]})) "@x sunset" _ _ _ _); reflexivity.
  - refine (proj2 (proj2 (weibo_title Sample.silent ∅)) _ _); reflexivity.
Defined.

(** X6: the media URL and the title of an Instagram post.  For an info
    object whose formats are a list of objects, the media URL is the URL of
    the first format that is an MP4 with sound and picture, and the URL of
    the post itself when there is no such format or when that format has
    no URL; later progressive formats are not looked at.  If neither
    yields a URL the failure is [NoInstagramVideoUrl].  A result always
    has a media URL that is not empty and a title that is not empty: the
    sanitised description, or [instagram_] followed by the channel (the
    id, [video]) when the description is empty. *)
Theorem instagram_media_url (w : World) (info : gmap string value) (formats : list value) :
  info ≠ ∅ →
  default (VList []) (info !! "formats") = VList formats →
  forallb Spec.is_object formats = true →
  let chosen := Spec.instagram_choice (VDict info) formats in
  (PyVal.truthy chosen = false →
   InstagramDownloader._parse_video_info w (VDict info) = Err NoInstagramVideoUrl)
  ∧ (∀ u t, InstagramDownloader._parse_video_info w (VDict info) = Ok (u, t) →
       u = chosen ∧ PyVal.truthy u = true ∧ PyStr.nonempty t = true
       ∧ (Spec.safe_title t = true ∨ PyStr.startswith "instagram_" t = true))
  ∧ (∀ description, default (VStr "") (info !! "description") = VStr description →
       PyVal.truthy chosen = true →
       InstagramDownloader._parse_video_info w (VDict info) =
       Ok (chosen,
           if PyStr.nonempty description then sanitize_filename description
           else "instagram_" ++ format_value w
                  (default (default (VStr "video") (info !! "id")) (info !! "channel")))).
Proof.
  intros Hne Hformats Hobjects chosen.
  assert (InstagramDownloader._parse_video_info w (VDict info) =
    (if negb (PyVal.truthy chosen) then Err NoInstagramVideoUrl else
     title ← (if PyVal.truthy (default (VStr "") (info !! "description"))
              then VStr <$> sanitize_value (default (VStr "") (info !! "description"))
              else Ok (default (VStr "") (info !! "description")));
     title ← (if negb (PyVal.truthy title)
              then Ok (VStr ("instagram_" ++ format_value w
                        (default (default (VStr "video") (info !! "id")) (info !! "channel"))))
              else Ok title);
     Ok (chosen, format_value w title))) as ->.
  { unfold InstagramDownloader._parse_video_info. simpl.
    rewrite bool_decide_eq_false_2 by done. simpl.
    rewrite Hformats. simpl. rewrite first_progressive_find by done. simpl.
    fold (Spec.field (VDict info) "url").
    unfold chosen, Spec.instagram_choice, PyVal.or_else.
    destruct (PyVal.truthy (from_option (fun fmt => Spec.field fmt "url") VNone
                (find Spec.progressive formats))) eqn:E; simpl.
    - rewrite E. simpl. done.
    - unfold Spec.field. destruct (PyVal.truthy (default VNone (info !! "url"))); simpl; done. }
  split_and!.
  - by intros ->.
  - intros u t Hr. destruct (PyVal.truthy chosen) eqn:E; simpl in Hr; [|done].
    destruct (PyVal.truthy (default (VStr "") (info !! "description"))) eqn:Et.
    + destruct (default (VStr "") (info !! "description")) as [| | | |d| | |]; try done.
      simpl in Hr. rewrite sanitize_nonempty in Hr. simpl in Hr. injection Hr as <- <-.
      split_and!; [done..|apply sanitize_nonempty|left; apply sanitize_safe].
    + simpl in Hr. rewrite Et in Hr. simpl in Hr. injection Hr as <- <-.
      split_and!; [done..|right; apply startswith_app].
  - intros description -> ->. simpl.
    destruct description as [|c d]; simpl; [done|].
    by rewrite sanitize_nonempty.
Qed.

Lemma instagram_media_url_witness :
  InstagramDownloader._parse_video_info Sample.silent Sample.info
  = Ok (VStr "https://cdn.ig/muxed.mp4", "instagram_someone").
Proof.
  refine (eq_trans (proj2 (proj2 (instagram_media_url Sample.silent
    (list_to_map
       [("id", VStr "Cxyz"); ("channel", VStr "someone"); ("description", VStr "");
        ("formats", VList [PyVal.dict [("ext", VStr "mp4"); ("acodec", VStr "none");
                                       ("vcodec", VStr "avc1");
                                       ("url", VStr "https://cdn.ig/video-only.mp4")];
                           PyVal.dict [("ext", VStr "mp4"); ("acodec", VStr "mp4a");
                                       ("vcodec", VStr "avc1");
                                       ("url", VStr "https://cdn.ig/muxed.mp4")]])])
    _ _ _ _)) EmptyString _ _) _); try reflexivity.
  intros H. apply (f_equal (fun m => m !! "id")) in H. discriminate H.
Defined.

(** ** Downloads never overwrite *)

Section careful.

Context (w : World).



Lemma reads_only_first_text d : Spec.reads_only (first_text d) (fun _ => True).
Proof. destruct d; [by apply reads_only_ret|apply reads_only_raise]. Qed.

Lemma reads_only_try_decode i (otherwise : M string) :
  Spec.reads_only otherwise (fun _ => True) → Spec.reads_only (try_decode w i otherwise) (fun _ => True).
Proof.
  intros H. unfold try_decode. eapply reads_only_bind; [by apply reads_only_emit|].
  intros _ _. destruct (pyzbar_decode w i); [done|apply reads_only_first_text].
Qed.

Lemma reads_only_for_scales prepare scales (otherwise : M string) :
  Spec.reads_only otherwise (fun _ => True) →
  Spec.reads_only (for_scales w prepare scales otherwise) (fun _ => True).
Proof.
  intros H. induction scales as [|scale scales IH]; [done|].
  by apply reads_only_try_decode.
Qed.

Lemma reads_only_scan_regions image_path :
  Spec.reads_only (scan_regions w image_path) (fun _ => True).
Proof.
  unfold scan_regions.
  repeat first [apply reads_only_for_scales | apply reads_only_try_decode].
  apply reads_only_raise.
Qed.

Lemma reads_only_detect_and_decode image_path :
  Spec.reads_only (detect_and_decode w image_path) (fun _ => True).
Proof.
  unfold detect_and_decode. eapply reads_only_bind; [by apply reads_only_emit|].
  intros _ _. destruct (cv_detect w (Imread image_path)) as [data vertices].
  destruct (PyStr.nonempty data); [by apply reads_only_ret|].
  destruct vertices as [[|q ?]|]; try apply reads_only_scan_regions.
  cbv zeta. destruct (qr_region_is_empty w image_path q); [apply reads_only_raise|].
  apply reads_only_try_decode, reads_only_scan_regions.
Qed.

Lemma reads_only_read_qrcode image_path : Spec.reads_only (read_qrcode w image_path) (fun _ => True).
Proof.
  unfold read_qrcode. eapply reads_only_bind; [apply reads_only_path_exists|].
  intros [] _; cbn [negb]; [|apply reads_only_raise].
  eapply reads_only_bind; [by apply reads_only_emit|]. intros _ _.
  destruct (pil_open w image_path); [apply reads_only_raise|].
  apply reads_only_try_decode.
  eapply reads_only_bind; [by apply reads_only_emit|]. intros _ _.
  destruct (cv_readable w image_path); cbn [negb];
    [apply reads_only_detect_and_decode|apply reads_only_raise].
Qed.

Lemma reads_only_legacy_read_qrcode image_path :
  Spec.reads_only (Legacy.read_qrcode w image_path) (fun _ => True).
Proof.
  unfold Legacy.read_qrcode. eapply reads_only_bind; [apply reads_only_path_exists|].
  intros [] _; cbn [negb]; [|apply reads_only_raise].
  eapply reads_only_bind; [by apply reads_only_emit|]. intros _ _.
  destruct (pil_open w image_path); [apply reads_only_raise|].
  eapply reads_only_bind; [by apply reads_only_emit|]. intros _ _.
  destruct (pyzbar_decode w _); [apply reads_only_raise|apply reads_only_first_text].
Qed.

Lemma reads_only_xhs_get_video_info url :
  Spec.reads_only (XiaohongshuDownloader.get_video_info w url) (fun _ => True).
Proof.
  unfold XiaohongshuDownloader.get_video_info.
  eapply (reads_only_bind _ _ (fun _ => True)).
  { destruct (PyStr.contains "xhslink.com" url); [|by apply reads_only_ret].
    eapply reads_only_bind; [apply reads_only_session_get|].
    intros r _. by apply reads_only_ret. }
  intros page _. eapply reads_only_bind; [apply reads_only_session_get|].
  intros r _. eapply reads_only_bind; [apply reads_only_raise_for_status|].
  intros _ _.
  assert (∀ g, Spec.reads_only (XiaohongshuDownloader.matched w (resp_text r) g) (fun _ => True)) as H.
  { intros g. unfold XiaohongshuDownloader.matched.
    eapply reads_only_bind; [by apply (reads_only_lift _ (fun _ => True))|].
    intros s _. by apply reads_only_ret. }
  destruct (Re.search Pattern.master_url (resp_text r)) as [g|]; [apply H|].
  destruct (Re.search Pattern.backup_urls (resp_text r)) as [g|]; [apply H|].
  apply reads_only_raise.
Qed.

Lemma reads_only_weibo_get_video_info url :
  Spec.reads_only (WeiboDownloader.get_video_info w url) (fun _ => True).
Proof.
  unfold WeiboDownloader.get_video_info.
  eapply reads_only_bind; [by apply (reads_only_lift _ (fun _ => True))|]. intros status_id _.
  eapply reads_only_bind; [apply reads_only_session_get|]. intros r _.
  eapply reads_only_bind; [apply reads_only_raise_for_status|]. intros _ _.
  eapply reads_only_bind; [by apply (reads_only_lift _ (fun _ => True))|]. intros data _.
  by apply reads_only_lift.
Qed.

Lemma reads_only_instagram_get_video_info self url :
  Spec.reads_only (InstagramDownloader.get_video_info w self url) (fun _ => True).
Proof.
  assert (∀ opts, Spec.reads_only
    (do info <- InstagramDownloader._extract_info w url opts;
     lift (InstagramDownloader._parse_video_info w info)) (fun _ => True)) as H.
  { intros opts. eapply (reads_only_bind _ _ (fun _ => True)); [|by intros; apply reads_only_lift].
    unfold InstagramDownloader._extract_info.
    eapply reads_only_bind; [by apply reads_only_emit|]. intros _ _. by apply reads_only_lift. }
  unfold InstagramDownloader.get_video_info. apply reads_only_try_except; [apply H|].
  intros e. destruct (InstagramDownloader.wants_cookies e); [apply H|apply reads_only_raise].
Qed.

Lemma transfers_exists (l : list string) : Spec.transfers (Exists <$> l) = [].
Proof. induction l as [|p l IH]; [done|]. by rewrite fmap_cons. Qed.

(** The path [get_unique_path] returns does not exist. *)
Lemma get_unique_path_fresh P fs :
  files (get_unique_path P fs) = fs
  ∧ Spec.transfers (trace (get_unique_path P fs)) = []
  ∧ ∀ p, value_of (get_unique_path P fs) = Ok p → p ∉ fs.
Proof.
  rewrite get_unique_path_unfold. destruct (decide (P ∈ fs)) as [HP|HP].
  - rewrite bool_decide_eq_true_2 by done. cbv zeta.
    destruct (free_exists fs (OsPath.splitext P).1 (OsPath.splitext P).2 1)
      as (n & Hn & Hall & Hout).
    rewrite (unique_loop_finds fs _ _ n 1%N P (2 + size fs) HP Hall Hout) by lia.
    cbn [files value_of trace]. split_and!; [done| |by intros p [= <-]].
    apply (transfers_exists (P :: P :: _)).
  - rewrite bool_decide_eq_false_2 by done. split_and!; [done|reflexivity|].
    by intros p [= <-].
Qed.

Lemma avoid_overwriting_fresh P fs :
  files (Legacy.avoid_overwriting P fs) = fs
  ∧ Spec.transfers (trace (Legacy.avoid_overwriting P fs)) = []
  ∧ ∀ p, value_of (Legacy.avoid_overwriting P fs) = Ok p → p ∉ fs.
Proof.
  rewrite avoid_overwriting_unfold. destruct (decide (P ∈ fs)) as [HP|HP].
  - destruct (free_exists fs (OsPath.splitext P).1 (OsPath.splitext P).2 1)
      as (n & Hn & Hall & Hout).
    rewrite (unique_loop_finds fs _ _ n 1%N P (2 + size fs) HP Hall Hout) by lia.
    cbn [files value_of trace]. split_and!; [done| |by intros p [= <-]].
    apply (transfers_exists (P :: _)).
  - cbn [Nat.add]. rewrite unique_loop_step, bool_decide_eq_false_2 by done.
    split_and!; [done|reflexivity|]. by intros p [= <-].
Qed.

Lemma careful_bind {A B} (c : M A) (k : A → M B) (path_of : B → string) fs :
  files (c fs) = fs → Spec.transfers (trace (c fs)) = [] →
  (∀ a, value_of (c fs) = Ok a → Spec.careful path_of fs (k a fs)) →
  Spec.careful path_of fs (bind c k fs).
Proof.
  intros Hf Ht Hk. unfold bind. destruct (value_of (c fs)) as [a|e]; [|by left].
  specialize (Hk a eq_refl). rewrite Hf. unfold Spec.careful in *.
  cbn [trace files value_of]. by rewrite transfers_app, Ht.
Qed.

Lemma careful_after {A B} (c : M A) (k : A → M B) (path_of : B → string) fs :
  Spec.reads_only c (fun _ => True) → (∀ a, Spec.careful path_of fs (k a fs)) →
  Spec.careful path_of fs (bind c k fs).
Proof.
  intros Hc Hk. destruct (Hc fs) as (Hf & Ht & _). by apply careful_bind.
Qed.

Lemma careful_download_video s video_url p referer fs :
  p ∉ fs → Spec.careful id fs (download_video w s video_url p referer fs).
Proof.
  intros Hp. unfold download_video, bind, emit, create_file, raise, ret. simpl.
  right. exists p.
  destruct (http_stream w s video_url referer p); simpl; split_and!; auto.
Qed.

(** The three downloaders end in the same way: a path that does not
    exist is looked for, and the transfer goes there. *)
Lemma careful_fetch s video_url P referer fs :
  Spec.careful id fs
    ((do output_path <- get_unique_path P;
      download_video w s video_url output_path referer) fs).
Proof.
  destruct (get_unique_path_fresh P fs) as (Hf & Ht & Hp).
  apply careful_bind; [done..|]. intros p Hv. by apply careful_download_video, Hp.
Qed.

Lemma careful_dispatch p cookies_from_browser cookies_file url output_dir fs :
  Spec.careful id fs (dispatch w p cookies_from_browser cookies_file url output_dir fs).
Proof.
  destruct p; simpl.
  - unfold WeiboDownloader.download.
    apply careful_after; [apply reads_only_weibo_get_video_info|].
    intros [video_url title]. apply careful_fetch.
  - unfold XiaohongshuDownloader.download.
    apply careful_after; [apply reads_only_xhs_get_video_info|].
    intros [video_url title]. apply careful_fetch.
  - unfold InstagramDownloader.download.
    apply careful_after; [apply reads_only_instagram_get_video_info|].
    intros [video_url title]. apply careful_fetch.
Qed.

Lemma careful_reraise cls (c : M string) (f : error → error) fs :
  Spec.careful id fs (c fs) →
  Spec.careful id fs (Legacy.try_except_class cls c (fun e => raise (f e)) fs).
Proof.
  intros Hc. unfold Legacy.try_except_class, try_except.
  destruct (value_of (c fs)) as [a|e] eqn:Hv; [done|].
  assert (∃ e', (match exn_class_of e, cls with
    | RequestException, RequestException => raise (f e)
    | JSONDecodeError, JSONDecodeError => raise (f e)
    | _, _ => raise e end) (files (c fs)) = Outcome [] (files (c fs)) (@Err string e'))
    as [e' ->].
  { destruct (exn_class_of e), cls; eauto. }
  unfold Spec.careful in *. cbn [trace files value_of]. rewrite List.app_nil_r.
  by rewrite Hv in Hc.
Qed.

Lemma reads_only_reraise {A} cls (c : M A) (f : error → error) :
  Spec.reads_only c (fun _ => True) →
  Spec.reads_only (Legacy.try_except_class cls c (fun e => raise (f e))) (fun _ => True).
Proof.
  intros Hc. unfold Legacy.try_except_class. apply reads_only_try_except; [done|].
  intros e. destruct (exn_class_of e), cls; apply reads_only_raise.
Qed.

Lemma careful_download_from_url url output_dir cookies_from_browser cookies_file fs :
  Spec.careful id fs
    (download_from_url w url output_dir cookies_from_browser cookies_file fs).
Proof.
  unfold download_from_url.
  apply careful_after; [by apply reads_only_lift|]. intros p. apply careful_dispatch.
Qed.

Lemma careful_download_from_screenshot screenshot_path output_dir
    cookies_from_browser cookies_file fs :
  Spec.careful fst fs
    (download_from_screenshot w screenshot_path output_dir
       cookies_from_browser cookies_file fs).
Proof.
  unfold download_from_screenshot.
  apply careful_after; [apply reads_only_read_qrcode|]. intros qr_url.
  apply careful_after; [by apply reads_only_lift|]. intros p.
  pose proof (careful_dispatch p cookies_from_browser cookies_file qr_url
    (match output_dir with
     | Some d => d
     | None => OsPath.dirname (os_abspath w screenshot_path)
     end) fs) as H.
  unfold bind, ret, Spec.careful in *. destruct (value_of _) as [path|e];
    cbn [trace files value_of]; rewrite ?List.app_nil_r; done.
Qed.

Lemma careful_legacy_download_from_screenshot screenshot_path output_dir fs :
  Spec.careful id fs (Legacy.download_from_screenshot w screenshot_path output_dir fs).
Proof.
  unfold Legacy.download_from_screenshot.
  apply careful_after; [apply reads_only_legacy_read_qrcode|]. intros qr_url.
  apply careful_after.
  { destruct (_ || _); [|by apply reads_only_ret].
    apply reads_only_reraise. eapply reads_only_bind; [apply reads_only_session_get|].
    intros r _. by apply reads_only_ret. }
  intros page_url. apply careful_after.
  { apply reads_only_reraise. eapply reads_only_bind; [apply reads_only_session_get|].
    intros r _. eapply reads_only_bind; [apply reads_only_raise_for_status|].
    intros _ _. by apply reads_only_lift. }
  intros [video_url title].
  destruct (avoid_overwriting_fresh
    (OsPath.join (match output_dir with
                  | Some d => d
                  | None => OsPath.dirname (os_abspath w screenshot_path)
                  end) (title ++ ".mp4")) fs) as (Hf & Ht & Hp).
  apply careful_bind; [done..|]. intros p Hv.
  apply careful_reraise, careful_download_video, Hp, Hv.
Qed.

End careful.

(** X7: downloads never overwrite.  In every run of the two entry points
    and of the legacy entry point, at most one transfer is made, and it
    goes to a path at which nothing existed when the run began.  After the
    run the files are the ones that were there, with at most the target of
    the transfer added; and when the run succeeds, the path it returns is
    that target, and it exists. *)
Theorem downloads_never_overwrite (w : World) (fs : gset string) :
  (∀ url output_dir cookies_from_browser cookies_file,
     Spec.careful id fs
       (download_from_url w url output_dir cookies_from_browser cookies_file fs))
  ∧ (∀ screenshot_path output_dir cookies_from_browser cookies_file,
       Spec.careful fst fs
         (download_from_screenshot w screenshot_path output_dir
            cookies_from_browser cookies_file fs))
  ∧ (∀ screenshot_path output_dir,
       Spec.careful id fs (Legacy.download_from_screenshot w screenshot_path output_dir fs)).
Proof.
  split_and!.
  - intros. apply careful_download_from_url.
  - intros. apply careful_download_from_screenshot.
  - intros. apply careful_legacy_download_from_screenshot.
Qed.

(** ** The entry points *)

Section entry_points.

Context (w : World).

Lemma download_from_url_unfold url output_dir cookies_from_browser cookies_file fs :
  download_from_url w url output_dir cookies_from_browser cookies_file fs =
  match detect_platform url with
  | Ok p =>
      dispatch w p cookies_from_browser cookies_file url
        (match output_dir with Some d => d | None => os_getcwd w end) fs
  | Err e => Outcome [] fs (Err e)
  end.
Proof.
  unfold download_from_url. rewrite bind_lift. by destruct (detect_platform url).
Qed.

Lemma dispatch_cookies p cookies_from_browser cookies_file url output_dir fs :
  p ≠ Instagram →
  dispatch w p cookies_from_browser cookies_file url output_dir fs
  = dispatch w p None None url output_dir fs.
Proof. by destruct p. Qed.

Lemma download_from_screenshot_unfold screenshot_path output_dir
    cookies_from_browser cookies_file fs :
  download_from_screenshot w screenshot_path output_dir cookies_from_browser cookies_file fs =
  let decoded := read_qrcode w screenshot_path fs in
  match value_of decoded with
  | Err e => Outcome (trace decoded) fs (Err e)
  | Ok qr_url =>
      match detect_platform qr_url with
      | Err e => Outcome (trace decoded) fs (Err e)
      | Ok p =>
          let o := dispatch w p cookies_from_browser cookies_file qr_url
                     (match output_dir with
                      | Some d => d
                      | None => OsPath.dirname (os_abspath w screenshot_path)
                      end) fs in
          Outcome (trace decoded ++ trace o) (files o)
            ((fun output_path => (output_path, p)) <$> value_of o)
      end
  end.
Proof.
  cbv zeta. unfold download_from_screenshot.
  pose proof (read_qrcode_files w screenshot_path fs) as Hf.
  unfold bind at 1. destruct (value_of (read_qrcode w screenshot_path fs)) as [qr_url|e].
  - rewrite Hf, bind_lift.
    destruct (detect_platform qr_url) as [p|e]; cbn [trace files value_of];
      [|by rewrite List.app_nil_r].
    unfold bind, ret. destruct (value_of (dispatch _ _ _ _ _ _ _));
      cbn [trace files value_of]; by rewrite ?List.app_nil_r.
  - by rewrite Hf.
Qed.

End entry_points.

(** X8: the screenshot entry point is the decoder followed by the URL
    entry point.  When the decoder fails, so does the run, with the same
    failure and the same calls.  When it returns a payload, the run goes
    on as [download_from_url] does on that payload with the directory of
    the screenshot (or the directory asked for) as output directory: the
    same calls, the same files, the same result, to which the platform of
    the payload is added. *)
Theorem screenshot_is_decode_then_url (w : World) (screenshot_path : string)
    (output_dir cookies_from_browser cookies_file : option string) (fs : gset string) :
  let decoded := read_qrcode w screenshot_path fs in
  let o := download_from_screenshot w screenshot_path output_dir
             cookies_from_browser cookies_file fs in
  let directory :=
    match output_dir with
    | Some d => d
    | None => OsPath.dirname (os_abspath w screenshot_path)
    end in
  match value_of decoded with
  | Err e => o = Outcome (trace decoded) fs (Err e)
  | Ok qr_url =>
      let o' := download_from_url w qr_url (Some directory)
                  cookies_from_browser cookies_file fs in
      trace o = (trace decoded ++ trace o')%list
      ∧ files o = files o'
      ∧ value_of o = (output_path ← value_of o';
                      platform ← detect_platform qr_url;
                      Ok (output_path, platform))
  end.
Proof.
  cbv zeta. rewrite download_from_screenshot_unfold. cbv zeta.
  destruct (value_of (read_qrcode w screenshot_path fs)) as [qr_url|e]; [|done].
  rewrite download_from_url_unfold.
  destruct (detect_platform qr_url) as [p|e]; cbn [trace files value_of].
  - split_and!; [done..|]. by destruct (value_of (dispatch _ _ _ _ _ _ _)).
  - by rewrite List.app_nil_r.
Qed.

(** X9: what the URL entry point does not do.  For a URL of no known
    platform nothing is called and nothing is written: the run is the
    failure [UnknownPlatform].  For a URL that is not Instagram's, the
    cookie options play no part: the run is the one made without them. *)
Theorem download_from_url_gates (w : World) (url : string)
    (output_dir cookies_from_browser cookies_file : option string) (fs : gset string) :
  let o := download_from_url w url output_dir cookies_from_browser cookies_file fs in
  (Spec.tag_of (detect_platform url) = None → o = Outcome [] fs (Err (UnknownPlatform url)))
  ∧ (Spec.tag_of (detect_platform url) ≠ Some Instagram →
     o = download_from_url w url output_dir None None fs).
Proof.
  cbv zeta. rewrite !download_from_url_unfold. split.
  - unfold detect_platform. by repeat case_match.
  - destruct (detect_platform url) as [p|e]; [|done]. simpl. intros Hp.
    apply dispatch_cookies. congruence.
Qed.

Lemma download_from_url_gates_witness :
  download_from_url Sample.short_world "https://example.org/v/1" None (Some "chrome") None ∅
  = Outcome [] ∅ (Err (UnknownPlatform "https://example.org/v/1"))
  ∧ download_from_url Sample.short_world Sample.short_payload None (Some "chrome") None ∅
    = download_from_url Sample.short_world Sample.short_payload None None None ∅.
Proof.
  split.
  - refine (proj1 (download_from_url_gates Sample.short_world "https://example.org/v/1"
      None (Some "chrome") None ∅) _). reflexivity.
  - refine (proj2 (download_from_url_gates Sample.short_world Sample.short_payload
      None (Some "chrome") None ∅) _). discriminate.
Defined.
(** ** The decoder, before the cascade *)

Section decoder.

Context (w : World).

Lemma read_qrcode_missing image_path fs :
  image_path ∉ fs →
  read_qrcode w image_path fs = Outcome [Exists image_path] fs (Err (ImageNotFound image_path)).
Proof.
  intros Hout. unfold read_qrcode, bind, path_exists. cbn [trace files value_of].
  by rewrite bool_decide_eq_false_2 by done.
Qed.

Lemma read_qrcode_unopened image_path fs e :
  image_path ∈ fs → pil_open w image_path = Some e →
  read_qrcode w image_path fs = Outcome [Exists image_path; Open image_path] fs (Err e).
Proof.
  intros Hin Hopen. unfold read_qrcode, bind, path_exists, emit.
  cbn [trace files value_of]. rewrite bool_decide_eq_true_2 by done. cbn [negb].
  by rewrite Hopen.
Qed.

Lemma legacy_read_qrcode_unfold image_path fs :
  Legacy.read_qrcode w image_path fs =
  if bool_decide (image_path ∈ fs) then
    match pil_open w image_path with
    | Some e => Outcome [Exists image_path; Open image_path] fs (Err e)
    | None =>
        Outcome [Exists image_path; Open image_path; Decode (ImageOpen image_path)] fs
          (Spec.verdict (head (pyzbar_decode w (ImageOpen image_path))))
    end
  else Outcome [Exists image_path] fs (Err (ImageNotFound image_path)).
Proof.
  unfold Legacy.read_qrcode, bind, path_exists, emit. cbn [trace files value_of].
  destruct (bool_decide (image_path ∈ fs)); cbn [negb trace files value_of]; [|done].
  destruct (pil_open w image_path); cbn [trace files value_of]; [done|].
  destruct (pyzbar_decode w (ImageOpen image_path)) as [|[] ?]; done.
Qed.

End decoder.

(** X10: the ways [read_qrcode] fails before the cascade is through.  A
    path at which nothing exists is [ImageNotFound], and nothing is opened.
    An image PIL cannot open fails with PIL's error.  An image in which the
    reader finds nothing and that OpenCV cannot read is [ImageUnreadable],
    after the one attempt.  And when the reader finds a symbol in the
    image as it is, that symbol decides: its text is returned, and if its
    bytes are not UTF-8 the decoder fails there, without trying any other
    stage and without looking at a second symbol. *)
Theorem read_qrcode_failures (w : World) (image_path : string) (fs : gset string) :
  let o := read_qrcode w image_path fs in
  let seen := [Exists image_path; Open image_path; Decode (ImageOpen image_path)] in
  (image_path ∉ fs → o = Outcome [Exists image_path] fs (Err (ImageNotFound image_path)))
  ∧ (∀ e, image_path ∈ fs → pil_open w image_path = Some e →
       o = Outcome [Exists image_path; Open image_path] fs (Err e))
  ∧ (image_path ∈ fs → pil_open w image_path = None →
     pyzbar_decode w (ImageOpen image_path) = [] → cv_readable w image_path = false →
     o = Outcome (seen ++ [Read image_path]) fs (Err (ImageUnreadable image_path)))
  ∧ (∀ d others, image_path ∈ fs → pil_open w image_path = None →
       pyzbar_decode w (ImageOpen image_path) = d :: others →
       o = Outcome seen fs (match d with
                            | Utf8 text => Ok text
                            | NotUtf8 => Err (Exn UnicodeDecodeError "invalid utf-8")
                            end)).
Proof.
  cbv zeta. split_and!.
  - apply read_qrcode_missing.
  - intros e. apply read_qrcode_unopened.
  - intros Hin Hopen Hnone Hcv. rewrite read_qrcode_run by done. by rewrite Hnone, Hcv.
  - intros d others Hin Hopen Hsome. rewrite read_qrcode_run by done. rewrite Hsome.
    by destruct d.
Qed.

Lemma read_qrcode_failures_witness :
  read_qrcode Sample.silent "shot.png" ∅
  = Outcome [Exists "shot.png"] ∅ (Err (ImageNotFound "shot.png"))
  ∧ read_qrcode Sample.short_world "shot.png" {["shot.png"]}
    = Outcome [Exists "shot.png"; Open "shot.png"; Decode (ImageOpen "shot.png")]
        {["shot.png"]} (Ok Sample.short_payload).
Proof.
  split.
  - refine (proj1 (read_qrcode_failures Sample.silent "shot.png" ∅) _).
    apply not_elem_of_empty.
  - refine (proj2 (proj2 (proj2 (read_qrcode_failures Sample.short_world "shot.png"
      {["shot.png"]}))) (Utf8 Sample.short_payload) [] _ _ _);
      [by apply elem_of_singleton|reflexivity..].
Defined.

(** X11: the decoder of the current script extends the one of the legacy
    script.  Whatever the legacy decoder does other than giving up with
    [NoQrFound], the current decoder does the same: the same calls, the
    same text or the same failure.  In every case the calls of the legacy
    decoder are the first calls of the current one. *)
Theorem read_qrcode_extends_legacy (w : World) (image_path : string) (fs : gset string) :
  (value_of (Legacy.read_qrcode w image_path fs) ≠ Err NoQrFound →
   read_qrcode w image_path fs = Legacy.read_qrcode w image_path fs)
  ∧ trace (Legacy.read_qrcode w image_path fs) `prefix_of` trace (read_qrcode w image_path fs).
Proof.
  rewrite legacy_read_qrcode_unfold.
  destruct (decide (image_path ∈ fs)) as [Hin|Hout].
  - rewrite bool_decide_eq_true_2 by done.
    destruct (pil_open w image_path) as [e|] eqn:Hopen.
    + by rewrite (read_qrcode_unopened w image_path fs e).
    + rewrite read_qrcode_run by done.
      destruct (pyzbar_decode w (ImageOpen image_path)) as [|d ds]; [|done].
      split; [done|]. destruct (cv_readable w image_path); cbn [trace];
        do 3 apply prefix_cons; apply prefix_nil.
  - rewrite bool_decide_eq_false_2 by done. by rewrite read_qrcode_missing.
Qed.

Lemma read_qrcode_extends_legacy_witness :
  read_qrcode Sample.short_world "shot.png" {["shot.png"]}
  = Legacy.read_qrcode Sample.short_world "shot.png" {["shot.png"]}.
Proof.
  refine (proj1 (read_qrcode_extends_legacy Sample.short_world "shot.png" {["shot.png"]}) _).
  discriminate.
Defined.

(** ** The command line *)

Section command_line.

Context (w : World).

Import Cli.

Lemma read_qrcode_first image_path fs :
  ∃ l, trace (read_qrcode w image_path fs) = Exists image_path :: l.
Proof.
  unfold read_qrcode. rewrite trace_bind. unfold path_exists. cbn [trace]. by eexists.
Qed.

Lemma download_from_screenshot_first path output_dir cfb cf fs :
  ∃ l, trace (download_from_screenshot w path output_dir cfb cf fs) = Exists path :: l.
Proof.
  rewrite download_from_screenshot_unfold. cbv zeta.
  destruct (read_qrcode_first path fs) as [l Hl].
  destruct (value_of (read_qrcode w path fs)) as [qr_url|e]; cbn [trace]; [|by eexists].
  destruct (detect_platform qr_url); cbn [trace]; rewrite Hl; by eexists.
Qed.

Lemma batch_loop_counts a inputs : ∀ i t,
  (success (batch_loop w a i inputs t) + failed (batch_loop w a i inputs t)
   = success t + failed t + length inputs)%nat.
Proof.
  induction inputs as [|p inputs IH]; intros i t; cbn [batch_loop length]; [lia|].
  destruct (value_of _) as [[]|]; rewrite IH; cbn [success failed]; lia.
Qed.

(** What was done stays done. *)
Lemma batch_loop_keeps a inputs : ∀ i t,
  done_steps t `prefix_of` done_steps (batch_loop w a i inputs t)
  ∧ done_files t ⊆ done_files (batch_loop w a i inputs t)
  ∧ (failed t ≤ failed (batch_loop w a i inputs t))%nat.
Proof.
  induction inputs as [|p inputs IH]; intros i t; cbn [batch_loop]; [done|].
  pose proof (careful_download_from_screenshot w p (output a) (cookies_from_browser a)
    (cookies a) (done_files t)) as Hcareful.
  assert (done_files t ⊆ files (download_from_screenshot w p (output a)
            (cookies_from_browser a) (cookies a) (done_files t))) as Hsub.
  { destruct Hcareful as [(_ & -> & _)|(q & _ & _ & H)]; [done|].
    destruct (value_of _); [destruct H as [_ ->]|destruct H as [->| ->]];
      done || apply union_subseteq_r. }
  destruct (value_of _) as [[]|];
    match goal with |- context [batch_loop w a ?i inputs ?t'] =>
      destruct (IH i t') as (Hs & Hf & Hn) end;
    cbn [done_steps done_files failed] in *; split_and!.
  all: try (etrans; [|exact Hs]; rewrite <- ?(assoc_L (++)); by apply prefix_app_r).
  all: try (etrans; [exact Hsub|exact Hf]).
  all: lia.
Qed.

Lemma batch_loop_steps a inputs i t e :
  e ∈ done_steps t → e ∈ done_steps (batch_loop w a i inputs t).
Proof.
  intros He. destruct (batch_loop_keeps a inputs i t) as ([k ->] & _).
  apply elem_of_app. by left.
Qed.

(** Every item is taken up, whatever happened to the ones before it. *)
Lemma batch_loop_attempts a inputs : ∀ i t p,
  p ∈ inputs → Call (Exists p) ∈ done_steps (batch_loop w a i inputs t).
Proof.
  induction inputs as [|q inputs IH]; intros i t p Hp; [by apply elem_of_nil in Hp|].
  cbn [batch_loop]. apply elem_of_cons in Hp as [->|Hp].
  - destruct (download_from_screenshot_first q (output a) (cookies_from_browser a)
      (cookies a) (done_files t)) as [l Hl].
    destruct (value_of _) as [[]|]; apply batch_loop_steps; cbn [done_steps];
      rewrite Hl, fmap_cons, !elem_of_app, elem_of_cons; eauto.
  - destruct (value_of _) as [[]|]; by apply IH.
Qed.

Lemma last_calls (before : list step) e l :
  last (before ++ Call e :: (Call <$> l)) ≠ Some Sleep.
Proof.
  rewrite last_app, last_cons, fmap_last. by destruct (last l).
Qed.

(** The loop does not end on a pause. *)
Lemma batch_loop_last a inputs : ∀ i t,
  (i + length inputs = S (length (input a)))%nat →
  last (done_steps t) ≠ Some Sleep ∨ inputs ≠ [] →
  last (done_steps (batch_loop w a i inputs t)) ≠ Some Sleep.
Proof.
  induction inputs as [|p inputs IH]; intros i t Hi Hlast; cbn [batch_loop].
  - by destruct Hlast.
  - destruct (download_from_screenshot_first p (output a) (cookies_from_browser a)
      (cookies a) (done_files t)) as [l Hl].
    cbn [length] in Hi.
    destruct (value_of _) as [[path platform]|];
      (apply IH; [lia|]); cbn [done_steps];
      (destruct inputs as [|p' inputs]; [left|by right]).
    + assert ((i <? length (input a))%nat = false) as Hi' by (apply Nat.ltb_ge; simpl in Hi; lia).
      rewrite Hi', Hl, fmap_cons.
      replace (match platform with Instagram => [] | _ => [] end) with (@nil step)
        by (by destruct platform).
      rewrite List.app_nil_r. apply last_calls.
    + rewrite Hl, fmap_cons. apply last_calls.
Qed.

End command_line.

Section command_line_files.

Context (w : World).

Import Cli.

Lemma batch_loop_url a inputs : ∀ i t flag,
  batch_loop w (Spec.with_url a flag) i inputs t = batch_loop w a i inputs t.
Proof.
  induction inputs as [|p inputs IH]; intros i t flag; cbn [batch_loop]; [done|].
  cbn [Spec.with_url output cookies_from_browser cookies input].
  by destruct (value_of _) as [[]|]; rewrite IH.
Qed.

(** Each item adds at most one file. *)
Lemma batch_loop_size a inputs : ∀ i t,
  (size (done_files (batch_loop w a i inputs t)) ≤ size (done_files t) + length inputs)%nat.
Proof.
  induction inputs as [|p inputs IH]; intros i t; cbn [batch_loop length]; [lia|].
  pose proof (careful_download_from_screenshot w p (output a) (cookies_from_browser a)
    (cookies a) (done_files t)) as Hcareful.
  assert (size (files (download_from_screenshot w p (output a)
            (cookies_from_browser a) (cookies a) (done_files t)))
          ≤ S (size (done_files t)))%nat as Hsize.
  { destruct Hcareful as [(_ & -> & _)|(q & Hq & _ & H)]; [lia|].
    assert (size ({[q]} ∪ done_files t) = S (size (done_files t))) as Hq'.
    { rewrite size_union by (by apply disjoint_singleton_l). by rewrite size_singleton. }
    destruct (value_of _); [destruct H as [_ ->]|destruct H as [->| ->]]; lia. }
  destruct (value_of _) as [[]|];
    match goal with |- context [batch_loop w a ?i inputs ?t'] =>
      pose proof (IH i t') as Hrest end;
    cbn [done_files] in Hrest; lia.
Qed.

Lemma pauses_app l1 l2 : Spec.pauses (l1 ++ l2) = (Spec.pauses l1 + Spec.pauses l2)%nat.
Proof. unfold Spec.pauses. by rewrite filter_app, length_app. Qed.

Lemma pauses_calls (l : list event) : Spec.pauses (Call <$> l) = 0%nat.
Proof. induction l as [|e l IH]; [done|]. rewrite fmap_cons. apply IH. Qed.

(** The loop pauses between two inputs at most. *)
Lemma batch_loop_pauses a inputs : ∀ i t,
  (i + length inputs = S (length (input a)))%nat →
  (Spec.pauses (done_steps (batch_loop w a i inputs t))
   ≤ Spec.pauses (done_steps t) + Nat.pred (length inputs))%nat.
Proof.
  induction inputs as [|p inputs IH]; intros i t Hi; cbn [batch_loop length]; [lia|].
  cbn [length] in Hi.
  destruct (value_of _) as [[path platform]|];
    match goal with |- context [batch_loop w a ?i inputs ?t'] =>
      pose proof (IH i t' ltac:(lia)) as Hrest end;
    cbn [done_steps] in Hrest; rewrite ?pauses_app, pauses_calls in Hrest.
  - assert (Spec.pauses (match platform with
                         | Instagram => if (i <? length (input a))%nat then [Sleep] else []
                         | _ => []
                         end) ≤ Nat.min 1 (length inputs))%nat as Hpause.
    { assert (Spec.pauses [Sleep] = 1%nat) as Hone by reflexivity.
      assert (Spec.pauses [] = 0%nat) as Hnone by reflexivity.
      destruct platform; rewrite ?Hnone; try lia.
      destruct (Nat.ltb_spec i (length (input a))); rewrite ?Hone, ?Hnone; lia. }
    cbn [Nat.pred]. lia.
  - cbn [Nat.pred]. lia.
Qed.

End command_line_files.

(** X12: the modes of the command line.  Without input, and with several
    inputs but without [--batch], the script ends with status 2 and has
    done nothing.  With [--batch] the flag [-u] plays no part: every input
    is read as a screenshot.  With one input and without [--batch], the
    run is the one of [download_from_url] under [-u] and the one of
    [download_from_screenshot] otherwise, and the status is 0 when it
    succeeded and 1 when it failed. *)
Theorem main_modes (w : World) (a : Cli.args) (fs : gset string) :
  (Cli.input a = [] → Cli.main w a fs = Cli.Ending [] fs 2)
  ∧ ((1 < length (Cli.input a))%nat → Cli.batch a = false →
     Cli.main w a fs = Cli.Ending [] fs 2)
  ∧ (∀ flag, Cli.batch a = true → Cli.main w (Spec.with_url a flag) fs = Cli.main w a fs)
  ∧ (∀ first, Cli.input a = [first] → Cli.batch a = false →
       (Cli.url a = true →
        let o := download_from_url w first (Cli.output a)
                   (Cli.cookies_from_browser a) (Cli.cookies a) fs in
        Cli.main w a fs
        = Cli.Ending (Cli.Call <$> trace o) (files o) (if is_ok (value_of o) then 0 else 1))
       ∧ (Cli.url a = false →
          let o := download_from_screenshot w first (Cli.output a)
                     (Cli.cookies_from_browser a) (Cli.cookies a) fs in
          Cli.main w a fs
          = Cli.Ending (Cli.Call <$> trace o) (files o) (if is_ok (value_of o) then 0 else 1))).
Proof.
  split_and!.
  - unfold Cli.main. by intros ->.
  - intros Hlen Hbatch. unfold Cli.main. destruct (Cli.input a) as [|first others]; [done|].
    rewrite Hbatch. apply Nat.ltb_lt in Hlen. by rewrite Hlen.
  - intros flag Hbatch. unfold Cli.main.
    cbn [Spec.with_url Cli.input Cli.batch]. rewrite Hbatch, andb_false_r.
    destruct (Cli.input a) as [|first others]; [done|].
    by rewrite batch_loop_url.
  - intros first Hinput Hbatch. unfold Cli.main. rewrite Hinput, Hbatch. cbn [length Nat.ltb Nat.leb andb].
    split; intros ->; cbv zeta; unfold bind, ret;
      destruct (value_of _); cbn [trace files value_of is_ok]; by rewrite ?List.app_nil_r.
Qed.

Lemma main_modes_witness :
  Cli.main Sample.short_world
    {| Cli.input := ["a.png"; "b.png"]; Cli.output := None; Cli.url := true;
       Cli.batch := false; Cli.cookies_from_browser := None; Cli.cookies := None |} ∅
  = Cli.Ending [] ∅ 2.
Proof.
  refine (proj1 (proj2 (main_modes Sample.short_world _ ∅)) _ _); [simpl; lia|reflexivity].
Defined.

(** X13: the batch mode keeps count and goes on.  Every input is counted
    once, as a success or as a failure, and every input is taken up,
    whatever happened to the inputs before it.  The exit status is 0
    exactly when no input failed, and 1 otherwise.  No file is removed, and
    at most one file per input comes to exist. *)
Theorem batch_keeps_count (w : World) (a : Cli.args) (fs : gset string) :
  Cli.batch a = true → Cli.input a ≠ [] →
  let t := Cli.batch_loop w a 1 (Cli.input a) (Cli.Tally [] fs 0 0) in
  let e := Cli.main w a fs in
  (Cli.success t + Cli.failed t = length (Cli.input a))%nat
  ∧ (∀ p, p ∈ Cli.input a → Cli.Call (Exists p) ∈ Cli.steps e)
  ∧ (Cli.exit_status e = 0%Z ↔ Cli.failed t = 0%nat)
  ∧ (Cli.exit_status e = 1%Z ↔ Cli.failed t ≠ 0%nat)
  ∧ fs ⊆ Cli.files_after e
  ∧ (size (Cli.files_after e) ≤ size fs + length (Cli.input a))%nat.
Proof.
  intros Hbatch Hinput t e.
  assert (e = Cli.Ending (Cli.done_steps t) (Cli.done_files t)
                (if (Cli.failed t =? 0)%nat then 0 else 1)) as ->.
  { unfold e, Cli.main. rewrite Hbatch, andb_false_r.
    by destruct (Cli.input a). }
  cbn [Cli.steps Cli.files_after Cli.exit_status]. split_and!.
  - unfold t. by rewrite batch_loop_counts.
  - intros p Hp. by apply batch_loop_attempts.
  - destruct (Nat.eqb_spec (Cli.failed t) 0); split; done.
  - destruct (Nat.eqb_spec (Cli.failed t) 0); split; done.
  - apply (batch_loop_keeps w a (Cli.input a) 1 (Cli.Tally [] fs 0 0)).
  - apply (batch_loop_size w a (Cli.input a) 1 (Cli.Tally [] fs 0 0)).
Qed.

Lemma batch_keeps_count_witness :
  Cli.Call (Exists "missing.png")
    ∈ Cli.steps (Cli.main Sample.instagram_world Sample.two_shots {["shot.png"]})
  ∧ Cli.exit_status (Cli.main Sample.instagram_world Sample.two_shots {["shot.png"]}) = 1%Z.
Proof.
  split.
  - refine (proj1 (proj2 (batch_keeps_count Sample.instagram_world Sample.two_shots
      {["shot.png"]} _ _)) "missing.png" _); [reflexivity|discriminate|].
    apply elem_of_cons. right. apply elem_of_cons. by left.
  - refine (proj2 (proj1 (proj2 (proj2 (proj2 (batch_keeps_count Sample.instagram_world
      Sample.two_shots {["shot.png"]} _ _))))) _); [reflexivity|discriminate|].
    vm_compute. discriminate.
Defined.

(** X14: the pauses of the batch mode.  A run in batch mode never ends on
    a pause: after the last input nothing is waited for.  And it pauses
    between two inputs at most: with n inputs there are at most n - 1
    pauses. *)
Theorem batch_never_ends_on_a_pause (w : World) (a : Cli.args) (fs : gset string) :
  Cli.batch a = true →
  Spec.ends_on_pause (Cli.steps (Cli.main w a fs)) = false
  ∧ (Spec.pauses (Cli.steps (Cli.main w a fs)) ≤ Nat.pred (length (Cli.input a)))%nat.
Proof.
  intros Hbatch. unfold Cli.main. rewrite Hbatch, andb_false_r.
  destruct (Cli.input a) as [|first others] eqn:Hinput; [done|].
  cbn [Cli.steps]. rewrite <- Hinput. split.
  2: { apply (batch_loop_pauses w a (Cli.input a) 1 (Cli.Tally [] fs 0 0)). done. }
  unfold Spec.ends_on_pause.
  destruct (last _) as [[]|] eqn:E; try done.
  exfalso. apply (batch_loop_last w a (Cli.input a) 1 (Cli.Tally [] fs 0 0)); [done| |exact E].
  right. by rewrite Hinput.
Qed.

Lemma batch_never_ends_on_a_pause_witness :
  Spec.ends_on_pause
    (Cli.steps (Cli.main Sample.instagram_world Sample.two_shots {["shot.png"]})) = false.
Proof.
  refine (proj1 (batch_never_ends_on_a_pause Sample.instagram_world Sample.two_shots
    {["shot.png"]} _)).
  reflexivity.
Defined.

(** In a batch of two Instagram posts the script pauses once, between the
    two. *)
Example sample_batch_pause :
  let e := Cli.main Sample.instagram_world Sample.two_shots {["shot.png"; "missing.png"]} in
  Cli.exit_status e = 0%Z
  ∧ Spec.pauses (Cli.steps e) = 1%nat
  ∧ Cli.steps e !! 7%nat = Some Cli.Sleep
  ∧ length (Cli.steps e) = 17%nat.
Proof. cbv zeta. split_and!; vm_compute; reflexivity. Qed.

(** ** The legacy script *)

Section legacy.

Import PyStr.

Lemma nonempty_take n s : nonempty (take (S n) s) = nonempty s.
Proof. by destruct s. Qed.

Lemma sub_tag_none s : mem "<" s = false → Re.sub_empty Re.match_tag 0 s = s.
Proof.
  induction s as [|c s IH]; [done|]. cbn [mem]. intros [Hc Hs]%orb_false_elim.
  cbn [Re.sub_empty].
  assert (Re.match_tag (String c s) = None) as ->; [|by rewrite IH].
  unfold Re.match_tag. destruct c as [[] [] [] [] [] [] [] []]; done.
Qed.

Lemma legacy_sanitize_unfold s :
  Legacy._sanitize_filename s =
  let kept := strip (Re.sub_empty Re.match_invalid 0 s) in
  if nonempty kept then take 50 kept else "xhs_video".
Proof. unfold Legacy._sanitize_filename. cbv zeta. by rewrite (nonempty_take 49). Qed.

Lemma legacy_sanitize_safe s : Spec.safe_title (Legacy._sanitize_filename s) = true.
Proof.
  rewrite legacy_sanitize_unfold. cbv zeta.
  destruct (nonempty (strip _)) eqn:Hne; [|done].
  unfold Spec.safe_title. rewrite (nonempty_take 49), Hne.
  rewrite all_chars_take by (apply all_chars_rstrip, all_chars_lstrip, sub_invalid_valid).
  apply Nat.leb_le, length_take.
Qed.

End legacy.

(** X15: the sanitiser of the legacy script.  Its result is fit for a
    file name: not empty, at most 50 characters, none of them forbidden.
    It differs from the current sanitiser in two ways only: it does not
    remove tags, and its fall-back name is [xhs_video].  So on a title in
    which something is left after cleaning, the current sanitiser gives
    what the legacy one gives on the title without its tags; and on a
    title without the character [<] the two agree. *)
Theorem legacy_sanitize_filename (s : string) :
  Spec.safe_title (Legacy._sanitize_filename s) = true
  ∧ (PyStr.nonempty (Spec.cleaned s) = true →
     sanitize_filename s = Legacy._sanitize_filename (Re.sub_empty Re.match_tag 0 s))
  ∧ (PyStr.nonempty (Spec.cleaned s) = false →
     sanitize_filename s = "video"
     ∧ Legacy._sanitize_filename (Re.sub_empty Re.match_tag 0 s) = "xhs_video")
  ∧ (PyStr.mem "<" s = false → PyStr.nonempty (Spec.cleaned s) = true →
     sanitize_filename s = Legacy._sanitize_filename s).
Proof.
  assert (sanitize_filename s =
          if PyStr.nonempty (Spec.cleaned s)
          then Legacy._sanitize_filename (Re.sub_empty Re.match_tag 0 s) else "video") as Hs.
  { rewrite sanitize_unfold, legacy_sanitize_unfold. cbv zeta. fold (Spec.cleaned s).
    rewrite (nonempty_take 49). by destruct (PyStr.nonempty (Spec.cleaned s)). }
  split_and!.
  - apply legacy_sanitize_safe.
  - intros Hne. by rewrite Hs, Hne.
  - intros Hne. rewrite Hs, Hne. split; [done|].
    rewrite legacy_sanitize_unfold. cbv zeta. fold (Spec.cleaned s). by rewrite Hne.
  - intros Hlt Hne. rewrite Hs, Hne. by rewrite sub_tag_none.
Qed.

Lemma legacy_sanitize_filename_witness :
  sanitize_filename "My: Trip?" = Legacy._sanitize_filename "My: Trip?"
  ∧ sanitize_filename "<b>/</b>" = "video"
  ∧ Legacy._sanitize_filename "/" = "xhs_video".
Proof.
  split_and!.
  - refine (proj2 (proj2 (proj2 (legacy_sanitize_filename "My: Trip?"))) _ _); reflexivity.
  - refine (proj1 (proj1 (proj2 (proj2 (legacy_sanitize_filename "<b>/</b>"))) _)).
    reflexivity.
  - refine (proj2 (proj1 (proj2 (proj2 (legacy_sanitize_filename "/"))) _)). reflexivity.
Defined.
Section note_id.

Import PyStr.

Lemma after_marker_sound marker t note_id :
  Legacy.after_marker marker t = Some note_id →
  nonempty note_id = true ∧ all_chars Legacy.is_alnum note_id = true
  ∧ ∃ b, t = (marker ++ note_id) ++ b.
Proof.
  unfold Legacy.after_marker. intros H.
  destruct (after_prefix marker t) as [s|] eqn:E; cbn -[after_prefix span] in H; [|done].
  pose proof (span_app Legacy.is_alnum s) as Hs. pose proof (span_all Legacy.is_alnum s) as Ha.
  destruct (span Legacy.is_alnum s) as [found rest]. simpl in Hs, Ha.
  destruct (nonempty found) eqn:Hne; [|done]. injection H as <-.
  split_and!; [done..|]. apply after_prefix_app in E. subst.
  exists rest. by rewrite str_app_assoc.
Qed.

Lemma first_marker_sound markers url note_id :
  Legacy.first_marker markers url = Some note_id →
  nonempty note_id = true ∧ all_chars Legacy.is_alnum note_id = true
  ∧ ∃ marker, marker ∈ markers ∧ contains (marker ++ note_id) url = true.
Proof.
  induction markers as [|marker markers IH]; [done|]. cbn [Legacy.first_marker].
  destruct (Re.search (Legacy.after_marker marker) url) as [found|] eqn:E.
  - intros [= ->]. apply search_found in E as (pre & t & -> & Hm).
    apply after_marker_sound in Hm as (Hne & Ha & b & ->).
    split_and!; [done..|]. exists marker. split; [by left|]. apply contains_here.
  - intros (Hne & Ha & m & Hm & Hc)%IH. split_and!; [done..|].
    exists m. split; [by right|done].
Qed.

End note_id.

(** X16: the note id of the legacy script.  Whenever [extract_note_id]
    returns, the id is a run of letters and digits that is not empty and
    that follows one of the four markers in the URL; and its only failure
    carries the URL. *)
Theorem extract_note_id_sound (url : string) :
  (∀ note_id, Legacy.extract_note_id url = Ok note_id →
     PyStr.nonempty note_id = true
     ∧ PyStr.all_chars Legacy.is_alnum note_id = true
     ∧ ∃ marker, marker ∈ ["/explore/"; "/discovery/item/"; "/item/"; "xhslink.com/"]
         ∧ PyStr.contains (marker ++ note_id) url = true)
  ∧ (∀ e, Legacy.extract_note_id url = Err e →
       e = Exn ValueError ("Could not extract note ID from URL: " ++ url)).
Proof.
  unfold Legacy.extract_note_id. split.
  - intros note_id H.
    destruct (Legacy.first_marker Legacy.note_markers url) as [found|] eqn:E; [|done].
    injection H as ->. by apply first_marker_sound in E.
  - intros e. by destruct (Legacy.first_marker _ _); intros [= <-].
Qed.

Lemma extract_note_id_sound_witness :
  PyStr.nonempty "66aa00bb11cc22dd33ee44ff" = true
  ∧ PyStr.all_chars Legacy.is_alnum "66aa00bb11cc22dd33ee44ff" = true
  ∧ ∃ marker, marker ∈ ["/explore/"; "/discovery/item/"; "/item/"; "xhslink.com/"]
      ∧ PyStr.contains (marker ++ "66aa00bb11cc22dd33ee44ff")
          "https://www.xiaohongshu.com/explore/66aa00bb11cc22dd33ee44ff?x=1" = true.
Proof.
  apply (proj1 (extract_note_id_sound
    "https://www.xiaohongshu.com/explore/66aa00bb11cc22dd33ee44ff?x=1")).
  reflexivity.
Defined.

(** A short link of the shape the site hands out has its first path
    segment taken for the note id. *)
Example sample_note_id_short_link :
  Legacy.extract_note_id "http://xhslink.com/a/AbC123" = Ok "a".
Proof. reflexivity. Qed.
Section legacy_main.

Context (w : World).

Lemma try_except_class_reraise {A} cls (c : M A) (f : error → error) fs :
  Legacy.try_except_class cls c (fun e => raise (f e)) fs =
  Outcome (trace (c fs)) (files (c fs))
    (match value_of (c fs) with
     | Ok a => Ok a
     | Err e => Err (Spec.reraised cls f e)
     end).
Proof.
  unfold Legacy.try_except_class, try_except, Spec.reraised.
  destruct (c fs) as [l fs' [a|e]]; cbn [trace files value_of]; [done|].
  destruct (exn_class_of e), cls; cbn [raise trace files value_of]; by rewrite List.app_nil_r.
Qed.

Lemma existence_tests_app l1 l2 :
  Spec.existence_tests (l1 ++ l2)
  = (Spec.existence_tests l1 ++ Spec.existence_tests l2)%list.
Proof. apply omap_app. Qed.

(** The three requests of the URL mode, none of which looks at the
    files. *)
Lemma legacy_resolve_trace url fs :
  let o := Legacy.resolve_short_url w url fs in
  trace o = [Get LegacySession url 10] ∧ files o = fs.
Proof.
  cbv zeta. unfold Legacy.resolve_short_url. rewrite try_except_class_reraise.
  cbn [trace files]. unfold session_get, bind, emit, lift, ret. cbn [trace files value_of].
  destruct (http_get w LegacySession url 10); cbn [trace files value_of]; done.
Qed.

Lemma legacy_get_video_url_trace page_url fs :
  let o := Legacy.get_video_url w page_url fs in
  trace o = [Get LegacySession page_url 15] ∧ files o = fs.
Proof.
  cbv zeta. unfold Legacy.get_video_url. rewrite try_except_class_reraise.
  cbn [trace files]. unfold session_get, raise_for_status, bind, emit, lift, ret.
  cbn [trace files value_of].
  destruct (http_get w LegacySession page_url 15) as [r|]; cbn [trace files value_of]; [|done].
  destruct (resp_status r); cbn [trace files value_of]; done.
Qed.

Lemma legacy_download_video_trace video_url output_path fs :
  trace (Legacy.download_video w video_url output_path fs)
  = [Stream LegacySession video_url (Some "https://www.xiaohongshu.com/") output_path].
Proof.
  unfold Legacy.download_video. rewrite try_except_class_reraise.
  cbn [trace]. unfold download_video, bind, emit, create_file, raise, ret.
  cbn [trace files value_of].
  destruct (http_stream w _ _ _ _); cbn [trace files value_of]; done.
Qed.

End legacy_main.

(** X17: the URL mode of the legacy script.  The address is resolved
    first exactly when it holds [xhslink.com]: its length plays no part.
    No path is ever tested for existence, so the transfer, if one is made,
    goes to [<directory>/<title>.mp4] whether a file is there or not; the
    directory is the one asked for, and the working directory when none or
    an empty one was given.  The exit status is 0 when the run succeeded
    and 1 otherwise. *)
Theorem legacy_url_mode (w : World) (a : Legacy.args) (fs : gset string) :
  Legacy.url a = true →
  let o := Legacy.main w a fs in
  let directory :=
    match Spec.supplied (Legacy.output a) with
    | Some d => d
    | None => os_getcwd w
    end in
  Spec.existence_tests (trace o) = []
  ∧ Spec.resolution_requests (trace o)
    = (if PyStr.contains "xhslink.com" (Legacy.screenshot a) then [Legacy.screenshot a] else [])
  ∧ (Spec.transfers (trace o) = []
     ∨ ∃ title, Spec.transfers (trace o) = [OsPath.join directory (title ++ ".mp4")])
  ∧ (Legacy.exit_status o = 0%Z ↔ value_of o = Ok tt)
  ∧ (Legacy.exit_status o = 1%Z ↔ ∃ e, value_of o = Err e).
Proof.
  intros Hurl o directory.
  assert (∃ l result files',
    o = Outcome ((if PyStr.contains "xhslink.com" (Legacy.screenshot a)
                  then [Get LegacySession (Legacy.screenshot a) 10] else []) ++ l)
          files' result
    ∧ (l = [] ∨ ∃ page, l = [Get LegacySession page 15]
       ∨ ∃ video_url title, l = [Get LegacySession page 15;
            Stream LegacySession video_url (Some "https://www.xiaohongshu.com/")
              (OsPath.join directory (title ++ ".mp4"))]))
    as (l & result & files' & -> & Hl).
  { unfold o, Legacy.main. rewrite Hurl. unfold bind at 1.
    assert (∃ r, (if PyStr.contains "xhslink.com" (Legacy.screenshot a)
                  then Legacy.resolve_short_url w (Legacy.screenshot a)
                  else ret (Legacy.screenshot a)) fs
            = Outcome (if PyStr.contains "xhslink.com" (Legacy.screenshot a)
                       then [Get LegacySession (Legacy.screenshot a) 10] else []) fs r)
      as [r ->].
    { destruct (PyStr.contains _ _); [|by eexists].
      destruct (legacy_resolve_trace w (Legacy.screenshot a) fs) as [Ht Hf].
      destruct (Legacy.resolve_short_url w (Legacy.screenshot a) fs) as [t f r].
      simpl in *. subst. by eexists. }
    cbn [trace files value_of]. destruct r as [page|e].
    2: { exists [], (Err e), fs. rewrite List.app_nil_r. by split; [|left]. }
    unfold bind at 1.
    destruct (legacy_get_video_url_trace w page fs) as [Ht Hf].
    destruct (Legacy.get_video_url w page fs) as [t f [[video_url title]|e]];
      simpl in Ht, Hf; subst; cbn [trace files value_of].
    2: { eexists _, _, _. split; [done|]. right. exists page. by left. }
    unfold bind at 1.
    pose proof (legacy_download_video_trace w video_url
      (OsPath.join directory (title ++ ".mp4")) fs) as Ht.
    assert (directory = match Legacy.output a with
                        | Some (String c d) => String c d
                        | _ => os_getcwd w
                        end) as Hdir.
    { unfold directory, Spec.supplied. by destruct (Legacy.output a) as [[]|]. }
    rewrite <- Hdir.
    destruct (Legacy.download_video w video_url _ fs) as [t f [p|e]];
      simpl in Ht; subst; cbn [trace files value_of ret].
    - eexists _, _, _. split; [done|]. right. exists page. right.
      exists video_url, title. by rewrite List.app_nil_r.
    - eexists _, _, _. split; [done|]. right. exists page. right. by exists video_url, title. }
  cbn [trace value_of]. unfold Legacy.exit_status. cbn [value_of].
  assert (∀ url : string,
    Spec.existence_tests (if PyStr.contains "xhslink.com" url
                          then [Get LegacySession url 10] else []) = []
    ∧ Spec.resolution_requests (if PyStr.contains "xhslink.com" url
                                then [Get LegacySession url 10] else [])
      = (if PyStr.contains "xhslink.com" url then [url] else [])
    ∧ Spec.transfers (if PyStr.contains "xhslink.com" url
                      then [Get LegacySession url 10] else []) = []) as Hfirst.
  { intros url. by destruct (PyStr.contains _ _). }
  destruct (Hfirst (Legacy.screenshot a)) as (H1 & H2 & H3).
  rewrite existence_tests_app, requests_app, transfers_app, H1, H2, H3.
  split_and!.
  - by destruct Hl as [->|(page & [->|(video_url & title & ->)])].
  - destruct Hl as [->|(page & [->|(video_url & title & ->)])];
      cbn; by rewrite List.app_nil_r.
  - destruct Hl as [->|(page & [->|(video_url & title & ->)])]; [by left..|].
    right. by exists title.
  - destruct result as [[]|]; by split.
  - destruct result as [[]|]; split; try done; [by intros [? ?]|by eexists].
Qed.

Lemma legacy_url_mode_witness :
  Spec.existence_tests (trace (Legacy.main Sample.short_world Sample.again {["/out/My Trip.mp4"]}))
  = [].
Proof.
  refine (proj1 (legacy_url_mode Sample.short_world Sample.again {["/out/My Trip.mp4"]} _)).
  reflexivity.
Defined.

(** Where the current script would write [My Trip_1.mp4], the URL mode of
    the legacy script writes over the file that is there. *)
Example sample_legacy_url_mode_overwrites :
  trace (Legacy.main Sample.short_world Sample.again {["/out/My Trip.mp4"]})
  = [Get LegacySession Sample.short_payload 15;
     Stream LegacySession (VStr "https://cdn.example/v.mp4")
       (Some "https://www.xiaohongshu.com/") "/out/My Trip.mp4"]
  ∧ trace (download_from_url Sample.short_world Sample.short_payload (Some "/out") None None
             {["/out/My Trip.mp4"]})
    = [Get XhsSession Sample.short_payload 15;
       Exists "/out/My Trip.mp4"; Exists "/out/My Trip.mp4"; Exists "/out/My Trip_1.mp4";
       Stream XhsSession (VStr "https://cdn.example/v.mp4")
         (Some "https://www.xiaohongshu.com/") "/out/My Trip_1.mp4"].
Proof. split; vm_compute; reflexivity. Qed.

(** ** The extension of the output path *)

Section extension.

Import PyStr.

Lemma rfind_from_app c a b i acc :
  rfind_from c (a ++ b) i acc
  = rfind_from c b (i + Z.of_nat (String.length a)) (rfind_from c a i acc).
Proof.
  revert i acc. induction a as [|d a IH]; intros i acc.
  - rewrite str_app_nil_l. simpl. by rewrite Z.add_0_r.
  - rewrite str_app_cons. cbn [rfind_from String.length]. rewrite IH.
    f_equal. lia.
Qed.

Lemma rfind_from_none c s i acc : mem c s = false → rfind_from c s i acc = acc.
Proof.
  revert i acc. induction s as [|d s IH]; intros i acc; [done|].
  cbn [mem rfind_from]. intros [Hd Hs]%orb_false_elim.
  rewrite Ascii.eqb_sym, Hd. by apply IH.
Qed.

Lemma rfind_from_bounds c s i acc :
  (acc < i)%Z → (acc ≤ rfind_from c s i acc < i + Z.of_nat (String.length s))%Z.
Proof.
  revert i acc. induction s as [|d s IH]; intros i acc Hacc; cbn [rfind_from String.length].
  - lia.
  - destruct (Ascii.eqb d c).
    + pose proof (IH (i + 1)%Z i ltac:(lia)). lia.
    + pose proof (IH (i + 1)%Z acc ltac:(lia)). lia.
Qed.

Lemma drop_app_length a b : drop (String.length a) (a ++ b) = b.
Proof. induction a as [|c a IH]; [by destruct b|]. by rewrite str_app_cons. Qed.

Lemma take_app_length a b : take (String.length a) (a ++ b) = a.
Proof.
  induction a as [|c a IH]; [by destruct b|]. rewrite str_app_cons. simpl. by rewrite IH.
Qed.

Lemma mem_app c a b : mem c (a ++ b) = mem c a || mem c b.
Proof.
  induction a as [|d a IH]; [by rewrite str_app_nil_l|].
  rewrite str_app_cons. cbn [mem]. by rewrite IH, orb_assoc.
Qed.

Lemma rfind_front front :
  Spec.is_front front → (rfind "/" front + 1 = Z.of_nat (String.length front))%Z.
Proof.
  intros [->|[x ->]]; [done|]. unfold rfind. rewrite rfind_from_app.
  rewrite str_length_app. simpl. lia.
Qed.

Lemma endswith_inv p s : endswith p s = true → ∃ x, s = x ++ p.
Proof.
  induction s as [|c s IH]; simpl.
  - rewrite orb_false_r. intros ->%String.eqb_eq. by exists EmptyString.
  - intros [->%String.eqb_eq|[x ->]%IH]%orb_prop.
    + by exists EmptyString.
    + by exists (String c x).
Qed.

Lemma join_front a b :
  startswith "/" b = false →
  ∃ front, Spec.is_front front ∧ OsPath.join a b = front ++ b
         ∧ ∀ b', startswith "/" b' = false → OsPath.join a b' = front ++ b'.
Proof.
  intros Hb. unfold OsPath.join. rewrite Hb.
  destruct a as [|c a]; cbn [nonempty negb orb].
  - exists EmptyString. split_and!; [by left|done|]. by intros b' ->.
  - destruct (endswith "/" (String c a)) eqn:E.
    + exists (String c a). split_and!; [|done|by intros b' ->].
      right. by apply endswith_inv.
    + exists (String c a ++ "/"). split_and!; [right; by eexists| |].
      * by rewrite str_app_assoc.
      * intros b' ->. by rewrite str_app_assoc.
Qed.

Lemma splitext_mp4 front name :
  Spec.is_front front → mem "/" name = false → all_chars (Ascii.eqb ".") name = false →
  OsPath.splitext (front ++ name ++ ".mp4") = (front ++ name, ".mp4").
Proof.
  intros Hfront Hname Hdots. unfold OsPath.splitext, rfind.
  assert (rfind_from "/" (front ++ name ++ ".mp4") 0 (-1) = rfind "/" front) as ->.
  { rewrite rfind_from_app. apply rfind_from_none. by rewrite mem_app, Hname. }
  assert (rfind_from "." (front ++ name ++ ".mp4") 0 (-1)
          = Z.of_nat (String.length (front ++ name))) as ->.
  { rewrite <- str_app_assoc, rfind_from_app. simpl. lia. }
  pose proof (rfind_front front Hfront) as Hsep.
  assert (String.length name ≠ 0%nat) as Hlen by (by destruct name).
  rewrite str_length_app.
  destruct (Z.ltb_spec (rfind "/" front) (Z.of_nat (String.length front + String.length name)));
    [|lia].
  unfold slice, slice_to, slice_from.
  replace (Z.to_nat (rfind "/" front + 1)) with (String.length front) by lia.
  replace (Z.to_nat (Z.of_nat (String.length front + String.length name) - (rfind "/" front + 1)))
    with (String.length name) by lia.
  rewrite drop_app_length, take_app_length, Hdots.
  rewrite Nat2Z.id, <- str_length_app, <- str_app_assoc.
  by rewrite take_app_length, drop_app_length.
Qed.

End extension.

(** X18: the extension of the output path.  For a title without a slash
    that is not made of dots only (every sanitised title but such a one),
    the path asked for splits into [<directory>/<title>] and [.mp4]; so
    the paths tried after it are [<directory>/<title>_<k>.mp4], and
    [get_unique_path] returns the path asked for when it is free, and
    otherwise one of these, from [k = 1] upwards, that does not exist. *)
Theorem unique_path_keeps_extension (output_dir title : string) (fs : gset string) :
  PyStr.mem "/" title = false → PyStr.all_chars (Ascii.eqb ".") title = false →
  let P := OsPath.join output_dir (title ++ ".mp4") in
  let named k := OsPath.join output_dir (title ++ "_" ++ pretty k ++ ".mp4") in
  OsPath.splitext P = (OsPath.join output_dir title, ".mp4")
  ∧ (∀ k : N, numbered (OsPath.splitext P).1 (OsPath.splitext P).2 k = named k)
  ∧ (P ∉ fs → value_of (get_unique_path P fs) = Ok P)
  ∧ (P ∈ fs → ∃ k : N, (1 ≤ k)%N ∧ value_of (get_unique_path P fs) = Ok (named k)
                       ∧ named k ∉ fs).
Proof.
  intros Hslash Hdots P named.
  assert (∀ x, PyStr.startswith "/" (title ++ x) = false) as Hstart.
  { intros x. destruct title as [|c title]; [done|]. rewrite str_app_cons.
    cbn [PyStr.mem] in Hslash. apply orb_false_elim in Hslash as [Hc _].
    cbn [PyStr.startswith]. by rewrite Hc. }
  destruct (join_front output_dir (title ++ EmptyString) (Hstart _))
    as (front & Hfront & _ & Hjoin).
  assert (OsPath.splitext P = (OsPath.join output_dir title, ".mp4")) as Hsplit.
  { unfold P. rewrite (Hjoin (title ++ ".mp4")) by done.
    rewrite <- (str_app_nil_r title) at 2. rewrite (Hjoin (title ++ EmptyString)) by done.
    rewrite str_app_nil_r. by apply splitext_mp4. }
  assert (∀ k : N, numbered (OsPath.splitext P).1 (OsPath.splitext P).2 k = named k) as Hnamed.
  { intros k. rewrite Hsplit. unfold numbered, named. cbn [fst snd].
    rewrite (Hjoin (title ++ _)) by done.
    rewrite <- (str_app_nil_r title) at 1. rewrite (Hjoin (title ++ EmptyString)) by done.
    by rewrite str_app_nil_r, !str_app_assoc. }
  split_and!; [done..| |].
  - intros HP. rewrite get_unique_path_unfold. by rewrite bool_decide_eq_false_2.
  - intros HP. rewrite get_unique_path_unfold, bool_decide_eq_true_2 by done. cbv zeta.
    destruct (free_exists fs (OsPath.splitext P).1 (OsPath.splitext P).2 1)
      as (n & Hn & Hall & Hout).
    rewrite (unique_loop_finds fs _ _ n 1%N P (2 + size fs) HP Hall Hout) by lia.
    exists (1 + N.of_nat n)%N. rewrite <- Hnamed. split_and!; [lia|done..].
Qed.

Lemma unique_path_keeps_extension_witness :
  OsPath.splitext "/out/My Trip.mp4" = ("/out/My Trip", ".mp4")
  ∧ value_of (get_unique_path "/out/My Trip.mp4" ∅) = Ok "/out/My Trip.mp4".
Proof.
  split.
  - refine (proj1 (unique_path_keeps_extension "/out" "My Trip" ∅ _ _)); reflexivity.
  - refine (proj1 (proj2 (proj2 (unique_path_keeps_extension "/out" "My Trip" ∅ _ _))) _);
      [reflexivity..|apply not_elem_of_empty].
Defined.

(** A title made of dots only is the exception: the whole path counts as
    the name, and the number goes after [.mp4]. *)
Example sample_dots_title :
  value_of (get_unique_path "/out/....mp4" {["/out/....mp4"]}) = Ok "/out/....mp4_1".
Proof. vm_compute. reflexivity. Qed.

(** X19: the test for a retry ignores case.  The Instagram locator tries
    again with cookies exactly when one of the three key phrases occurs in
    the message of the failure, in any mix of upper and lower case; two
    messages that differ in case only are treated alike. *)
Theorem retry_test_ignores_case (e : error) :
  (InstagramDownloader.wants_cookies e = true
   ↔ ∃ keyword, keyword ∈ Spec.retry_keywords
       ∧ Spec.occurs_ignoring_case keyword (str_of_error e))
  ∧ (∀ e', PyStr.lower (str_of_error e') = PyStr.lower (str_of_error e) →
       InstagramDownloader.wants_cookies e' = InstagramDownloader.wants_cookies e).
Proof.
  unfold InstagramDownloader.wants_cookies. cbv zeta. split.
  - rewrite !orb_true_iff, !contains_lower_iff. unfold Spec.retry_keywords. split.
    + intros [[H|H]|H]; eexists; (split; [|exact H]);
        rewrite !elem_of_cons; auto.
    + intros (keyword & Hk & H). rewrite !elem_of_cons, elem_of_nil in Hk.
      destruct Hk as [->|[->|[->|[]]]]; auto.
  - by intros e' ->.
Qed.

Lemma retry_test_ignores_case_witness :
  InstagramDownloader.wants_cookies (Exn ForeignError "ERROR: Login Required") = true.
Proof.
  apply (proj2 (proj1 (retry_test_ignores_case (Exn ForeignError "ERROR: Login Required")))).
  exists "login required". split.
  - apply elem_of_cons. right. apply elem_of_cons. by left.
  - exists "Login Required". by split.
Defined.

Section crop.

Context (w : World).




End crop.



(** X21: what the Weibo locator asks, and how it is refused.  Looking a
    video up leaves the files as they are.  A URL without a status id
    fails with [NoStatusId] before anything is asked.  Otherwise one
    request is made, to the status API with that id, and no other.  When
    the document that comes back is not flagged as successful, the failure
    is [ApiError] with the message of the document, and with
    [Unknown error] when it has none; when what comes back is not an
    object at all, the failure is an [AttributeError]. *)
Theorem weibo_request_and_refusal (w : World) (url : string) (fs : gset string) :
  let o := WeiboDownloader.get_video_info w url fs in
  files o = fs
  ∧ (∀ e, WeiboDownloader.extract_status_id url = Err e →
       o = Outcome [] fs (Err (NoStatusId url)))
  ∧ (∀ status_id, WeiboDownloader.extract_status_id url = Ok status_id →
       trace o = [Get WeiboSession ("https://m.weibo.cn/statuses/show?id=" ++ status_id) 15])
  ∧ (∀ d, Spec.weibo_answer w url = Some (VDict d) →
       Spec.flagged_ok (VDict d) = false →
       value_of o =
       Err (ApiError (match d !! "msg" with
                      | Some msg => format_value w msg
                      | None => "Unknown error"
                      end)))
  ∧ (∀ data, Spec.weibo_answer w url = Some data → Spec.is_object data = false →
       value_of o = Err (NoAttributeGet data)).
Proof.
  cbv zeta. split_and!.
  - rewrite get_video_info_unfold. by repeat case_match.
  - intros e He. rewrite get_video_info_unfold, He. f_equal.
    unfold WeiboDownloader.extract_status_id in He. repeat case_match; congruence.
  - intros status_id Hid. rewrite get_video_info_unfold, Hid. cbv zeta.
    by repeat case_match.
  - intros d Hanswer Hflag.
    destruct (get_video_info_answer w url fs _ Hanswer) as (status_id & _ & ->).
    cbn [value_of]. rewrite (parse_status_refused w _ d) by done.
    by destruct (d !! "msg").
  - intros data Hanswer Hobject.
    destruct (get_video_info_answer w url fs _ Hanswer) as (status_id & _ & ->).
    cbn [value_of]. by destruct data.
Qed.

Lemma weibo_request_and_refusal_witness :
  value_of (WeiboDownloader.get_video_info
              (Sample.weibo_world (PyVal.dict [("ok", VInt 0)])) Sample.weibo_url ∅)
  = Err (ApiError "Unknown error").
Proof.
  refine (proj1 (proj2 (proj2 (proj2 (weibo_request_and_refusal
    (Sample.weibo_world (PyVal.dict [("ok", VInt 0)])) Sample.weibo_url ∅))))
    (list_to_map [("ok", VInt 0)]) _ _); reflexivity.
Defined.

Section xhs_pages.

Import PyStr.

(** A field is found only in a page that holds its key between double
    quotes. *)
Lemma search_field_key key opener prefix html g :
  Re.search (Pattern.match_field key opener prefix) html = Some g →
  contains (Pattern.quoted key) html = true.
Proof.
  intros (pre & t & -> & Hm)%search_found. unfold Pattern.match_field in Hm.
  destruct (after_prefix (Pattern.quoted key) t) as [s|] eqn:E;
    cbn -[after_prefix span] in Hm; [|done].
  apply after_prefix_app in E as ->. apply contains_here.
Qed.

End xhs_pages.

(** X22: how the Xiaohongshu locator fails.  For an address that is not a
    short link, one request is made, for the address itself, and no other.
    If it fails, or if the answer carries an error status, that failure is
    the outcome.  And a page that holds neither the key [masterUrl] nor the
    key [backupUrls] between double quotes has no video:
    [NoXhsVideoUrl]. *)
Theorem xhs_failures (w : World) (url : string) (fs : gset string) :
  PyStr.contains "xhslink.com" url = false →
  let o := XiaohongshuDownloader.get_video_info w url fs in
  trace o = [Get XhsSession url 15]
  ∧ (∀ e, http_get w XhsSession url 15 = Err e → value_of o = Err e)
  ∧ (∀ r e, http_get w XhsSession url 15 = Ok r → resp_status r = Some e →
       value_of o = Err e)
  ∧ (∀ r, http_get w XhsSession url 15 = Ok r → resp_status r = None →
       PyStr.contains (Pattern.quoted "masterUrl") (resp_text r) = false →
       PyStr.contains (Pattern.quoted "backupUrls") (resp_text r) = false →
       value_of o = Err NoXhsVideoUrl).
Proof.
  intros Hshort. cbv zeta.
  unfold XiaohongshuDownloader.get_video_info. rewrite Hshort.
  unfold session_get, raise_for_status, XiaohongshuDownloader.matched.
  unfold bind, emit, lift, ret, raise. cbn [trace files value_of].
  destruct (http_get w XhsSession url 15) as [r|e0]; cbn [trace files value_of].
  2: { split_and!; [done| |done..]. by intros e [= ->]. }
  destruct (resp_status r) as [e0|] eqn:Hstatus; cbn [trace files value_of].
  { split_and!; [done|done| |].
    - intros r' e [= <-]. rewrite Hstatus. by intros [= ->].
    - intros r' [= <-]. by rewrite Hstatus. }
  split_and!; [|done| |].
  2: { intros r' e [= <-]. by rewrite Hstatus. }
  - destruct (Re.search Pattern.master_url (resp_text r)); cbn [trace files value_of].
    { by destruct (unicode_escape w _). }
    destruct (Re.search Pattern.backup_urls (resp_text r)); cbn [trace files value_of];
      [|done].
    by destruct (unicode_escape w _).
  - intros r' [= <-] _ Hmaster Hbackup.
    destruct (Re.search Pattern.master_url (resp_text r)) eqn:E1.
    { apply search_field_key in E1. congruence. }
    destruct (Re.search Pattern.backup_urls (resp_text r)) eqn:E2; [|done].
    apply search_field_key in E2. congruence.
Qed.

Lemma xhs_failures_witness :
  value_of (XiaohongshuDownloader.get_video_info
              (Sample.world (Sample.reads Sample.short_payload) Sample.no_detector
                 (Sample.serves (Sample.page "<html>an image post</html>")) Sample.no_engine)
              Sample.short_payload ∅)
  = Err NoXhsVideoUrl.
Proof.
  refine (proj2 (proj2 (proj2 (xhs_failures _ Sample.short_payload ∅ _))) _ _ _ _ _);
    reflexivity.
Defined.
(** ** Tags *)

Section tags.

Import PyStr.

Lemma sub_empty_skip m s rest :
  Re.sub_empty m (String.length s) (s ++ rest) = Re.sub_empty m 0 rest.
Proof.
  induction s as [|c s IH]; [by rewrite str_app_nil_l|].
  rewrite str_app_cons. cbn [String.length Re.sub_empty]. apply IH.
Qed.

Lemma match_tag_first c t : Ascii.eqb c "<" = false → Re.match_tag (String c t) = None.
Proof.
  intros H. unfold Re.match_tag. destruct c as [[] [] [] [] [] [] [] []]; done.
Qed.

Lemma sub_tag_before pre rest :
  mem "<" pre = false →
  Re.sub_empty Re.match_tag 0 (pre ++ rest) = pre ++ Re.sub_empty Re.match_tag 0 rest.
Proof.
  induction pre as [|c pre IH]; [by rewrite !str_app_nil_l|].
  cbn [mem]. intros [Hc Hpre]%orb_false_elim. rewrite !str_app_cons. cbn [Re.sub_empty].
  rewrite match_tag_first by (by rewrite Ascii.eqb_sym).
  by rewrite IH.
Qed.

Lemma upto_gt_here tag rest :
  mem ">" tag = false → Re.upto_gt (tag ++ ">" ++ rest) = Some (S (String.length tag)).
Proof.
  induction tag as [|c tag IH]; [done|]. cbn [mem]. intros [Hc Htag]%orb_false_elim.
  rewrite str_app_cons. cbn [Re.upto_gt String.length].
  rewrite Ascii.eqb_sym, Hc, IH by done. done.
Qed.

Lemma match_tag_here c tag rest :
  Ascii.eqb ">" c = false → mem ">" tag = false →
  Re.match_tag (String "<" (String c (tag ++ ">" ++ rest))) = Some (3 + String.length tag)%nat.
Proof.
  intros Hc Htag. unfold Re.match_tag. by rewrite Ascii.eqb_sym, Hc, upto_gt_here.
Qed.

(** A tag is removed whole. *)
Lemma sub_tag_here tag rest :
  nonempty tag = true → mem ">" tag = false →
  Re.sub_empty Re.match_tag 0 ("<" ++ tag ++ ">" ++ rest) = Re.sub_empty Re.match_tag 0 rest.
Proof.
  intros Hne Htag. destruct tag as [|c tag]; [done|].
  cbn [mem] in Htag. apply orb_false_elim in Htag as [Hc Htag].
  change ("<" ++ String c tag ++ ">" ++ rest)
    with (String "<" (String c tag ++ ">" ++ rest)).
  rewrite str_app_cons. cbn [Re.sub_empty].
  rewrite match_tag_here by done. cbn [Nat.add].
  rewrite <- str_app_assoc.
  replace (S (String.length tag)) with (String.length (tag ++ ">")).
  - apply sub_empty_skip.
  - rewrite str_length_app. simpl. lia.
Qed.

End tags.

(** X23: tags are removed whole.  A tag, that is a [<], then at least one
    character other than [>], then a [>], leaves nothing in the file name,
    neither its brackets nor what stands between them: the name is the
    one of the title without the tag.  The legacy sanitiser keeps the
    letters of a tag. *)
Theorem sanitize_drops_tags (before tag after : string) :
  PyStr.mem "<" before = false → PyStr.nonempty tag = true → PyStr.mem ">" tag = false →
  sanitize_filename (before ++ "<" ++ tag ++ ">" ++ after) = sanitize_filename (before ++ after).
Proof.
  intros Hbefore Hne Htag. unfold sanitize_filename. cbv zeta.
  rewrite (sub_tag_before before ("<" ++ _)), (sub_tag_before before after) by done.
  by rewrite sub_tag_here.
Qed.

Lemma sanitize_drops_tags_witness :
  sanitize_filename "sunset <a href='/n/x'>@x</a>" = sanitize_filename "sunset @x</a>"
  ∧ sanitize_filename "sunset @x</a>" = "sunset @x"
  ∧ Legacy._sanitize_filename "sunset @x</a>" = "sunset @xa".
Proof.
  split_and!; [|reflexivity..].
  refine (sanitize_drops_tags "sunset " "a href='/n/x'" "@x</a>" _ _ _); reflexivity.
Defined.

(** ** Where the downloads land *)

Section landing.

Context (w : World).

Import PyStr PyVal.

Lemma safe_proper t : Spec.safe_title t = true → Spec.proper_title t = true.
Proof.
  unfold Spec.safe_title, Spec.proper_title.
  intros [[Hne Hvalid]%andb_prop _]%andb_prop. rewrite Hne.
  destruct t as [|c t]; [done|]. cbn [all_chars startswith] in *.
  apply andb_prop in Hvalid as [Hc _].
  destruct (Ascii.eqb_spec "/" c) as [<-|]; [|done]. by vm_compute in Hc.
Qed.

Lemma sanitize_proper s : Spec.proper_title (sanitize_filename s) = true.
Proof. apply safe_proper, sanitize_safe. Qed.

Lemma derive_title_proper status t :
  WeiboDownloader.derive_title w status = Ok t → Spec.proper_title t = true.
Proof.
  destruct status as [| | | | | | |d]; try done. rewrite derive_title_dict.
  destruct (strip_tags _) as [text|]; [|done]. simpl.
  destruct (get _ _ _) as [name|]; [|done]. simpl. intros [= <-].
  destruct (nonempty text); [apply sanitize_proper|done].
Qed.

Lemma parse_status_proper data u t :
  WeiboDownloader.parse_status w data = Ok (u, t) → Spec.proper_title t = true.
Proof.
  unfold WeiboDownloader.parse_status. intros H.
  destruct (get data "ok" VNone) as [ok|]; simpl in H; [|done].
  destruct (eq_one ok); simpl in H.
  2: { by destruct (get data "msg" _). }
  destruct (get data "data" _) as [status|]; simpl in H; [|done].
  destruct (get status "page_info" _) as [page_info|]; simpl in H; [|done].
  destruct (get page_info "type" _) as [type|]; simpl in H; [|done].
  destruct (eq_str type "video"); simpl in H; [|done].
  destruct (WeiboDownloader.select_video_url page_info); simpl in H; [|done].
  destruct (WeiboDownloader.derive_title w status) as [title|] eqn:E; simpl in H; [|done].
  injection H as <- <-. by apply derive_title_proper in E.
Qed.

Lemma parse_video_info_proper info u t :
  InstagramDownloader._parse_video_info w info = Ok (u, t) → Spec.proper_title t = true.
Proof.
  unfold InstagramDownloader._parse_video_info. intros H.
  destruct (truthy info); simpl in H; [|done].
  destruct (get info "formats" _) as [formats|]; simpl in H; [|done].
  destruct (InstagramDownloader.iterate formats) as [l|]; simpl in H; [|done].
  destruct (InstagramDownloader.first_progressive l) as [first|]; simpl in H; [|done].
  destruct (if negb (truthy first) then get info "url" VNone else Ok first) as [video_url|];
    simpl in H; [|done].
  destruct (truthy video_url); simpl in H; [|done].
  destruct (get info "description" _) as [description|]; simpl in H; [|done].
  destruct (truthy description) eqn:Ed.
  - destruct description as [| | | |d| | |]; simpl in H; try done.
    rewrite sanitize_nonempty in H. simpl in H. injection H as <- <-.
    apply sanitize_proper.
  - simpl in H. rewrite Ed in H. simpl in H.
    destruct (get info "id" _) as [id|]; simpl in H; [|done].
    destruct (get info "channel" id) as [channel|]; simpl in H; [|done].
    by injection H as <- <-.
Qed.

Lemma proper_xhs_get_video_info url :
  Spec.reads_only (XiaohongshuDownloader.get_video_info w url)
    (fun r => Spec.proper_title r.2 = true).
Proof.
  unfold XiaohongshuDownloader.get_video_info.
  eapply (reads_only_bind _ _ (fun _ => True)).
  { destruct (contains "xhslink.com" url); [|by apply reads_only_ret].
    eapply reads_only_bind; [apply reads_only_session_get|].
    intros r _. by apply reads_only_ret. }
  intros page _. eapply reads_only_bind; [apply reads_only_session_get|].
  intros r _. eapply reads_only_bind; [apply reads_only_raise_for_status|].
  intros _ _.
  assert (∀ g, Spec.reads_only (XiaohongshuDownloader.matched w (resp_text r) g)
                 (fun r => Spec.proper_title r.2 = true)) as H.
  { intros g. eapply reads_only_weaken; [apply xhs_matched_shape|].
    intros [u t] [_ Hsafe]. by apply safe_proper. }
  destruct (Re.search Pattern.master_url (resp_text r)) as [g|]; [apply H|].
  destruct (Re.search Pattern.backup_urls (resp_text r)) as [g|]; [apply H|].
  apply reads_only_raise.
Qed.

Lemma proper_weibo_get_video_info url :
  Spec.reads_only (WeiboDownloader.get_video_info w url)
    (fun r => Spec.proper_title r.2 = true).
Proof.
  unfold WeiboDownloader.get_video_info.
  eapply reads_only_bind; [by apply (reads_only_lift _ (fun _ => True))|]. intros status_id _.
  eapply reads_only_bind; [apply reads_only_session_get|]. intros r _.
  eapply reads_only_bind; [apply reads_only_raise_for_status|]. intros _ _.
  eapply reads_only_bind; [by apply (reads_only_lift _ (fun _ => True))|]. intros data _.
  apply reads_only_lift. intros [u t]. apply parse_status_proper.
Qed.

Lemma proper_instagram_get_video_info self url :
  Spec.reads_only (InstagramDownloader.get_video_info w self url)
    (fun r => Spec.proper_title r.2 = true).
Proof.
  assert (∀ opts, Spec.reads_only
    (do info <- InstagramDownloader._extract_info w url opts;
     lift (InstagramDownloader._parse_video_info w info))
    (fun r => Spec.proper_title r.2 = true)) as H.
  { intros opts. eapply (reads_only_bind _ _ (fun _ => True)).
    - unfold InstagramDownloader._extract_info.
      eapply reads_only_bind; [by apply reads_only_emit|]. intros _ _. by apply reads_only_lift.
    - intros info _. apply reads_only_lift. intros [u t]. apply parse_video_info_proper. }
  unfold InstagramDownloader.get_video_info. apply reads_only_try_except; [apply H|].
  intros e. destruct (InstagramDownloader.wants_cookies e); [apply H|apply reads_only_raise].
Qed.

Lemma startswith_take front name n :
  (String.length front ≤ n)%nat → startswith front (take n (front ++ name)) = true.
Proof.
  revert n. induction front as [|c front IH]; intros n Hn; [by destruct (take _ _)|].
  destruct n as [|n]; [simpl in Hn; lia|]. rewrite str_app_cons. cbn [take startswith].
  rewrite Ascii.eqb_refl. apply IH. simpl in Hn. lia.
Qed.

Lemma startswith_app_r p s t : startswith p s = true → startswith p (s ++ t) = true.
Proof.
  revert s. induction p as [|c p IH]; intros s; [by destruct (s ++ t)|].
  destruct s as [|d s]; [done|]. rewrite str_app_cons. cbn [startswith].
  intros [-> Hs]%andb_prop. by apply IH.
Qed.

(** The first part of a split path still holds the front. *)
Lemma splitext_front front name :
  Spec.is_front front →
  startswith front (OsPath.splitext (front ++ name)).1 = true.
Proof.
  intros Hfront. unfold OsPath.splitext.
  destruct (_ <? _)%Z eqn:Hlt; [|apply startswith_app].
  destruct (all_chars _ _); [apply startswith_app|]. cbn [fst]. unfold slice_to.
  apply startswith_take. apply Z.ltb_lt in Hlt.
  pose proof (rfind_front front Hfront) as Hsep.
  assert (rfind "/" front ≤ rfind "/" (front ++ name))%Z.
  { unfold rfind at 2. rewrite rfind_from_app.
    apply rfind_from_bounds. fold (rfind "/" front). lia. }
  lia.
Qed.

Lemma get_unique_path_front front name fs p :
  Spec.is_front front →
  value_of (get_unique_path (front ++ name) fs) = Ok p → startswith front p = true.
Proof.
  intros Hfront. rewrite get_unique_path_unfold.
  destruct (decide (front ++ name ∈ fs)) as [HP|HP].
  - rewrite bool_decide_eq_true_2 by done. cbv zeta.
    destruct (free_exists fs (OsPath.splitext (front ++ name)).1
                (OsPath.splitext (front ++ name)).2 1) as (n & Hn & Hall & Hout).
    rewrite (unique_loop_finds fs _ _ n 1%N (front ++ name) (2 + size fs) HP Hall Hout) by lia.
    cbn [value_of]. intros [= <-]. unfold numbered.
    by apply startswith_app_r, splitext_front.
  - rewrite bool_decide_eq_false_2 by done. intros [= <-]. apply startswith_app.
Qed.

(** The end of every downloader, for a title that is proper. *)
Lemma fetch_lands s video_url output_dir title referer fs p :
  Spec.proper_title title = true →
  p ∈ Spec.transfers (trace
        ((do output_path <- get_unique_path (OsPath.join output_dir (title ++ ".mp4"));
          download_video w s video_url output_path referer) fs)) →
  startswith (OsPath.join output_dir EmptyString) p = true.
Proof.
  intros [Hne Hslash]%andb_prop.
  assert (startswith "/" (title ++ ".mp4") = false) as Hstart.
  { destruct title as [|c title]; [done|]. rewrite str_app_cons.
    cbn [startswith] in *. by destruct (Ascii.eqb "/" c). }
  destruct (join_front output_dir _ Hstart) as (front & Hfront & -> & Hjoin).
  rewrite (Hjoin EmptyString) by done. rewrite str_app_nil_r.
  destruct (get_unique_path_fresh (front ++ title ++ ".mp4") fs) as (Hf & Ht & _).
  rewrite trace_bind, transfers_app, Ht, Hf. cbn [app].
  destruct (value_of (get_unique_path _ fs)) as [q|] eqn:Hq; [|by intros ?%elem_of_nil].
  apply get_unique_path_front in Hq; [|done].
  unfold download_video. rewrite trace_bind. cbn [emit trace value_of files].
  assert (∀ o : outcome string, Spec.transfers (trace o) = [] →
    p ∈ Spec.transfers ([Stream s video_url referer q] ++ trace o) → p = q) as H.
  { intros o Ho. rewrite transfers_app, Ho. cbn. by intros ->%list_elem_of_singleton. }
  intros Hp. apply H in Hp; [by subst|].
  destruct (http_stream w s video_url referer q); reflexivity.
Qed.

Lemma dispatch_lands platform cfb cf url output_dir fs p :
  p ∈ Spec.transfers (trace (dispatch w platform cfb cf url output_dir fs)) →
  startswith (OsPath.join output_dir EmptyString) p = true.
Proof.
  assert (∀ (info : M (value * string)) s referer,
    Spec.reads_only info (fun r => Spec.proper_title r.2 = true) →
    p ∈ Spec.transfers (trace
          ((do '(video_url, title) <- info;
            do output_path <- get_unique_path (OsPath.join output_dir (title ++ ".mp4"));
            download_video w s video_url output_path referer) fs)) →
    startswith (OsPath.join output_dir EmptyString) p = true) as H.
  { intros info s referer Hinfo. destruct (Hinfo fs) as (Hf & Ht & Hv).
    rewrite trace_bind, transfers_app, Ht, Hf. cbn [app].
    destruct (value_of (info fs)) as [[video_url title]|]; [|by intros ?%elem_of_nil].
    apply fetch_lands. by apply (Hv (video_url, title)). }
  destruct platform; cbn [dispatch].
  - apply H, proper_weibo_get_video_info.
  - apply H, proper_xhs_get_video_info.
  - apply H, proper_instagram_get_video_info.
Qed.

End landing.

(** X24: where the downloads land.  Every transfer of the two entry
    points goes to a path that starts with the output directory followed
    by a slash (with nothing, when the directory is empty or ends in a
    slash already).  The output directory is the one asked for; without
    one, it is the working directory for a URL and the directory of the
    screenshot for a screenshot. *)
Theorem downloads_land_in_directory (w : World) (fs : gset string)
    (output_dir cookies_from_browser cookies_file : option string) :
  (∀ url p,
     p ∈ Spec.transfers
           (trace (download_from_url w url output_dir cookies_from_browser cookies_file fs)) →
     PyStr.startswith
       (OsPath.join (match output_dir with Some d => d | None => os_getcwd w end) "") p
     = true)
  ∧ (∀ screenshot_path p,
       p ∈ Spec.transfers
             (trace (download_from_screenshot w screenshot_path output_dir
                       cookies_from_browser cookies_file fs)) →
       PyStr.startswith
         (OsPath.join (match output_dir with
                       | Some d => d
                       | None => OsPath.dirname (os_abspath w screenshot_path)
                       end) "") p
       = true).
Proof.
  split.
  - intros url p. rewrite download_from_url_unfold.
    destruct (detect_platform url); [apply dispatch_lands|by intros ?%elem_of_nil].
  - intros screenshot_path p. rewrite download_from_screenshot_unfold. cbv zeta.
    destruct (reads_only_read_qrcode w screenshot_path fs) as (_ & Ht & _).
    destruct (value_of (read_qrcode w screenshot_path fs)) as [qr_url|]; cbn [trace].
    2: { rewrite Ht. by intros ?%elem_of_nil. }
    destruct (detect_platform qr_url); cbn [trace].
    2: { rewrite Ht. by intros ?%elem_of_nil. }
    rewrite transfers_app, Ht. apply dispatch_lands.
Qed.

Lemma downloads_land_in_directory_witness :
  PyStr.startswith "/out/" "/out/My Trip.mp4" = true.
Proof.
  refine (proj1 (downloads_land_in_directory Sample.short_world ∅ (Some "/out") None None)
    Sample.short_payload "/out/My Trip.mp4" _).
  vm_compute. apply list_elem_of_singleton. reflexivity.
Defined.
